(** * Movie_world: content enrichment, response cache, retry and pagination

    A shallow embedding of the algorithmic core of the Movie_world
    front end (services/apiService.js, services/omdbApi.js and
    utils/apiHelpers.js) together with the properties its specification
    states about it.

    Conventions.
    - JavaScript integers (page numbers, sizes, millisecond timestamps,
      TMDB ids) are [Z]; ratings, which are decimal fractions, are [Q].
    - A JavaScript string is a [string]; every character stands for one
      code unit, so [String.length] is the [.length] of the source.
    - [null] and [undefined] are both [None] of an [option]: the code
      modelled here only tests them for truthiness.
    - A JavaScript [Map] and an object used as a dictionary are
      insertion-ordered association lists ([JsMap]): the order of the keys
      is observable in the code ([keys().next()]), so an unordered finite
      map would lose what the cache eviction depends on.
    - [Date.now()] and the outcome of an HTTP request are inputs of the
      operation that reads them.
    - Code that can throw returns [Res]; a loop whose termination is not
      structural takes fuel and returns [None] when it runs out. *)

From Stdlib Require Import ZArith List String Bool Lia QArith Permutation.
Import ListNotations.
Open Scope string_scope.
Open Scope list_scope.
Open Scope Z_scope.

Set Implicit Arguments.

(** ** Exceptions *)

(** What [handleApiError] tells apart: a response with an HTTP status
    ([error.response]), a request that got no response ([error.request]),
    and anything else, such as a [TypeError] or [new Error(message)]. *)
Inductive ApiError :=
| HttpError (status : Z)
| NetworkError
| OtherError (message : string).

(** The result of code that may throw an [E]. *)
Inductive Res (E A : Type) :=
| Ok (a : A)
| Throw (e : E).

Arguments Ok {E A} a.
Arguments Throw {E A} e.

Definition bind {E A B} (r : Res E A) (k : A -> Res E B) : Res E B :=
match r with
| Ok a => k a
| Throw e => Throw e
end.

(** [try { body } catch (error) { handler }] *)
Definition try_catch {E A} (body : Res E A) (handler : E -> Res E A) : Res E A :=
match body with
| Ok a => Ok a
| Throw e => handler e
end.

Notation "x <- c1 ;; c2" := (bind c1 (fun x => c2))
  (at level 61, c1 at next level, right associativity).

(** ** JavaScript values that are tested for truthiness *)

Inductive JsNum :=
| NaN
| Num (q : Q).

(** A value that is a number in one branch and a string in another. *)
Inductive JsVal :=
| VNum (n : JsNum)
| VStr (s : string).

Definition truthy_num (n : JsNum) : bool :=
match n with
| NaN => false
| Num q => negb (Qeq_bool q 0)
end.

Definition truthy_str (s : string) : bool :=
match s with
| EmptyString => false
| String _ _ => true
end.

Definition truthy_val (v : JsVal) : bool :=
match v with
| VNum n => truthy_num n
| VStr s => truthy_str s
end.

(** [a || b] where [a] may be [null] or [undefined]. *)
Definition js_or {A} (truthy : A -> bool) (a b : option A) : option A :=
match a with
| Some x => if truthy x then a else b
| None => b
end.

(** ** Insertion-ordered maps (JavaScript [Map], dictionary objects) *)

Module JsMap.
Section Defs.
Variable V : Type.

Definition t := list (string * V).

Definition empty : t := [].

(** [m.get(k)]: [None] stands for [undefined]. *)
Fixpoint get (k : string) (m : t) : option V :=
match m with
| [] => None
| (k', v) :: m' => if String.eqb k' k then Some v else get k m'
end.

(** [m.has(k)] *)
Definition has (k : string) (m : t) : bool :=
match get k m with
| Some _ => true
| None => false
end.

(** [m.set(k, v)]: an existing key keeps its position and takes the new
    value; a new key goes to the end. *)
Fixpoint set (k : string) (v : V) (m : t) : t :=
match m with
| [] => [(k, v)]
| (k', v') :: m' =>
    if String.eqb k' k then (k, v) :: m' else (k', v') :: set k v m'
end.

(** [m.delete(k)] *)
Definition delete (k : string) (m : t) : t :=
filter (fun e => negb (String.eqb (fst e) k)) m.

(** [m.size] *)
Definition size (m : t) : Z := Z.of_nat (List.length m).

Definition keys (m : t) : list string := map fst m.

(** [m.keys().next().value]: [None] stands for the [undefined] of an
    empty map. *)
Definition first_key (m : t) : option string :=
match m with
| [] => None
| (k, _) :: _ => Some k
end.

(** The representation invariant of a [Map]: no key occurs twice. *)
Definition wf (m : t) : Prop := NoDup (keys m).
End Defs.
End JsMap.

(** ** The response cache: [class ApiCache] (utils/apiHelpers.js) *)

Module ApiCache.
Section Defs.
(** The cached payloads are opaque to the cache. *)
Variable Data : Type.

Record Item := mkItem { data : Data; expiry : Z }.

Record t := mk { cache : JsMap.t Item; maxSize : Z; ttl : Z }.

(** [constructor(maxSize = 100, ttl = 5 * 60 * 1000)] *)
Definition new (maxSize ttl : Z) : t :=
{| cache := JsMap.empty Item; maxSize := maxSize; ttl := ttl |}.

Definition with_cache (c : t) (m : JsMap.t Item) : t :=
{| cache := m; maxSize := maxSize c; ttl := ttl c |}.

(** [get(key)] when [Date.now()] reads [now]; [None] is the [null] of a
    miss. *)
Definition get (c : t) (key : string) (now : Z) : option Data * t :=
match JsMap.get key (cache c) with
| None => (None, c)
| Some item =>
    if now >? expiry item
    then (None, with_cache c (JsMap.delete key (cache c)))
    else (Some (data item), c)
end.

(** [set(key, data)] when [Date.now()] reads [now]. With an empty store
    [firstKey] is [undefined], and deleting it changes nothing. *)
Definition set (c : t) (key : string) (d : Data) (now : Z) : t :=
let store :=
  if JsMap.size (cache c) >=? maxSize c
  then match JsMap.first_key (cache c) with
       | Some firstKey => JsMap.delete firstKey (cache c)
       | None => cache c
       end
  else cache c in
with_cache c (JsMap.set key {| data := d; expiry := now + ttl c |} store).

Definition clear (c : t) : t := with_cache c (JsMap.empty Item).

Definition size (c : t) : Z := JsMap.size (cache c).

(** A call of one of the four methods, with the clock reading it sees. *)
Inductive Op :=
| OpGet (key : string) (now : Z)
| OpSet (key : string) (d : Data) (now : Z)
| OpClear
| OpSize.

Definition step (c : t) (o : Op) : t :=
match o with
| OpGet key now => snd (get c key now)
| OpSet key d now => set c key d now
| OpClear => clear c
| OpSize => c
end.

Definition run (c : t) (ops : list Op) : t := fold_left step ops c.

(** One [set] call for each (key, data, clock reading). *)
Definition sets (entries : list (string * Data * Z)) : list Op :=
map (fun e => OpSet (fst (fst e)) (snd (fst e)) (snd e)) entries.
End Defs.
End ApiCache.

(** ** Retrying a failed call: [retryApiCall] (utils/apiHelpers.js) *)

Module Retry.

(** What an observer sees of one run: every invocation of [apiCall] and
    every [setTimeout] the function waits for, in order. *)
Inductive Event :=
| Called
| Waited (ms : Z).

Section Defs.
(** [apiCall] is a thunk with effects: it reads and changes a world [W]
    (the network, the server's rate limiter) and returns or throws. *)
Variables W E A : Type.
Variable apiCall : W -> Res E A * W.

Record Outcome := mkOutcome
  { result : Res E (option A); world : W; trace : list Event }.

(** The [for] loop from index [i] on. [Ok None] is the [undefined] an
    async function returns when its body falls off the end. *)
Fixpoint retry_loop (fuel : nat) (maxRetries delay i : Z) (w : W)
    (tr : list Event) : option Outcome :=
match fuel with
| O => None
| S fuel' =>
    if i <? maxRetries then
      match apiCall w with
      | (Ok a, w') => Some (mkOutcome (Ok (Some a)) w' (tr ++ [Called]))
      | (Throw error, w') =>
          if i =? maxRetries - 1
          then Some (mkOutcome (Throw error) w' (tr ++ [Called]))
          else retry_loop fuel' maxRetries delay (i + 1) w'
                 (tr ++ [Called; Waited (delay * (i + 1))])
      end
    else Some (mkOutcome (Ok None) w tr)
end.

(** [retryApiCall(apiCall, maxRetries = 3, delay = 1000)]. The loop runs
    at most [maxRetries] times, so this fuel is never used up
    ([retryApiCall_total] below). *)
Definition retryApiCall (maxRetries delay : Z) (w : W) : option Outcome :=
retry_loop (S (Z.to_nat maxRetries)) maxRetries delay 0 w [].

(** The world in which the attempt after [k] earlier ones runs. *)
Definition world_after (k : nat) (w : W) : W :=
Nat.iter k (fun w' => snd (apiCall w')) w.
End Defs.

Definition attempts (tr : list Event) : nat :=
List.length (filter (fun e => match e with Called => true | Waited _ => false end) tr).

Definition waits (tr : list Event) : list Z :=
flat_map (fun e => match e with Called => [] | Waited ms => [ms] end) tr.

(** Linear backoff, in the specification's words: [n] more attempts of
    which the first is attempt number [k], each failed attempt but the
    last followed by a wait of [delay] times its attempt number. *)
Fixpoint linear_backoff (n : nat) (delay : Z) (k : Z) : list Event :=
match n with
| O => []
| S O => [Called]
| S n' => Called :: Waited (delay * k) :: linear_backoff n' delay (k + 1)
end.

(** An authentication failure, as [handleApiError] recognises it. *)
Definition is_auth_failure (e : ApiError) : bool :=
match e with
| HttpError status => status =? 401
| _ => false
end.

(** The specification's sentence on authentication failures, as it
    reads: when the call fails with one, the failure is surfaced and the
    call is not attempted again. *)
Definition auth_failure_never_retried : Prop :=
forall (W A : Type) (apiCall : W -> Res ApiError A * W)
       (maxRetries delay : Z) (w : W) (e : ApiError),
  1 <= maxRetries ->
  is_auth_failure e = true ->
  fst (apiCall w) = Throw e ->
  exists o,
    retryApiCall apiCall maxRetries delay w = Some o
    /\ result o = Throw e
    /\ attempts (trace o) = 1%nat.
End Retry.

(** ** The pagination window: [generatePageNumbers] (utils/apiHelpers.js) *)

Module Pagination.

(** [for (let i = start; i <= end; i++) pages.push(i)]: [n] pushes from
    [i] on. *)
Fixpoint push_range (n : nat) (i : Z) : list Z :=
match n with
| O => []
| S n' => i :: push_range n' (i + 1)
end.

(** [generatePageNumbers(currentPage, totalPages, maxVisible = 5)];
    [Math.floor(maxVisible / 2)] is [Z.div], which rounds down. *)
Definition generatePageNumbers (currentPage totalPages maxVisible : Z) : list Z :=
let half := maxVisible / 2 in
let start := Z.max 1 (currentPage - half) in
let end_ := Z.min totalPages (start + maxVisible - 1) in
let start :=
  if end_ - start + 1 <? maxVisible
  then Z.max 1 (end_ - maxVisible + 1)
  else start in
push_range (Z.to_nat (end_ - start + 1)) start.

End Pagination.

(** ** [Promise.all] *)

Module Promise.
Section Defs.
Variables E A : Type.

(** [values[i] = v] *)
Fixpoint store (i : nat) (v : A) (values : list (option A)) : list (option A) :=
match values, i with
| [], _ => []
| _ :: rest, O => Some v :: rest
| x :: rest, S i' => x :: store i' v rest
end.

(** The promises settle in the order [order] (indices into [promises],
    whose elements are the outcomes the promises settle with). A
    fulfilment is stored at the index of its promise; the first rejection
    rejects the aggregate. *)
Fixpoint settle (promises : list (Res E A)) (order : list nat)
    (values : list (option A)) : Res E (list (option A)) :=
match order with
| [] => Ok values
| i :: order' =>
    match nth_error promises i with
    | Some (Ok v) => settle promises order' (store i v values)
    | Some (Throw e) => Throw e
    | None => settle promises order' values
    end
end.

Fixpoint all_filled (values : list (option A)) : option (list A) :=
match values with
| [] => Some []
| Some v :: rest => option_map (cons v) (all_filled rest)
| None :: _ => None
end.

(** Every slot that is filled holds the value of its promise. *)
Definition agrees (values : list (option A)) (vs : list A) : Prop :=
List.length values = List.length vs
/\ forall j x, nth_error values j = Some (Some x) -> nth_error vs j = Some x.

(** [await Promise.all(promises)]; [None] when a promise never settles,
    so that the [await] never resumes. *)
Definition all (promises : list (Res E A)) (order : list nat) : option (Res E (list A)) :=
match settle promises order (repeat None (List.length promises)) with
| Throw e => Some (Throw e)
| Ok values => option_map Ok (all_filled values)
end.
End Defs.

(** A completion order in which each of [n] promises settles once. *)
Definition complete (n : nat) (order : list nat) : Prop :=
Permutation order (seq 0 n).
End Promise.

(** ** Built-in functions of the JavaScript runtime

    The string and number functions the code calls are not part of the
    repository; the embedding takes them as they come. *)

Module Js.
Record Builtins := mkBuiltins
  { parseFloat : string -> JsNum;
    parseInt : string -> JsNum;
    (** [s.split(sep)], here [split sep s] *)
    split : string -> string -> list string;
    (** [s.replace(/,/g, '')] *)
    remove_commas : string -> string;
    (** [s.replace('%', '')] *)
    remove_percent : string -> string;
    (** [s.toLowerCase().replace(/\s+/g, '_')] *)
    source_key : string -> string }.

(** [array.slice(start, end)] with its relative (negative) indices. *)
Definition slice {A} (l : list A) (start end_ : Z) : list A :=
let len := Z.of_nat (List.length l) in
let k := if start <? 0 then Z.max (len + start) 0 else Z.min start len in
let final := if end_ <? 0 then Z.max (len + end_) 0 else Z.min end_ len in
firstn (Z.to_nat (final - k)) (skipn (Z.to_nat k) l).

Definition type_error : ApiError := OtherError "TypeError".
End Js.

(** ** Records of the primary source (services/tmdbApi.js) *)

(** An entry of a genre list of the primary source. *)
Module Genre.
Record t := mk { id : Z; name : string }.
End Genre.

Module Tmdb.

(** The fields every record of a listing has ([transformTrendingData],
    [transformMovieData], [transformTVData], [transformSearchData]).
    [year] is a number or ['N/A']; [genre] holds ids in a listing and
    names in a detail record. *)
Record Core := mkCore
  { id : Z;
    tmdbId : Z;
    title : string;
    type : string;
    year : JsVal;
    genre : list JsVal;
    plot : string;
    rating : Q;
    tmdb : Q;
    poster : option string;
    backdrop : option string;
    releaseDate : string;
    popularity : Q;
    voteCount : Z;
    originalLanguage : string }.

(** A record as [ApiService] receives it: the common fields, and the
    fields only [transformMovieDetails] and [transformTVDetails] set,
    which are [undefined] ([None]) on a record of a listing. *)
Record Item := mkItem
  { core : Core;
    imdbId : option string;
    runtime : option Z;
    budget : option Z;
    revenue : option Z;
    cast : option (list string);
    director : option string;
    productionCompanies : option (list string);
    similar : option (list Core);
    numberOfSeasons : option Z;
    numberOfEpisodes : option Z;
    episodeRunTime : option Z;
    creator : option string;
    networks : option (list string) }.

(** A record of a listing. *)
Definition listed (c : Core) : Item :=
{| core := c; imdbId := None; runtime := None; budget := None;
   revenue := None; cast := None; director := None;
   productionCompanies := None; similar := None; numberOfSeasons := None;
   numberOfEpisodes := None; episodeRunTime := None; creator := None;
   networks := None |}.

(** [response.data] of a genre list; [genres] may be missing. *)
Record GenresPayload := mkGenresPayload { genres : option (list Genre.t) }.

Definition GENRES_MOVIE : string := "/genre/movie/list".
Definition GENRES_TV : string := "/genre/tv/list".

Section Client.
(** The outcome of [this.api.get(endpoint)]. *)
Variable http : string -> Res ApiError GenresPayload.

Definition getMovieGenres : Res ApiError (option (list Genre.t)) :=
try_catch
  (response <- http GENRES_MOVIE ;; Ok (genres response))
  (fun _ => Throw (OtherError "Failed to fetch movie genres")).

Definition getTVGenres : Res ApiError (option (list Genre.t)) :=
try_catch
  (response <- http GENRES_TV ;; Ok (genres response))
  (fun _ => Throw (OtherError "Failed to fetch TV genres")).
End Client.
End Tmdb.

(** ** The secondary source (services/omdbApi.js) *)

Module Omdb.

Record RawRating := mkRawRating
  { Source : option string; Value : option string }.

(** [response.data]: the flat JSON object OMDB answers with; a missing
    member is [None]. *)
Record Raw := mkRaw
  { imdbID : option string;
    Title : option string;
    Year : option string;
    Rated : option string;
    Released : option string;
    Runtime : option string;
    Genre : option string;
    Director : option string;
    Writer : option string;
    Actors : option string;
    Plot : option string;
    Language : option string;
    Country : option string;
    Awards : option string;
    Poster : option string;
    Ratings : option (list RawRating);
    Metascore : option string;
    raw_imdbRating : option string;
    raw_imdbVotes : option string;
    Type_ : option string;
    DVD : option string;
    BoxOffice : option string;
    Production : option string;
    Website : option string;
    raw_totalSeasons : option string;
    Response : option string }.

(** What [transformOMDBData] returns. *)
Record Item := mkItem
  { imdbId : option string;
    title : option string;
    year : option string;
    rated : option string;
    released : option string;
    runtime : option string;
    genre : list string;
    director : option string;
    writer : option string;
    actors : list string;
    plot : option string;
    language : option string;
    country : option string;
    awards : option string;
    poster : option string;
    ratings : JsMap.t (option JsVal);
    metascore : option JsNum;
    imdbRating : option JsNum;
    imdbVotes : option string;
    type : option string;
    dvd : option string;
    boxOffice : option string;
    production : option string;
    website : option string;
    totalSeasons : option string;
    response : option string }.

(** The query of one lookup by title. *)
Record Params := mkParams
  { t : string; y : option JsVal; param_type : option string }.

(** [if (v) params.k = v] *)
Definition when_truthy {A} (truthy : A -> bool) (v : option A) : option A :=
match v with
| Some x => if truthy x then Some x else None
| None => None
end.

Definition is_source (rating : RawRating) (name : string) : bool :=
match Source rating with
| Some s => String.eqb s name
| None => false
end.

Section Client.
Variable js : Js.Builtins.

(** [parseFloat(value.split('/')[0])]; the first element of an empty
    array is [undefined], which parses to [NaN]. *)
Definition parse_first (parse : string -> JsNum) (parts : list string) : JsNum :=
match parts with
| first :: _ => parse first
| [] => NaN
end.

(** The body of the [forEach] in [transformRatings]. A method call on a
    missing [Value] or [Source] throws a [TypeError]. The map is only
    read by key, never enumerated. *)
Definition add_rating (ratingMap : JsMap.t (option JsVal)) (rating : RawRating)
  : Res ApiError (JsMap.t (option JsVal)) :=
if is_source rating "Internet Movie Database" then
  match Value rating with
  | Some v =>
      Ok (JsMap.set "imdb"
            (Some (VNum (parse_first (Js.parseFloat js) (Js.split js "/" v))))
            ratingMap)
  | None => Throw Js.type_error
  end
else if is_source rating "Rotten Tomatoes" then
  match Value rating with
  | Some v =>
      Ok (JsMap.set "rottenTomatoes"
            (Some (VNum (Js.parseInt js (Js.remove_percent js v)))) ratingMap)
  | None => Throw Js.type_error
  end
else if is_source rating "Metacritic" then
  match Value rating with
  | Some v =>
      Ok (JsMap.set "metacritic"
            (Some (VNum (parse_first (Js.parseInt js) (Js.split js "/" v))))
            ratingMap)
  | None => Throw Js.type_error
  end
else
  match Source rating with
  | Some s =>
      Ok (JsMap.set (Js.source_key js s) (option_map VStr (Value rating)) ratingMap)
  | None => Throw Js.type_error
  end.

Fixpoint transformRatings_from (ratingMap : JsMap.t (option JsVal))
    (ratings : list RawRating) : Res ApiError (JsMap.t (option JsVal)) :=
match ratings with
| [] => Ok ratingMap
| rating :: rest =>
    ratingMap' <- add_rating ratingMap rating ;;
    transformRatings_from ratingMap' rest
end.

Definition transformRatings (ratings : list RawRating)
  : Res ApiError (JsMap.t (option JsVal)) :=
transformRatings_from (JsMap.empty (option JsVal)) ratings.

(** [v ? v.split(', ') : []] *)
Definition split_list (v : option string) : list string :=
match v with
| Some s => if truthy_str s then Js.split js ", " s else []
| None => []
end.

(** [v !== 'N/A' ? parseFloat(v) : null]; [parseFloat(undefined)] is
    [NaN]. *)
Definition float_unless_na (v : option string) : option JsNum :=
match v with
| Some s => if String.eqb s "N/A" then None else Some (Js.parseFloat js s)
| None => Some NaN
end.

(** [v !== 'N/A' ? v : null] *)
Definition unless_na (v : option string) : option string :=
match v with
| Some s => if String.eqb s "N/A" then None else Some s
| None => None
end.

(** [v !== 'N/A' ? v.replace(/,/g, '') : null]; on a missing [v] the
    method call throws. *)
Definition votes_unless_na (v : option string) : Res ApiError (option string) :=
match v with
| Some s => if String.eqb s "N/A" then Ok None else Ok (Some (Js.remove_commas js s))
| None => Throw Js.type_error
end.

Definition transformOMDBData (data : Raw) : Res ApiError Item :=
ratings' <- transformRatings (match Ratings data with Some r => r | None => [] end) ;;
imdbVotes' <- votes_unless_na (raw_imdbVotes data) ;;
Ok {| imdbId := imdbID data;
      title := Title data;
      year := Year data;
      rated := Rated data;
      released := Released data;
      runtime := Runtime data;
      genre := split_list (Genre data);
      director := Director data;
      writer := Writer data;
      actors := split_list (Actors data);
      plot := Plot data;
      language := Language data;
      country := Country data;
      awards := Awards data;
      poster := unless_na (Poster data);
      ratings := ratings';
      metascore := float_unless_na (Metascore data);
      imdbRating := float_unless_na (raw_imdbRating data);
      imdbVotes := imdbVotes';
      type := Type_ data;
      dvd := DVD data;
      boxOffice := BoxOffice data;
      production := Production data;
      website := Website data;
      totalSeasons := raw_totalSeasons data;
      response := Response data |}.

(** The outcome of [this.api.get('/', { params })]: [response.data], or
    the error the request throws. *)
Variable http : Params -> Res ApiError Raw.

Definition is_false (v : option string) : bool :=
match v with
| Some s => String.eqb s "False"
| None => false
end.

(** [searchByTitle(title, year = null, type = null)] *)
Definition searchByTitle (title : string) (year : option JsVal)
    (type : option string) : Res ApiError (option Item) :=
try_catch
  (let params :=
     {| t := title;
        y := when_truthy truthy_val year;
        param_type := when_truthy truthy_str type |} in
   data <- http params ;;
   if is_false (Response data) then Ok None
   else item <- transformOMDBData data ;; Ok (Some item))
  (fun _ => Ok None).
End Client.

(** [getOMDBType(tmdbType)] *)
Definition getOMDBType (tmdbType : string) : option string :=
if String.eqb tmdbType "movie" then Some "movie"
else if String.eqb tmdbType "tv" then Some "series"
else None.
End Omdb.

(** ** Merged records (services/apiService.js)

    An object literal [{ ...tmdbItem, key: value, ... }] is the record of
    its written keys together with the object it spreads: a key that is
    not written, such as [id], is read from [spread]. *)

Module MergedBasic.
Record t := mk
  { spread : Tmdb.Item;
    imdb : JsNum;
    rottenTomatoes : option JsVal;
    metacritic : option JsVal;
    imdbId : option string;
    rated : option string;
    awards : option string;
    plot : string;
    cast : list string;
    director : option string;
    writer : option string;
    boxOffice : option string;
    runtime : option JsVal }.

Definition id (m : t) : Z := Tmdb.id (Tmdb.core (spread m)).
End MergedBasic.

Module MergedDetailed.
Record t := mk
  { spread : Tmdb.Item;
    imdb : JsNum;
    rottenTomatoes : option JsVal;
    metacritic : option JsVal;
    metascore : option JsNum;
    imdbVotes : option string;
    imdbId : option string;
    rated : option string;
    awards : option string;
    language : option string;
    country : option string;
    plot : string;
    cast : list string;
    director : option string;
    writer : option string;
    boxOffice : option string;
    runtime : option JsVal;
    dvd : option string;
    website : option string;
    production : option string;
    totalSeasons : option JsVal }.

Definition id (m : t) : Z := Tmdb.id (Tmdb.core (spread m)).
End MergedDetailed.

(** ** [class ApiService] (services/apiService.js) *)

Module ApiService.

(** An element of the array [enhanceWithOMDBData] returns: the record it
    was given, or that record merged with what the secondary source
    knows. *)
Inductive Enhanced :=
| Plain (item : Tmdb.Item)
| Merged (m : MergedBasic.t).

Definition enhanced_id (r : Enhanced) : Z :=
match r with
| Plain item => Tmdb.id (Tmdb.core item)
| Merged m => MergedBasic.id m
end.

Definition enhanced_plot (r : Enhanced) : string :=
match r with
| Plain item => Tmdb.plot (Tmdb.core item)
| Merged m => MergedBasic.plot m
end.

(** [omdbItem.imdbRating || tmdbItem.rating] *)
Definition merge_rating (tmdbItem : Tmdb.Item) (omdbItem : Omdb.Item) : JsNum :=
match Omdb.imdbRating omdbItem with
| Some n => if truthy_num n then n else Num (Tmdb.rating (Tmdb.core tmdbItem))
| None => Num (Tmdb.rating (Tmdb.core tmdbItem))
end.

(** [omdbItem.ratings?.key || null] *)
Definition merge_source (key : string) (omdbItem : Omdb.Item) : option JsVal :=
match JsMap.get key (Omdb.ratings omdbItem) with
| Some (Some v) => if truthy_val v then Some v else None
| _ => None
end.

(** [(omdbItem.plot && omdbItem.plot.length > tmdbItem.plot.length)
      ? omdbItem.plot : tmdbItem.plot] *)
Definition merge_plot (tmdbItem : Tmdb.Item) (omdbItem : Omdb.Item) : string :=
let tmdbPlot := Tmdb.plot (Tmdb.core tmdbItem) in
match Omdb.plot omdbItem with
| Some omdbPlot =>
    if truthy_str omdbPlot
       && (String.length tmdbPlot <? String.length omdbPlot)%nat
    then omdbPlot
    else tmdbPlot
| None => tmdbPlot
end.

(** [tmdbItem.cast && tmdbItem.cast.length > 0 ? tmdbItem.cast
      : omdbItem.actors || []]; [actors] is an array, hence truthy. *)
Definition merge_cast (tmdbItem : Tmdb.Item) (omdbItem : Omdb.Item) : list string :=
match Tmdb.cast tmdbItem with
| Some (actor :: others) => actor :: others
| _ => Omdb.actors omdbItem
end.

Definition num_val (n : option Z) : option JsVal :=
option_map (fun z => VNum (Num (inject_Z z))) n.

(** [mergeBasicData(tmdbItem, omdbItem)] *)
Definition mergeBasicData (tmdbItem : Tmdb.Item) (omdbItem : Omdb.Item) : MergedBasic.t :=
{| MergedBasic.spread := tmdbItem;
   MergedBasic.imdb := merge_rating tmdbItem omdbItem;
   MergedBasic.rottenTomatoes := merge_source "rottenTomatoes" omdbItem;
   MergedBasic.metacritic := merge_source "metacritic" omdbItem;
   MergedBasic.imdbId := Omdb.imdbId omdbItem;
   MergedBasic.rated := Omdb.rated omdbItem;
   MergedBasic.awards := Omdb.awards omdbItem;
   MergedBasic.plot := merge_plot tmdbItem omdbItem;
   MergedBasic.cast := merge_cast tmdbItem omdbItem;
   MergedBasic.director :=
     js_or truthy_str (Omdb.director omdbItem) (Tmdb.director tmdbItem);
   MergedBasic.writer := Omdb.writer omdbItem;
   MergedBasic.boxOffice := Omdb.boxOffice omdbItem;
   MergedBasic.runtime :=
     js_or truthy_val (option_map VStr (Omdb.runtime omdbItem))
       (num_val (Tmdb.runtime tmdbItem)) |}.

(** [mergeDetailedData(tmdbItem, omdbItem)];
    [productionCompanies?.join(', ')] is [String.concat]. *)
Definition mergeDetailedData (tmdbItem : Tmdb.Item) (omdbItem : Omdb.Item)
  : MergedDetailed.t :=
{| MergedDetailed.spread := tmdbItem;
   MergedDetailed.imdb := merge_rating tmdbItem omdbItem;
   MergedDetailed.rottenTomatoes := merge_source "rottenTomatoes" omdbItem;
   MergedDetailed.metacritic := merge_source "metacritic" omdbItem;
   MergedDetailed.metascore := Omdb.metascore omdbItem;
   MergedDetailed.imdbVotes := Omdb.imdbVotes omdbItem;
   MergedDetailed.imdbId := Omdb.imdbId omdbItem;
   MergedDetailed.rated := Omdb.rated omdbItem;
   MergedDetailed.awards := Omdb.awards omdbItem;
   MergedDetailed.language := Omdb.language omdbItem;
   MergedDetailed.country := Omdb.country omdbItem;
   MergedDetailed.plot := merge_plot tmdbItem omdbItem;
   MergedDetailed.cast := merge_cast tmdbItem omdbItem;
   MergedDetailed.director :=
     js_or truthy_str (Omdb.director omdbItem) (Tmdb.director tmdbItem);
   MergedDetailed.writer := Omdb.writer omdbItem;
   MergedDetailed.boxOffice := Omdb.boxOffice omdbItem;
   MergedDetailed.runtime :=
     js_or truthy_val (option_map VStr (Omdb.runtime omdbItem))
       (num_val (Tmdb.runtime tmdbItem));
   MergedDetailed.dvd := Omdb.dvd omdbItem;
   MergedDetailed.website := Omdb.website omdbItem;
   MergedDetailed.production :=
     js_or truthy_str (Omdb.production omdbItem)
       (option_map (String.concat ", ") (Tmdb.productionCompanies tmdbItem));
   MergedDetailed.totalSeasons :=
     js_or truthy_val (option_map VStr (Omdb.totalSeasons omdbItem))
       (num_val (Tmdb.numberOfSeasons tmdbItem)) |}.

Section Enhance.
Variable js : Js.Builtins.

(** [http n] is the outcome of the [n]-th request sent to the secondary
    source during the run, counted from 0. *)
Variable http : nat -> Omdb.Params -> Res ApiError Omdb.Raw.

(** [sched b n] is the order in which the [n] promises of batch number
    [b] settle. *)
Variable sched : nat -> nat -> list nat.

(** The [async (item) => { try ... catch ... }] callback, run for the
    record whose request is number [n]. *)
Definition enhance_item (n : nat) (item : Tmdb.Item) : Res ApiError Enhanced :=
try_catch
  (omdbData <- Omdb.searchByTitle js (http n)
                 (Tmdb.title (Tmdb.core item))
                 (Some (Tmdb.year (Tmdb.core item)))
                 (Omdb.getOMDBType (Tmdb.type (Tmdb.core item))) ;;
   match omdbData with
   | Some omdbItem => Ok (Merged (mergeBasicData item omdbItem))
   | None => Ok (Plain item)
   end)
  (fun _ => Ok (Plain item)).

(** [batch.map(async (item) => ...)]: the callbacks start in the order of
    the batch, so their requests are numbered in that order from [sent]
    on. *)
Fixpoint batch_promises (sent : nat) (batch : list Tmdb.Item)
  : list (Res ApiError Enhanced) :=
match batch with
| [] => []
| item :: rest => enhance_item sent item :: batch_promises (S sent) rest
end.

(** The [for] loop of [enhanceWithOMDBData] from index [i] on, batch
    number [b], after [sent] requests. *)
Fixpoint enhance_loop (fuel : nat) (tmdbItems : list Tmdb.Item)
    (maxConcurrent : Z) (i : Z) (b sent : nat) (enhancedItems : list Enhanced)
  : option (Res ApiError (list Enhanced)) :=
match fuel with
| O => None
| S fuel' =>
    if i <? Z.of_nat (List.length tmdbItems) then
      let batch := Js.slice tmdbItems i (i + maxConcurrent) in
      let batchPromises := batch_promises sent batch in
      match Promise.all batchPromises (sched b (List.length batchPromises)) with
      | None => None
      | Some (Throw e) => Some (Throw e)
      | Some (Ok batchResults) =>
          enhance_loop fuel' tmdbItems maxConcurrent (i + maxConcurrent)
            (S b) (sent + List.length batch)%nat (enhancedItems ++ batchResults)
      end
    else Some (Ok enhancedItems)
end.

(** [enhanceWithOMDBData(tmdbItems, maxConcurrent = 5)]; [None] when the
    call does not return within [fuel] rounds of the loop. The argument
    is an array by its type, and the empty array is returned as it is. *)
Definition enhanceWithOMDBData (fuel : nat) (tmdbItems : list Tmdb.Item)
    (maxConcurrent : Z) : option (Res ApiError (list Enhanced)) :=
if (List.length tmdbItems =? 0)%nat then Some (Ok (map Plain tmdbItems))
else enhance_loop fuel tmdbItems maxConcurrent 0 0 0 [].

(** What the callback leaves in the array for one record, as a function
    of what [searchByTitle] resolves to. *)
Definition enhanced_of (n : nat) (item : Tmdb.Item) : Enhanced :=
match Omdb.searchByTitle js (http n)
        (Tmdb.title (Tmdb.core item))
        (Some (Tmdb.year (Tmdb.core item)))
        (Omdb.getOMDBType (Tmdb.type (Tmdb.core item))) with
| Ok (Some omdbItem) => Merged (mergeBasicData item omdbItem)
| _ => Plain item
end.

(** The array the caller is to receive: for each record, in the order of
    the input, what its callback leaves; the records' requests are
    numbered from [sent] on. *)
Fixpoint enhanced_from (sent : nat) (tmdbItems : list Tmdb.Item) : list Enhanced :=
match tmdbItems with
| [] => []
| item :: rest => enhanced_of sent item :: enhanced_from (S sent) rest
end.

(** The query [enhance_item] sends for a record. *)
Definition params_of (item : Tmdb.Item) : Omdb.Params :=
{| Omdb.t := Tmdb.title (Tmdb.core item);
   Omdb.y := Omdb.when_truthy truthy_val (Some (Tmdb.year (Tmdb.core item)));
   Omdb.param_type :=
     Omdb.when_truthy truthy_str (Omdb.getOMDBType (Tmdb.type (Tmdb.core item))) |}.

(** The lookup of a record fails (the request throws) or answers with
    the not-found sentinel [Response: 'False']. *)
Definition lookup_misses (n : nat) (item : Tmdb.Item) : bool :=
match http n (params_of item) with
| Throw _ => true
| Ok data => Omdb.is_false (Omdb.Response data)
end.
End Enhance.

(** The state of the service: [this.genreCache]. *)
Record t := mk { genreCache : JsMap.t (list Genre.t) }.

Definition new : t := {| genreCache := JsMap.empty (list Genre.t) |}.

(** The callback of the [reduce] in [getGenres]. *)
Definition dedup_step (acc : list Genre.t) (genre : Genre.t) : list Genre.t :=
match find (fun g => Genre.id g =? Genre.id genre) acc with
| Some _ => acc
| None => acc ++ [genre]
end.

Definition uniqueGenres (allGenres : list Genre.t) : list Genre.t :=
fold_left dedup_step allGenres [].

(** What a call of [getGenres] does: its result, the state it leaves,
    and the endpoints it requested. *)
Record GenresOutcome := mkGenresOutcome
  { result : Res ApiError (list Genre.t);
    service : t;
    requests : list string }.

(** [getGenres()], with the outcome [http] of a request to an endpoint
    and the order [order] in which the two requests settle. The cache
    only ever holds arrays, so [has] and [get] agree. Spreading a missing
    [genres] member throws a [TypeError]; the [catch] rethrows. *)
Definition getGenres (svc : t) (http : string -> Res ApiError Tmdb.GenresPayload)
    (order : list nat) : option GenresOutcome :=
match JsMap.get "all" (genreCache svc) with
| Some cached => Some (mkGenresOutcome (Ok cached) svc [])
| None =>
    let promises := [Tmdb.getMovieGenres http; Tmdb.getTVGenres http] in
    let requested := [Tmdb.GENRES_MOVIE; Tmdb.GENRES_TV] in
    match Promise.all promises order with
    | None => None
    | Some (Throw e) => Some (mkGenresOutcome (Throw e) svc requested)
    | Some (Ok values) =>
        match nth 0 values None, nth 1 values None with
        | Some movieGenres, Some tvGenres =>
            let allGenres := movieGenres ++ tvGenres in
            let unique := uniqueGenres allGenres in
            Some (mkGenresOutcome (Ok unique)
                    {| genreCache := JsMap.set "all" unique (genreCache svc) |}
                    requested)
        | _, _ => Some (mkGenresOutcome (Throw Js.type_error) svc requested)
        end
    end
end.

(** The name under which [allGenres] first lists an id. *)
Definition first_name (i : Z) (allGenres : list Genre.t) : option string :=
option_map Genre.name (find (fun g => Genre.id g =? i) allGenres).

(** The ids of a genre list, each once. *)
Definition distinct_ids (allGenres : list Genre.t) : list Z :=
nodup Z.eq_dec (map Genre.id allGenres).

End ApiService.

(** ** Sample data

    Small records and stand-ins for the runtime and the network, on which
    the definitions above can be run. *)

Module Sample.

Definition js : Js.Builtins :=
{| Js.parseFloat := fun _ => NaN;
   Js.parseInt := fun _ => NaN;
   Js.split := fun _ s => [s];
   Js.remove_commas := fun s => s;
   Js.remove_percent := fun s => s;
   Js.source_key := fun s => s |}.

(** A record of a listing of films. *)
Definition movie (id : Z) (title plot : string) : Tmdb.Item :=
Tmdb.listed
  {| Tmdb.id := id; Tmdb.tmdbId := id; Tmdb.title := title;
     Tmdb.type := "movie"; Tmdb.year := VNum (Num (inject_Z 2020));
     Tmdb.genre := []; Tmdb.plot := plot;
     Tmdb.rating := inject_Z 7; Tmdb.tmdb := inject_Z 7;
     Tmdb.poster := None; Tmdb.backdrop := None;
     Tmdb.releaseDate := "2020-01-01"; Tmdb.popularity := inject_Z 1;
     Tmdb.voteCount := 10; Tmdb.originalLanguage := "en" |}.

(** An answer of the secondary source that carries a title and a plot. *)
Definition found (title plot : string) : Omdb.Raw :=
{| Omdb.imdbID := Some "tt0000001"; Omdb.Title := Some title;
   Omdb.Year := Some "2020"; Omdb.Rated := Some "PG";
   Omdb.Released := None; Omdb.Runtime := Some "100 min";
   Omdb.Genre := Some "Drama"; Omdb.Director := Some "N/A";
   Omdb.Writer := None; Omdb.Actors := Some "A, B";
   Omdb.Plot := Some plot; Omdb.Language := None; Omdb.Country := None;
   Omdb.Awards := None; Omdb.Poster := Some "N/A"; Omdb.Ratings := Some [];
   Omdb.Metascore := Some "N/A"; Omdb.raw_imdbRating := Some "N/A";
   Omdb.raw_imdbVotes := Some "N/A"; Omdb.Type_ := Some "movie";
   Omdb.DVD := None; Omdb.BoxOffice := None; Omdb.Production := None;
   Omdb.Website := None; Omdb.raw_totalSeasons := None;
   Omdb.Response := Some "True" |}.

(** The enrichment record of [found]. *)
Definition enrichment (title plot : string) : Omdb.Item :=
match Omdb.transformOMDBData js (found title plot) with
| Ok item => item
| Throw _ =>
    {| Omdb.imdbId := None; Omdb.title := None; Omdb.year := None;
       Omdb.rated := None; Omdb.released := None; Omdb.runtime := None;
       Omdb.genre := []; Omdb.director := None; Omdb.writer := None;
       Omdb.actors := []; Omdb.plot := None; Omdb.language := None;
       Omdb.country := None; Omdb.awards := None; Omdb.poster := None;
       Omdb.ratings := []; Omdb.metascore := None; Omdb.imdbRating := None;
       Omdb.imdbVotes := None; Omdb.type := None; Omdb.dvd := None;
       Omdb.boxOffice := None; Omdb.production := None; Omdb.website := None;
       Omdb.totalSeasons := None; Omdb.response := None |}
end.

(** Seven records, as in the specification's example of a batch. *)
Definition seven : list Tmdb.Item :=
map (fun n => movie (100 + Z.of_nat n) "Title" "short") (seq 0 7).

(** A network on which request number 3 fails and request number 5 is
    answered with the not-found sentinel. *)
Definition http (n : nat) (_ : Omdb.Params) : Res ApiError Omdb.Raw :=
if Nat.eqb n 3 then Throw NetworkError
else if Nat.eqb n 5 then
  Ok {| Omdb.imdbID := None; Omdb.Title := None; Omdb.Year := None;
        Omdb.Rated := None; Omdb.Released := None; Omdb.Runtime := None;
        Omdb.Genre := None; Omdb.Director := None; Omdb.Writer := None;
        Omdb.Actors := None; Omdb.Plot := None; Omdb.Language := None;
        Omdb.Country := None; Omdb.Awards := None; Omdb.Poster := None;
        Omdb.Ratings := None; Omdb.Metascore := None;
        Omdb.raw_imdbRating := None; Omdb.raw_imdbVotes := None;
        Omdb.Type_ := None; Omdb.DVD := None; Omdb.BoxOffice := None;
        Omdb.Production := None; Omdb.Website := None;
        Omdb.raw_totalSeasons := None; Omdb.Response := Some "False" |}
else Ok (found "Title" "a considerably longer plot description").

(** The promises of a batch settle last to first. *)
Definition last_first (b n : nat) : list nat := rev (seq 0 n).

Definition movieGenres : list Genre.t :=
[Genre.mk 28 "Action"; Genre.mk 18 "Drama"; Genre.mk 10751 "Family"].

Definition tvGenres : list Genre.t :=
[Genre.mk 10759 "Action & Adventure"; Genre.mk 18 "TV Drama";
 Genre.mk 10751 "Family"].

Definition genres_http (endpoint : string) : Res ApiError Tmdb.GenresPayload :=
if String.eqb endpoint Tmdb.GENRES_MOVIE
then Ok (Tmdb.mkGenresPayload (Some movieGenres))
else Ok (Tmdb.mkGenresPayload (Some tvGenres)).
End Sample.

(** * Further code of the repository *)

(** ** Pagination helpers (utils/apiHelpers.js) *)

Module Paging.



Section Defs.
Variable js : Js.Builtins.
(** [String(n)] for an integer [n]; [parseInt] turns its argument into a
    string before it reads it. *)
Variable num_to_string : Z -> string.

End Defs.

(** [getItemsRange(currentPage, itemsPerPage, totalItems)]: [(start, end)] *)
Definition getItemsRange (currentPage itemsPerPage totalItems : Z) : Z * Z :=
((currentPage - 1) * itemsPerPage + 1,
 Z.min (currentPage * itemsPerPage) totalItems).
End Paging.

(** ** [URLSearchParams]: a list of name-value pairs in which a name may
    occur more than once *)

Module UrlParams.
Definition t := list (string * string).

(** [params.get(name)]: the value of the first pair with that name;
    [None] is [null]. *)
Fixpoint get (name : string) (params : t) : option string :=
match params with
| [] => None
| (n, v) :: rest => if String.eqb n name then Some v else get name rest
end.

(** [params.delete(name)]: every pair with that name goes. *)
Definition delete (name : string) (params : t) : t :=
filter (fun p => negb (String.eqb (fst p) name)) params.

(** [params.set(name, value)]: the first pair with that name takes the
    value and the others go; without such a pair one is appended. *)
Fixpoint set (name value : string) (params : t) : t :=
match params with
| [] => [(name, value)]
| (n, v) :: rest =>
    if String.eqb n name then (name, value) :: delete name rest
    else (n, v) :: set name value rest
end.
End UrlParams.

Module PageUrl.
Section Defs.
Variable js : Js.Builtins.
Variable num_to_string : Z -> string.
(** [searchParams.toString()] *)
Variable serialize : UrlParams.t -> string.



End Defs.
End PageUrl.

(** ** The pagination component (components/Pagination.jsx)

    What the component renders, without its styling: the line of
    controls, and for every button the page it asks for when clicked. *)

Module PaginationView.

Inductive Label :=
| Previous
| Number (n : Z)
| Next.

(** A [PaginationButton]: its [page], [disabled] and [active] props and
    what it shows. *)
Record Button := mkButton
  { page : Z; label : Label; disabled : bool; active : bool }.

Inductive Control :=
| Btn (b : Button)
| Dots.

Record View := mkView
  { info : option (Z * Z * Z); controls : list Control }.

(** [pageNumbers[0] > bound] and its like: a comparison with the
    [undefined] of an empty array is false. *)
Definition above (bound : Z) (p : option Z) : bool :=
match p with
| Some n => n >? bound
| None => false
end.

Definition below (bound : Z) (p : option Z) : bool :=
match p with
| Some n => n <? bound
| None => false
end.

(** The component, with [itemsPerPage = 20], [showInfo = true] and
    [maxVisible = 5] as defaults of the source; [None] is the [null] it
    returns when there is at most one page. *)
Definition Pagination (currentPage totalPages totalResults itemsPerPage : Z)
    (showInfo : bool) (maxVisible : Z) : option View :=
if totalPages <=? 1 then None
else
  let pageNumbers :=
    Pagination.generatePageNumbers currentPage totalPages maxVisible in
  let '(start, end_) :=
    Paging.getItemsRange currentPage itemsPerPage totalResults in
  let first := hd_error pageNumbers in
  let last := hd_error (rev pageNumbers) in
  Some
    {| info := if showInfo then Some (start, end_, totalResults) else None;
       controls :=
         [Btn (mkButton (currentPage - 1) Previous (currentPage =? 1) false)]
         ++ (if above 1 first
             then Btn (mkButton 1 (Number 1) false false)
                  :: (if above 2 first then [Dots] else [])
             else [])
         ++ map (fun p => Btn (mkButton p (Number p) false (p =? currentPage)))
              pageNumbers
         ++ (if below totalPages last
             then (if below (totalPages - 1) last then [Dots] else [])
                  ++ [Btn (mkButton totalPages (Number totalPages) false false)]
             else [])
         ++ [Btn (mkButton (currentPage + 1) Next (currentPage =? totalPages) false)] |}.

(** [onClick={() => !disabled && handlePageClick(page)}]: the page handed
    to [onPageChange], if any. *)
Definition click (currentPage totalPages : Z) (b : Button) : option Z :=
if disabled b then None
else if negb (page b =? currentPage) && (page b >=? 1) && (page b <=? totalPages)
then Some (page b)
else None.

(** The numbered buttons of a line of controls, left to right, with an
    ellipsis as [None]. *)
Fixpoint numbered (cs : list Control) : list (option Z) :=
match cs with
| [] => []
| Dots :: rest => None :: numbered rest
| Btn b :: rest =>
    match label b with
    | Number n => Some n :: numbered rest
    | _ => numbered rest
    end
end.

(** Neighbouring numbered buttons show consecutive pages, and an
    ellipsis stands exactly where pages are left out. *)
Fixpoint well_spaced (ns : list (option Z)) : bool :=
match ns with
| Some a :: ((Some b :: _) as rest) => (b =? a + 1) && well_spaced rest
| Some a :: None :: ((Some b :: _) as rest) => (a + 1 <? b) && well_spaced rest
| [Some _] => true
| [] => true
| _ => false
end.

(** The pages of the numbered buttons. *)
Definition pages_shown (cs : list Control) : list Z :=
flat_map (fun n => match n with Some p => [p] | None => [] end) (numbered cs).

Definition active_pages (cs : list Control) : list Z :=
flat_map (fun c => match c with
                   | Btn b => if active b then [page b] else []
                   | Dots => []
                   end) cs.
End PaginationView.

(** ** Messages and formatting (utils/apiHelpers.js) *)

Module Helpers.

(** [error.response]: its [status] and [data?.message]. *)
Record ErrorResponse := mkErrorResponse
  { status : Z; data_message : option string }.

(** An error as [handleApiError] reads it: [error.response], whether
    [error.request] is set, and [error.message]. *)
Record ErrorObject := mkErrorObject
  { response : option ErrorResponse; request : bool; message : option string }.

(** [`${v}`] for a string that may be [undefined] *)
Definition show (v : option string) : string :=
match v with
| Some s => s
| None => "undefined"
end.

Section Defs.
Variable num_to_string : Z -> string.

(** [handleApiError(error, context)]; the [console.error] leaves no
    trace in the result. *)
Definition handleApiError (error : ErrorObject) : string :=
match response error with
| Some r =>
    let message := js_or truthy_str (data_message r) (message error) in
    if status r =? 401 then "Invalid API key. Please check your configuration."
    else if status r =? 404 then "Content not found."
    else if status r =? 429 then "Too many requests. Please try again later."
    else if status r =? 500 then "Server error. Please try again later."
    else ("Error " ++ num_to_string (status r) ++ ": " ++ show message)%string
| None =>
    if request error
    then "Network error. Please check your internet connection."
    else match js_or truthy_str (message error) (Some "An unexpected error occurred.") with
         | Some s => s
         | None => "An unexpected error occurred."
         end
end.
End Defs.

(** The object [new Error(message)] makes: it has no [response] and no
    [request]. *)
Definition plain_error (m : string) : ErrorObject :=
mkErrorObject None false (Some m).

(** [import.meta.env]: the two keys, each possibly not set. *)
Record Env := mkEnv
  { VITE_TMDB_API_KEY : option string; VITE_OMDB_API_KEY : option string }.

Definition is_set (key : option string) : bool :=
match key with
| Some s => truthy_str s
| None => false
end.

Record KeyValidation := mkKeyValidation
  { tmdb : bool; omdb : bool; both : bool; missing_tmdb : bool; missing_omdb : bool }.

(** [validateApiKeys()] *)
Definition validateApiKeys (env : Env) : KeyValidation :=
let tmdbKey := VITE_TMDB_API_KEY env in
let omdbKey := VITE_OMDB_API_KEY env in
{| tmdb := is_set tmdbKey;
   omdb := is_set omdbKey;
   both := is_set tmdbKey && is_set omdbKey;
   missing_tmdb := negb (is_set tmdbKey);
   missing_omdb := negb (is_set omdbKey) |}.

(** [getApiKeyErrorMessage()]; [missing.join(', ')] is [String.concat]. *)
Definition getApiKeyErrorMessage (env : Env) : option string :=
let validation := validateApiKeys env in
if both validation then None
else
  let missing := [] in
  let missing := if missing_tmdb validation then missing ++ ["TMDB"] else missing in
  let missing := if missing_omdb validation then missing ++ ["OMDB"] else missing in
  Some ("Missing API keys: " ++ String.concat ", " missing
        ++ ". Please add them to your .env file.")%string.

(** [API_CONFIG.TMDB.API_KEY] and [API_CONFIG.OMDB.API_KEY]
    (config/apiConfig.js): [import.meta.env.KEY || ''] *)
Definition configured_key (key : option string) : string :=
match js_or truthy_str key (Some "") with
| Some s => s
| None => ""
end.

(** [ApiService.isConfigured()]: [(tmdb, omdb, both)], read from the
    [apiKey] the two clients took from the configuration. *)
Definition isConfigured (env : Env) : bool * bool * bool :=
let tmdbKey := configured_key (VITE_TMDB_API_KEY env) in
let omdbKey := configured_key (VITE_OMDB_API_KEY env) in
(truthy_str tmdbKey, truthy_str omdbKey, truthy_str tmdbKey && truthy_str omdbKey).

(** [rating >= bound]; a comparison with [NaN] is false. *)
Definition at_least (bound : Z) (rating : JsNum) : bool :=
match rating with
| Num q => Qle_bool (inject_Z bound) q
| NaN => false
end.

(** [getRatingColor(rating)] *)
Definition getRatingColor (rating : JsNum) : string :=
if at_least 8 rating then "text-green-400"
else if at_least 6 rating then "text-yellow-400"
else if at_least 4 rating then "text-orange-400"
else "text-red-400".

(** [getRatingBgColor(rating)] *)
Definition getRatingBgColor (rating : JsNum) : string :=
if at_least 8 rating then "bg-green-600"
else if at_least 6 rating then "bg-yellow-600"
else if at_least 4 rating then "bg-orange-600"
else "bg-red-600".

Section Truncate.
(** [s.trim()] *)
Variable trim : string -> string.

(** [truncateText(text, maxLength = 100)]; [substring(0, maxLength)]
    takes the first [maxLength] characters, none for a negative
    [maxLength] and all of them past the end. *)
Definition truncateText (text : option string) (maxLength : Z) : option string :=
match text with
| None => None
| Some s =>
    if negb (truthy_str s) || (Z.of_nat (String.length s) <=? maxLength)
    then Some s
    else Some (trim (substring 0 (Z.to_nat maxLength) s) ++ "...")%string
end.
End Truncate.
End Helpers.

(** ** [class LoadingManager] (utils/apiHelpers.js) *)

Module LoadingManager.
Record t := mk { loadingStates : JsMap.t bool }.

Definition new : t := {| loadingStates := JsMap.empty bool |}.

(** [setLoading(key, isLoading)] *)
Definition setLoading (m : t) (key : string) (isLoading : bool) : t :=
{| loadingStates := JsMap.set key isLoading (loadingStates m) |}.

(** [isLoading(key)]: [this.loadingStates.get(key) || false] *)
Definition isLoading (m : t) (key : string) : bool :=
match JsMap.get key (loadingStates m) with
| Some b => b
| None => false
end.

(** [clearAll()] *)
Definition clearAll (m : t) : t := {| loadingStates := JsMap.empty bool |}.

Inductive Op :=
| SetLoading (key : string) (isLoading : bool)
| ClearAll.

Definition step (m : t) (o : Op) : t :=
match o with
| SetLoading key b => setLoading m key b
| ClearAll => clearAll m
end.

Definition run (m : t) (ops : list Op) : t := fold_left step ops m.

(** What the calls, read from the last to the first, say about a key:
    the flag of the latest [setLoading] for it after the latest
    [clearAll]. *)
Fixpoint latest (key : string) (rev_ops : list Op) : bool :=
match rev_ops with
| [] => false
| ClearAll :: _ => false
| SetLoading k b :: earlier => if String.eqb k key then b else latest key earlier
end.
End LoadingManager.

(** ** The other lookups of the secondary source (services/omdbApi.js) *)

Module OmdbSearch.

(** An element of [response.data.Search]. *)
Record RawSearchItem := mkRawSearchItem
  { imdbID : option string;
    Title : option string;
    Year : option string;
    Type_ : option string;
    Poster : option string }.

(** [response.data] of a search; [Search] may be missing. *)
Record SearchPayload := mkSearchPayload
  { Response : option string; Search : option (list RawSearchItem) }.

Record SearchResult := mkSearchResult
  { imdbId : option string;
    title : option string;
    year : option string;
    type : option string;
    poster : option string }.

Record SearchParams := mkSearchParams
  { s : string; page : Z; param_type : option string }.

(** [transformSearchResult(item)] *)
Definition transformSearchResult (item : RawSearchItem) : SearchResult :=
{| imdbId := imdbID item;
   title := Title item;
   year := Year item;
   type := Type_ item;
   poster := Omdb.unless_na (Poster item) |}.

Section Client.
Variable js : Js.Builtins.
(** The outcomes of [this.api.get('/', ...)] for a lookup by id and for
    a search. *)
Variable http_id : string -> Res ApiError Omdb.Raw.
Variable http_search : SearchParams -> Res ApiError SearchPayload.

(** [searchByIMDBId(imdbId)] *)
Definition searchByIMDBId (imdbId : string) : Res ApiError (option Omdb.Item) :=
try_catch
  (data <- http_id imdbId ;;
   if Omdb.is_false (Omdb.Response data) then Ok None
   else item <- Omdb.transformOMDBData js data ;; Ok (Some item))
  (fun _ => Ok None).

(** [search(query, page = 1, type = null)]; mapping over a missing
    [Search] throws a [TypeError]. *)
Definition search (query : string) (page : Z) (type : option string)
  : Res ApiError (list SearchResult) :=
try_catch
  (let params :=
     {| s := query; page := page;
        param_type := Omdb.when_truthy truthy_str type |} in
   data <- http_search params ;;
   if Omdb.is_false (Response data) then Ok []
   else match Search data with
        | Some items => Ok (map transformSearchResult items)
        | None => Throw Js.type_error
        end)
  (fun _ => Ok []).
End Client.

(** A rating [transformRatings] can read: one of the three sources it
    knows with a [Value], or any other rating with a [Source]. *)
Definition rating_ok (rating : Omdb.RawRating) : bool :=
if Omdb.is_source rating "Internet Movie Database"
   || Omdb.is_source rating "Rotten Tomatoes"
   || Omdb.is_source rating "Metacritic"
then match Omdb.Value rating with Some _ => true | None => false end
else match Omdb.Source rating with Some _ => true | None => false end.

(** A payload [transformOMDBData] can read. *)
Definition payload_ok (data : Omdb.Raw) : bool :=
forallb rating_ok (match Omdb.Ratings data with Some r => r | None => [] end)
&& match Omdb.raw_imdbVotes data with Some _ => true | None => false end.
End OmdbSearch.

(** ** [ApiService.getContentDetails] (services/apiService.js)

    [this.tmdb] is a collaborator of the service: what its methods
    resolve to, or throw, is an input here. *)

Module Details.

Inductive Request :=
| TmdbMovieDetails (id : Z)
| TmdbTVDetails (id : Z)
| OmdbById (imdbId : string)
| OmdbByTitle (params : Omdb.Params).

(** What [getContentDetails] returns: the record of the primary source,
    merged or as it came. *)
Inductive Details :=
| Unmerged (tmdbData : Tmdb.Item)
| Detailed (m : MergedDetailed.t).

Definition details_id (d : Details) : Z :=
match d with
| Unmerged tmdbData => Tmdb.id (Tmdb.core tmdbData)
| Detailed m => MergedDetailed.id m
end.

Record Outcome := mkOutcome
  { result : Res ApiError Details; requests : list Request }.

Section Defs.
Variable js : Js.Builtins.
Variables getMovieDetails getTVDetails : Z -> Res ApiError Tmdb.Item.
Variable http_id : string -> Res ApiError Omdb.Raw.
Variable http_title : Omdb.Params -> Res ApiError Omdb.Raw.

(** The fallback: the lookup by title and year. *)
Definition by_title (tmdbData : Tmdb.Item) (sent : list Request) : Outcome :=
let sent' := sent ++ [OmdbByTitle (ApiService.params_of tmdbData)] in
match Omdb.searchByTitle js http_title
        (Tmdb.title (Tmdb.core tmdbData))
        (Some (Tmdb.year (Tmdb.core tmdbData)))
        (Omdb.getOMDBType (Tmdb.type (Tmdb.core tmdbData))) with
| Throw e => mkOutcome (Throw e) sent'
| Ok (Some omdbData) =>
    mkOutcome (Ok (Detailed (ApiService.mergeDetailedData tmdbData omdbData))) sent'
| Ok None => mkOutcome (Ok (Unmerged tmdbData)) sent'
end.

(** What follows the answer of the primary source. *)
Definition enrich (tmdbData : Tmdb.Item) (sent : list Request) : Outcome :=
match Tmdb.imdbId tmdbData with
| Some imdbId =>
    if truthy_str imdbId then
      let sent' := sent ++ [OmdbById imdbId] in
      match OmdbSearch.searchByIMDBId js http_id imdbId with
      | Throw e => mkOutcome (Throw e) sent'
      | Ok (Some omdbData) =>
          mkOutcome (Ok (Detailed (ApiService.mergeDetailedData tmdbData omdbData)))
            sent'
      | Ok None => by_title tmdbData sent'
      end
    else by_title tmdbData sent
| None => by_title tmdbData sent
end.

(** [getContentDetails(id, type)]; its [catch] logs and rethrows. *)
Definition getContentDetails (id : Z) (type : string) : Outcome :=
if String.eqb type "movie" then
  match getMovieDetails id with
  | Throw e => mkOutcome (Throw e) [TmdbMovieDetails id]
  | Ok tmdbData => enrich tmdbData [TmdbMovieDetails id]
  end
else if String.eqb type "tv" then
  match getTVDetails id with
  | Throw e => mkOutcome (Throw e) [TmdbTVDetails id]
  | Ok tmdbData => enrich tmdbData [TmdbTVDetails id]
  end
else mkOutcome (Throw (OtherError "Invalid content type")) [].
End Defs.
End Details.

(** ** [ApiService.discoverContent] (services/apiService.js) *)

Module Discover.

Inductive TmdbCall :=
| DiscoverMovies
| DiscoverTV.

Record Outcome := mkOutcome
  { result : option (Res ApiError (list ApiService.Enhanced));
    calls : list TmdbCall }.

Section Defs.
(** The filters are handed on to the primary source as they are. *)
Variable Filters : Type.
Variable js : Js.Builtins.
Variables discoverMovies discoverTV : Filters -> Res ApiError (list Tmdb.Item).
Variable http : nat -> Omdb.Params -> Res ApiError Omdb.Raw.
Variable sched : nat -> nat -> list nat.

Definition wants (type kind : string) : bool :=
String.eqb type "all" || String.eqb type kind.

(** [discoverContent(type = 'all', filters = {})]; the result is [None]
    when the enrichment does not return within [fuel] rounds. *)
Definition discoverContent (fuel : nat) (type : string) (filters : Filters)
  : Outcome :=
let tmdbData := [] in
let after_movies :=
  if wants type "movie" then
    match discoverMovies filters with
    | Throw e => Throw e
    | Ok movies => Ok (tmdbData ++ movies, [DiscoverMovies])
    end
  else Ok (tmdbData, []) in
match after_movies with
| Throw e => mkOutcome (Some (Throw e)) [DiscoverMovies]
| Ok (tmdbData, called) =>
    let after_tv :=
      if wants type "tv" then
        match discoverTV filters with
        | Throw e => Throw e
        | Ok tvShows => Ok (tmdbData ++ tvShows, called ++ [DiscoverTV])
        end
      else Ok (tmdbData, called) in
    match after_tv with
    | Throw e => mkOutcome (Some (Throw e)) (called ++ [DiscoverTV])
    | Ok (tmdbData, called) =>
        mkOutcome (ApiService.enhanceWithOMDBData js http sched fuel tmdbData 5)
          called
    end
end.
End Defs.
End Discover.

(** ** [ApiService.convertGenreIds] (services/apiService.js) *)

Module GenreNames.

(** [genre ? genre.name : 'Unknown'] for the first genre with that id *)
Definition name_of (genres : list Genre.t) (id : Z) : string :=
match find (fun g => Genre.id g =? id) genres with
| Some genre => Genre.name genre
| None => "Unknown"
end.

Record Outcome := mkOutcome
  { names : list string; service : ApiService.t; requests : list string }.

(** [convertGenreIds(genreIds)]: it never throws, an error of
    [getGenres] gives the empty array. [None] when [getGenres] does not
    return. *)
Definition convertGenreIds (svc : ApiService.t)
    (http : string -> Res ApiError Tmdb.GenresPayload) (order : list nat)
    (genreIds : list Z) : option Outcome :=
match ApiService.getGenres svc http order with
| None => None
| Some o =>
    match ApiService.result o with
    | Ok genres =>
        Some (mkOutcome (map (name_of genres) genreIds)
                (ApiService.service o) (ApiService.requests o))
    | Throw _ =>
        Some (mkOutcome [] (ApiService.service o) (ApiService.requests o))
    end
end.
End GenreNames.

(** ** The watchlist (App.jsx) *)

Module Watchlist.

(** The two pieces of state, [watchlist] and [watchedList]. The records
    are those the service returned; only their [id] is read. *)
Record State := mkState
  { watchlist : list ApiService.Enhanced;
    watchedList : list ApiService.Enhanced }.

Definition initial : State := mkState [] [].

(** [list.find(w => w.id === id)], as a truth value *)
Definition listed (id : Z) (l : list ApiService.Enhanced) : bool :=
match find (fun w => ApiService.enhanced_id w =? id) l with
| Some _ => true
| None => false
end.

(** [addToWatchlist(item)] *)
Definition addToWatchlist (st : State) (item : ApiService.Enhanced) : State :=
if negb (listed (ApiService.enhanced_id item) (watchlist st))
then mkState (watchlist st ++ [item]) (watchedList st)
else st.

(** [removeFromWatchlist(id)] *)
Definition removeFromWatchlist (st : State) (id : Z) : State :=
mkState
  (filter (fun item => negb (ApiService.enhanced_id item =? id)) (watchlist st))
  (watchedList st).

(** [markAsWatched(item)]: both setters are called with lists computed
    from the state of the current render. *)
Definition markAsWatched (st : State) (item : ApiService.Enhanced) : State :=
if negb (listed (ApiService.enhanced_id item) (watchedList st))
then mkState
       (watchlist (removeFromWatchlist st (ApiService.enhanced_id item)))
       (watchedList st ++ [item])
else st.

Inductive Action :=
| Add (item : ApiService.Enhanced)
| Remove (id : Z)
| Mark (item : ApiService.Enhanced).

Definition step (st : State) (a : Action) : State :=
match a with
| Add item => addToWatchlist st item
| Remove id => removeFromWatchlist st id
| Mark item => markAsWatched st item
end.

Definition run (st : State) (actions : list Action) : State :=
fold_left step actions st.

(** The buttons the page shows: the add button for a record in neither
    list, the mark button for a record of the watchlist, the remove
    button beside each record of the watchlist. *)
Definition offered (st : State) (a : Action) : bool :=
match a with
| Add item =>
    negb (listed (ApiService.enhanced_id item) (watchlist st))
    && negb (listed (ApiService.enhanced_id item) (watchedList st))
| Remove id => listed id (watchlist st)
| Mark item => listed (ApiService.enhanced_id item) (watchlist st)
end.

(** A sequence of clicks on buttons that are on the page at the time. *)
Fixpoint all_offered (st : State) (actions : list Action) : bool :=
match actions with
| [] => true
| a :: rest => offered st a && all_offered (step st a) rest
end.

Definition ids (l : list ApiService.Enhanced) : list Z :=
map ApiService.enhanced_id l.
End Watchlist.

(** ** Decimal numerals

    [String(n)] for an integer [n], and a reader of such numerals that
    stands in for [parseInt] where a property is run on concrete pages. *)

From Stdlib Require DecimalString DecimalZ.

Module Numerals.
Definition num_to_string (n : Z) : string :=
DecimalString.NilZero.string_of_int (Z.to_int n).

Definition read (s : string) : JsNum :=
match DecimalString.NilZero.int_of_string s with
| Some d => Num (inject_Z (Z.of_int d))
| None => NaN
end.

Definition js : Js.Builtins :=
{| Js.parseFloat := read;
   Js.parseInt := read;
   Js.split := fun _ s => [s];
   Js.remove_commas := fun s => s;
   Js.remove_percent := fun s => s;
   Js.source_key := fun s => s |}.
End Numerals.

(** ** Further sample data *)

Module Outage.
(** A primary source that answers every request with status 401. *)
Definition unauthorized (endpoint : string) : Res ApiError Tmdb.GenresPayload :=
Throw (HttpError 401).
End Outage.

(** * Properties *)

(** ** Insertion-ordered maps *)

Section JsMapFacts.
Variable V : Type.
Implicit Types (m : JsMap.t V) (k : string) (v : V).

Lemma JsMap_get_set_eq k v m : JsMap.get k (JsMap.set k v m) = Some v.
Proof.
  induction m as [|[k' v'] m IH]; simpl.
  - now rewrite String.eqb_refl.
  - destruct (String.eqb k' k) eqn:Hk; simpl.
    + now rewrite String.eqb_refl.
    + now rewrite Hk.
Qed.

Lemma JsMap_get_set_ne k k' v m :
  k <> k' -> JsMap.get k' (JsMap.set k v m) = JsMap.get k' m.
Proof.
  intros Hne. induction m as [|[k1 v1] m IH]; simpl.
  - apply String.eqb_neq in Hne. now rewrite Hne.
  - destruct (String.eqb k1 k) eqn:Hk; simpl.
    + apply String.eqb_eq in Hk. subst k1.
      apply String.eqb_neq in Hne. now rewrite Hne.
    + now rewrite IH.
Qed.

Lemma JsMap_get_delete_eq k m : JsMap.get k (JsMap.delete k m) = None.
Proof.
  induction m as [|[k' v'] m IH]; simpl; [reflexivity|].
  destruct (String.eqb k' k) eqn:Hk; simpl; [exact IH|].
  now rewrite Hk.
Qed.

Lemma JsMap_get_delete_ne k k' m :
  k <> k' -> JsMap.get k' (JsMap.delete k m) = JsMap.get k' m.
Proof.
  intros Hne. induction m as [|[k1 v1] m IH]; simpl; [reflexivity|].
  destruct (String.eqb k1 k) eqn:Hk; simpl.
  - apply String.eqb_eq in Hk. subst k1.
    apply String.eqb_neq in Hne. now rewrite Hne.
  - now rewrite IH.
Qed.

Lemma JsMap_get_None_notin k m :
  JsMap.get k m = None <-> ~ In k (JsMap.keys m).
Proof.
  induction m as [|[k' v'] m IH]; simpl.
  - tauto.
  - destruct (String.eqb k' k) eqn:Hk.
    + apply String.eqb_eq in Hk. split; [discriminate | tauto].
    + apply String.eqb_neq in Hk. rewrite IH. tauto.
Qed.

Lemma JsMap_delete_notin k m :
  ~ In k (JsMap.keys m) -> JsMap.delete k m = m.
Proof.
  induction m as [|[k' v'] m IH]; simpl; intros Hn; [reflexivity|].
  destruct (String.eqb k' k) eqn:Hk; simpl.
  - apply String.eqb_eq in Hk. tauto.
  - f_equal. apply IH. tauto.
Qed.

(** Deleting the first key of a map leaves exactly the rest. *)
Lemma JsMap_delete_first k v m :
  JsMap.wf ((k, v) :: m) -> JsMap.delete k ((k, v) :: m) = m.
Proof.
  unfold JsMap.wf. simpl. intros Hwf. inversion Hwf; subst.
  rewrite String.eqb_refl. simpl. now apply JsMap_delete_notin.
Qed.

Lemma JsMap_keys_set k v m :
  JsMap.keys (JsMap.set k v m)
  = if JsMap.has k m then JsMap.keys m else JsMap.keys m ++ [k].
Proof.
  unfold JsMap.has. induction m as [|[k' v'] m IH]; simpl; [reflexivity|].
  destruct (String.eqb k' k) eqn:Hk; simpl.
  - apply String.eqb_eq in Hk. now subst.
  - rewrite IH. now destruct (JsMap.get k m).
Qed.

Lemma JsMap_length_set k v m :
  (List.length (JsMap.set k v m) <= S (List.length m))%nat.
Proof.
  induction m as [|[k' v'] m IH]; simpl; [lia|].
  destruct (String.eqb k' k); simpl; lia.
Qed.

Lemma JsMap_length_delete k m :
  (List.length (JsMap.delete k m) <= List.length m)%nat.
Proof. apply filter_length_le. Qed.

Lemma JsMap_keys_delete k m :
  JsMap.keys (JsMap.delete k m)
  = filter (fun k' => negb (String.eqb k' k)) (JsMap.keys m).
Proof.
  induction m as [|[k' v'] m IH]; simpl; [reflexivity|].
  destruct (String.eqb k' k); simpl; now rewrite IH.
Qed.

Lemma JsMap_wf_delete k m : JsMap.wf m -> JsMap.wf (JsMap.delete k m).
Proof.
  unfold JsMap.wf. rewrite JsMap_keys_delete. apply NoDup_filter.
Qed.

Lemma JsMap_wf_set k v m : JsMap.wf m -> JsMap.wf (JsMap.set k v m).
Proof.
  unfold JsMap.wf. rewrite JsMap_keys_set. unfold JsMap.has.
  destruct (JsMap.get k m) eqn:Hg; [tauto|].
  intros Hnd. apply NoDup_app; [assumption | repeat constructor; simpl; tauto |].
  intros x Hx [Hk|[]]. subst x.
  now apply JsMap_get_None_notin in Hg.
Qed.
End JsMapFacts.

(** ** The response cache *)

Section ApiCacheFacts.
Variable Data : Type.
Implicit Types (c : ApiCache.t Data) (key : string) (d : Data).

(** The store of a cache stays a well-formed [Map]. *)
Lemma ApiCache_wf_step c o :
  JsMap.wf (ApiCache.cache c) -> JsMap.wf (ApiCache.cache (ApiCache.step c o)).
Proof.
  intros Hwf. destruct o as [key now|key d now| |]; simpl; try assumption.
  - unfold ApiCache.get. destruct (JsMap.get key (ApiCache.cache c)); [|assumption].
    destruct (now >? ApiCache.expiry i); simpl; [|assumption].
    now apply JsMap_wf_delete.
  - apply JsMap_wf_set.
    destruct (JsMap.size (ApiCache.cache c) >=? ApiCache.maxSize c); [|assumption].
    destruct (JsMap.first_key (ApiCache.cache c)); [|assumption].
    now apply JsMap_wf_delete.
  - constructor.
Qed.

Lemma ApiCache_wf_run ops c :
  JsMap.wf (ApiCache.cache c) -> JsMap.wf (ApiCache.cache (ApiCache.run c ops)).
Proof.
  revert c. induction ops as [|o ops IH]; intros c Hwf; simpl; [assumption|].
  apply IH. now apply ApiCache_wf_step.
Qed.

(** A read that returns a value leaves the cache as it was. *)
Lemma ApiCache_get_hit c key now d :
  fst (ApiCache.get c key now) = Some d -> snd (ApiCache.get c key now) = c.
Proof.
  unfold ApiCache.get. destruct (JsMap.get key (ApiCache.cache c)); [|discriminate].
  destruct (now >? ApiCache.expiry i); [discriminate | reflexivity].
Qed.

(** A read of one key never touches the entry of another. *)
Lemma ApiCache_get_other c key key' now :
  key' <> key ->
  JsMap.get key (ApiCache.cache (snd (ApiCache.get c key' now)))
  = JsMap.get key (ApiCache.cache c).
Proof.
  intros Hne. unfold ApiCache.get.
  destruct (JsMap.get key' (ApiCache.cache c)); [|reflexivity].
  destruct (now >? ApiCache.expiry i); simpl; [|reflexivity].
  now apply JsMap_get_delete_ne.
Qed.

Lemma ApiCache_maxSize_step c o :
  ApiCache.maxSize (ApiCache.step c o) = ApiCache.maxSize c.
Proof.
  destruct o as [key now|key d now| |]; simpl; try reflexivity.
  unfold ApiCache.get. destruct (JsMap.get key (ApiCache.cache c)); [|reflexivity].
  now destruct (now >? ApiCache.expiry i).
Qed.

Lemma ApiCache_size_step c o :
  1 <= ApiCache.maxSize c ->
  ApiCache.size c <= ApiCache.maxSize c ->
  ApiCache.size (ApiCache.step c o) <= ApiCache.maxSize c.
Proof.
  unfold ApiCache.size, JsMap.size. intros Hpos Hle.
  destruct o as [key now|key d now| |]; simpl; try assumption; try lia.
  - unfold ApiCache.get. destruct (JsMap.get key (ApiCache.cache c)); [|assumption].
    destruct (now >? ApiCache.expiry i); simpl; [|assumption].
    pose proof (JsMap_length_delete key (ApiCache.cache c)). lia.
  - unfold JsMap.size.
    match goal with |- context [JsMap.set ?k ?v ?s] =>
      pose proof (JsMap_length_set k v s) as Hset end.
    destruct (Z.of_nat (List.length (ApiCache.cache c)) >=? ApiCache.maxSize c) eqn:Hfull.
    + destruct (ApiCache.cache c) as [|[k0 e0] rest] eqn:Hc; simpl in *; [lia|].
      rewrite String.eqb_refl in *. simpl in *.
      pose proof (JsMap_length_delete k0 rest). unfold JsMap.delete in *. lia.
    + lia.
Qed.
End ApiCacheFacts.

(** C10. A cache built with [maxSize >= 1] never holds more than
    [maxSize] entries, whatever sequence of [get], [set], [clear] and
    [size] calls it serves, on new or on existing keys and at whatever
    clock readings. *)
Theorem ApiCache_size_bounded :
  forall (Data : Type) (maxSize ttl : Z) (ops : list (ApiCache.Op Data)),
    1 <= maxSize ->
    ApiCache.size (ApiCache.run (ApiCache.new Data maxSize ttl) ops) <= maxSize.
Proof.
  intros Data maxSize ttl ops Hpos.
  assert (Hinv : forall c,
            ApiCache.maxSize c = maxSize ->
            ApiCache.size c <= maxSize ->
            ApiCache.size (ApiCache.run c ops) <= maxSize).
  { induction ops as [|o ops IH]; intros c Hm Hle; simpl; [assumption|].
    apply IH.
    - now rewrite ApiCache_maxSize_step.
    - rewrite <- Hm. apply ApiCache_size_step; lia. }
  apply Hinv; [reflexivity|]. unfold ApiCache.size, JsMap.size. simpl. lia.
Qed.

Lemma ApiCache_size_bounded_witness :
  ApiCache.size
    (ApiCache.run (ApiCache.new nat 2 1000)
       [ApiCache.OpSet "A" 1%nat 0; ApiCache.OpSet "B" 2%nat 1;
        ApiCache.OpGet nat "A" 5; ApiCache.OpSet "A" 3%nat 6;
        ApiCache.OpSet "C" 4%nat 7; ApiCache.OpSize nat;
        ApiCache.OpSet "D" 5%nat 5000; ApiCache.OpGet nat "C" 9000]) <= 2.
Proof.
  apply ApiCache_size_bounded. lia.
Defined.

(** C5. An entry stored at time [t] by a cache with time-to-live [T] is
    returned by a [get] at [t + T - 1] and leaves the cache as it was; a
    [get] at [t + T + 1] misses and removes the entry from the store at
    that moment. Until then the entry stays in the store (a read of
    another key does not sweep it out), whatever the time. *)
Theorem ApiCache_ttl_boundary :
  forall (Data : Type) (c : ApiCache.t Data) (key : string) (d : Data) (t : Z),
    let T := ApiCache.ttl c in
    let c1 := ApiCache.set c key d t in
    ApiCache.get c1 key (t + T - 1) = (Some d, c1)
    /\ fst (ApiCache.get c1 key (t + T + 1)) = None
    /\ ApiCache.cache (snd (ApiCache.get c1 key (t + T + 1)))
       = JsMap.delete key (ApiCache.cache c1)
    /\ JsMap.get key (ApiCache.cache (snd (ApiCache.get c1 key (t + T + 1)))) = None
    /\ JsMap.get key (ApiCache.cache c1)
       = Some {| ApiCache.data := d; ApiCache.expiry := t + T |}
    /\ (forall key' now, key' <> key ->
          JsMap.get key (ApiCache.cache (snd (ApiCache.get c1 key' now)))
          = JsMap.get key (ApiCache.cache c1)).
Proof.
  intros Data c key d t T c1.
  assert (Hin : JsMap.get key (ApiCache.cache c1)
                = Some {| ApiCache.data := d; ApiCache.expiry := t + T |}).
  { unfold c1, ApiCache.set. simpl. apply JsMap_get_set_eq. }
  assert (Hlate : ApiCache.get c1 key (t + T + 1)
                  = (None, ApiCache.with_cache c1 (JsMap.delete key (ApiCache.cache c1)))).
  { unfold ApiCache.get. rewrite Hin. simpl.
    replace (t + T + 1 >? t + T) with true; [reflexivity|].
    symmetry. apply Z.gtb_lt. lia. }
  repeat split.
  - unfold ApiCache.get. rewrite Hin. simpl.
    replace (t + T - 1 >? t + T) with false; [reflexivity|].
    symmetry. rewrite Z.gtb_ltb. apply Z.ltb_ge. lia.
  - now rewrite Hlate.
  - now rewrite Hlate.
  - rewrite Hlate. simpl. apply JsMap_get_delete_eq.
  - exact Hin.
  - intros key' now Hne. now apply ApiCache_get_other.
Qed.

(** A full store loses its first entry, and only that one, to a [set]. *)
Lemma ApiCache_set_full (Data : Type) (c : ApiCache.t Data) k0 e0 rest key d now :
  JsMap.wf (ApiCache.cache c) ->
  ApiCache.cache c = (k0, e0) :: rest ->
  ApiCache.size c = ApiCache.maxSize c ->
  ApiCache.cache (ApiCache.set c key d now)
  = JsMap.set key {| ApiCache.data := d; ApiCache.expiry := now + ApiCache.ttl c |} rest.
Proof.
  intros Hwf Hc Hsize.
  unfold ApiCache.set, ApiCache.with_cache. cbn [ApiCache.cache].
  unfold ApiCache.size in Hsize.
  rewrite Hsize, Z.geb_leb, Z.leb_refl. rewrite Hc. cbn [JsMap.first_key].
  rewrite JsMap_delete_first; [reflexivity | now rewrite <- Hc].
Qed.

(** While there is room, new keys line up in the order of their
    insertion. *)
Lemma ApiCache_run_sets_keys (Data : Type) (entries : list (string * Data * Z)) :
  forall c : ApiCache.t Data,
    ApiCache.size c + Z.of_nat (List.length entries) <= ApiCache.maxSize c ->
    NoDup (JsMap.keys (ApiCache.cache c) ++ map (fun e => fst (fst e)) entries) ->
    JsMap.keys (ApiCache.cache (ApiCache.run c (ApiCache.sets entries)))
    = JsMap.keys (ApiCache.cache c) ++ map (fun e => fst (fst e)) entries
    /\ ApiCache.maxSize (ApiCache.run c (ApiCache.sets entries)) = ApiCache.maxSize c.
Proof.
  induction entries as [|[[k d] t] entries IH]; intros c Hroom Hnd.
  - simpl. now rewrite app_nil_r.
  - cbn [ApiCache.sets map ApiCache.run fold_left ApiCache.step fst snd List.length]
      in *.
    fold (ApiCache.sets entries). fold (ApiCache.run (ApiCache.set c k d t) (ApiCache.sets entries)).
    assert (Hnew : JsMap.has k (ApiCache.cache c) = false).
    { unfold JsMap.has.
      destruct (JsMap.get k (ApiCache.cache c)) eqn:Hg; [|reflexivity].
      exfalso. apply NoDup_remove_2 in Hnd. apply Hnd, in_or_app. left.
      destruct (in_dec string_dec k (JsMap.keys (ApiCache.cache c))) as [Hin|Hout];
        [assumption|].
      apply JsMap_get_None_notin in Hout. congruence. }
    assert (Hkeys : JsMap.keys (ApiCache.cache (ApiCache.set c k d t))
                    = JsMap.keys (ApiCache.cache c) ++ [k]).
    { unfold ApiCache.set, ApiCache.with_cache. cbn [ApiCache.cache].
      unfold ApiCache.size in Hroom.
      replace (JsMap.size (ApiCache.cache c) >=? ApiCache.maxSize c) with false
        by (symmetry; rewrite Z.geb_leb; apply Z.leb_gt; lia).
      now rewrite JsMap_keys_set, Hnew. }
    assert (Hlen : List.length (ApiCache.cache (ApiCache.set c k d t))
                   = S (List.length (ApiCache.cache c))).
    { apply (f_equal (@List.length string)) in Hkeys. unfold JsMap.keys in Hkeys.
      rewrite length_app, !length_map in Hkeys. cbn [List.length] in Hkeys. lia. }
    destruct (IH (ApiCache.set c k d t)) as [Hrun Hmax].
    + unfold ApiCache.size, JsMap.size in *. rewrite Hlen.
      change (ApiCache.maxSize (ApiCache.set c k d t)) with (ApiCache.maxSize c). lia.
    + rewrite Hkeys, <- app_assoc. exact Hnd.
    + rewrite Hrun, Hmax, Hkeys, <- app_assoc. split; reflexivity.
Qed.

(** C4. When [set] is called on a store that holds exactly [maxSize]
    entries, the entry at the front of the store, the one whose key was
    inserted first, is the one entry evicted, and then the new entry is
    set: every other entry keeps its value and its place in the order.
    Reads do not change that order: a read that returns a value leaves
    the store as it was, and a read that misses removes at most the key
    it asked for. So a cache filled with distinct keys [k1, ..., kn],
    [n = maxSize], holds [k2, ..., kn, key] after a further key is set.
    With [maxSize = 2], after inserting A, B and C (and reading A in
    between), A is gone and B and C are still returned. *)
Theorem ApiCache_set_evicts_earliest :
  forall (Data : Type) (c : ApiCache.t Data) (k0 : string)
         (e0 : ApiCache.Item Data) (rest : JsMap.t (ApiCache.Item Data))
         (key : string) (d : Data) (now : Z),
    JsMap.wf (ApiCache.cache c) ->
    ApiCache.cache c = (k0, e0) :: rest ->
    ApiCache.size c = ApiCache.maxSize c ->
    let entry := {| ApiCache.data := d; ApiCache.expiry := now + ApiCache.ttl c |} in
    let c' := ApiCache.set c key d now in
    ApiCache.cache c' = JsMap.set key entry rest
    /\ (key <> k0 -> JsMap.get k0 (ApiCache.cache c') = None)
    /\ (forall k, k <> k0 -> k <> key ->
          JsMap.get k (ApiCache.cache c') = JsMap.get k (ApiCache.cache c))
    /\ JsMap.get key (ApiCache.cache c') = Some entry
    /\ JsMap.keys (ApiCache.cache c')
       = (if JsMap.has key rest then JsMap.keys rest else JsMap.keys rest ++ [key])
    /\ (forall k t v, fst (ApiCache.get c k t) = Some v -> snd (ApiCache.get c k t) = c)
    /\ (forall k t,
          ApiCache.cache (snd (ApiCache.get c k t)) = ApiCache.cache c
          \/ ApiCache.cache (snd (ApiCache.get c k t)) = JsMap.delete k (ApiCache.cache c))
    /\ (forall (maxSize ttl : Z) (first : string * Data * Z)
               (others : list (string * Data * Z)),
          Z.of_nat (List.length (first :: others)) = maxSize ->
          NoDup (map (fun e => fst (fst e)) (first :: others) ++ [key]) ->
          JsMap.keys
            (ApiCache.cache
               (ApiCache.set
                  (ApiCache.run (ApiCache.new Data maxSize ttl)
                     (ApiCache.sets (first :: others)))
                  key d now))
          = map (fun e => fst (fst e)) others ++ [key])
    /\ (forall (ttl t1 t2 t3 t4 t5 : Z) (dA dB dC : Data),
          t3 <= t1 + ttl -> t5 <= t2 + ttl -> t5 <= t4 + ttl ->
          let cAB := ApiCache.set (ApiCache.set (ApiCache.new Data 2 ttl) "A" dA t1) "B" dB t2 in
          let cBC := ApiCache.set (snd (ApiCache.get cAB "A" t3)) "C" dC t4 in
          fst (ApiCache.get cAB "A" t3) = Some dA
          /\ JsMap.keys (ApiCache.cache cBC) = ["B"; "C"]
          /\ ApiCache.get cBC "A" t5 = (None, cBC)
          /\ ApiCache.get cBC "B" t5 = (Some dB, cBC)
          /\ ApiCache.get cBC "C" t5 = (Some dC, cBC)).
Proof.
  intros Data c k0 e0 rest key d now Hwf Hc Hsize entry c'.
  pose proof (@ApiCache_set_full Data c k0 e0 rest key d now Hwf Hc Hsize) as Hstore.
  fold c' entry in Hstore.
  assert (Hk0 : JsMap.get k0 rest = None).
  { apply JsMap_get_None_notin. unfold JsMap.wf in Hwf. rewrite Hc in Hwf.
    simpl in Hwf. now inversion Hwf. }
  split; [exact Hstore|].
  split; [intros Hne; rewrite Hstore, JsMap_get_set_ne; auto|].
  split.
  { intros k Hk0' Hkey. rewrite Hstore, JsMap_get_set_ne by auto.
    rewrite Hc. simpl. apply not_eq_sym, String.eqb_neq in Hk0'. now rewrite Hk0'. }
  split; [rewrite Hstore; apply JsMap_get_set_eq|].
  split; [rewrite Hstore; apply JsMap_keys_set|].
  split; [intros k t v; apply ApiCache_get_hit|].
  split.
  { intros k t. unfold ApiCache.get.
    destruct (JsMap.get k (ApiCache.cache c)) as [item|]; [|now left].
    destruct (t >? ApiCache.expiry item); simpl; auto. }
  split.
  { intros maxSize ttl first others Hfull Hnd.
    set (filled := ApiCache.run (ApiCache.new Data maxSize ttl)
                     (ApiCache.sets (first :: others))).
    destruct (@ApiCache_run_sets_keys Data (first :: others)
                (ApiCache.new Data maxSize ttl)) as [Hkeys Hmax].
    { unfold ApiCache.size, JsMap.size. simpl ApiCache.cache. simpl ApiCache.maxSize.
      simpl List.length at 1. lia. }
    { simpl ApiCache.cache. simpl JsMap.keys. simpl app at 1.
      exact (NoDup_app_remove_r _ _ Hnd). }
    fold filled in Hkeys, Hmax. simpl JsMap.keys in Hkeys. simpl app in Hkeys.
    destruct (ApiCache.cache filled) as [|[k1 e1] rest1] eqn:Hfilled;
      [discriminate|].
    injection Hkeys as Hk1 Hrest1.
    assert (Hwf1 : JsMap.wf (ApiCache.cache filled)).
    { apply ApiCache_wf_run. constructor. }
    rewrite (@ApiCache_set_full Data filled k1 e1 rest1 key d now Hwf1 Hfilled).
    - rewrite JsMap_keys_set. fold (JsMap.keys rest1). rewrite Hrest1.
      assert (Hnew : JsMap.has key rest1 = false).
      { unfold JsMap.has. destruct (JsMap.get key rest1) eqn:Hg; [|reflexivity].
        exfalso. simpl in Hnd. apply NoDup_cons_iff in Hnd. destruct Hnd as [_ Hnd].
        apply NoDup_remove_2 in Hnd. rewrite app_nil_r in Hnd. apply Hnd.
        rewrite <- Hrest1.
        destruct (in_dec string_dec key (map fst rest1)) as [Hin|Hout];
          [assumption|].
        apply JsMap_get_None_notin in Hout. congruence. }
      now rewrite Hnew.
    - unfold ApiCache.size, JsMap.size. rewrite Hmax. simpl ApiCache.maxSize.
      rewrite <- Hfull, Hfilled. unfold JsMap.keys in Hrest1. cbn [List.length].
      rewrite <- (length_map fst rest1), Hrest1. now rewrite length_map. }
  intros ttl t1 t2 t3 t4 t5 dA dB dC H1 H2 H3 cAB cBC.
  assert (Hlive : forall t t', t <= t' -> (t >? t') = false)
    by (intros; rewrite Z.gtb_ltb; apply Z.ltb_ge; lia).
  unfold cBC, cAB, ApiCache.get; simpl.
  rewrite (Hlive _ _ H1). simpl. rewrite (Hlive _ _ H2), (Hlive _ _ H3).
  repeat split.
Qed.

Lemma ApiCache_set_evicts_earliest_witness :
  let c := ApiCache.mk
             [("A", ApiCache.mkItem 1%nat 100); ("B", ApiCache.mkItem 2%nat 101)]
             2 100 in
  JsMap.get "A" (ApiCache.cache (ApiCache.set c "C" 3%nat 7)) = None
  /\ JsMap.keys (ApiCache.cache (ApiCache.set c "C" 3%nat 7)) = ["B"; "C"].
Proof.
  intros c.
  assert (Hwf : JsMap.wf (ApiCache.cache c)).
  { unfold JsMap.wf. simpl. repeat constructor; simpl; intuition discriminate. }
  destruct (@ApiCache_set_evicts_earliest nat c "A" (ApiCache.mkItem 1%nat 100)
              [("B", ApiCache.mkItem 2%nat 101)] "C" 3%nat 7
              Hwf eq_refl eq_refl) as (_ & Hgone & _ & _ & Hkeys & _).
  split.
  - apply Hgone. discriminate.
  - exact Hkeys.
Defined.

(** ** Retrying a failed call *)

Section RetryFacts.
Variables W E A : Type.
Variable apiCall : W -> Res E A * W.
Implicit Types (w : W) (i : Z) (tr : list Retry.Event).

(** The loop runs at most [maxRetries - i] more times. *)
Lemma retry_loop_total maxRetries delay fuel :
  forall i w tr,
    (Z.to_nat (maxRetries - i) < fuel)%nat ->
    exists o, Retry.retry_loop apiCall fuel maxRetries delay i w tr = Some o.
Proof.
  induction fuel as [|fuel IH]; intros i w tr Hfuel; [lia|].
  simpl. destruct (i <? maxRetries) eqn:Hi; [|eauto].
  apply Z.ltb_lt in Hi.
  destruct (apiCall w) as [[a|e] w']; [eauto|].
  destruct (i =? maxRetries - 1); [eauto|].
  apply IH. lia.
Qed.

(** The loop only ever adds to the trace, and each round it enters
    starts with a call. *)
Lemma retry_loop_trace_prefix maxRetries delay fuel :
  forall i w tr o,
    Retry.retry_loop apiCall fuel maxRetries delay i w tr = Some o ->
    exists rest, Retry.trace o = tr ++ rest.
Proof.
  induction fuel as [|fuel IH]; intros i w tr o; simpl; [discriminate|].
  destruct (i <? maxRetries).
  - destruct (apiCall w) as [[a|e] w'].
    + intros [= <-]. simpl. eauto.
    + destruct (i =? maxRetries - 1).
      * intros [= <-]. simpl. eauto.
      * intros Hrun. destruct (IH _ _ _ _ Hrun) as [rest ->].
        rewrite <- app_assoc. eauto.
  - intros [= <-]. exists []. simpl. now rewrite app_nil_r.
Qed.

Lemma retry_loop_first_call maxRetries delay fuel i w tr o :
  Retry.retry_loop apiCall fuel maxRetries delay i w tr = Some o ->
  i < maxRetries ->
  exists rest, Retry.trace o = tr ++ Retry.Called :: rest.
Proof.
  destruct fuel as [|fuel]; simpl; [discriminate|]. intros Hrun Hi.
  apply Z.ltb_lt in Hi. rewrite Hi in Hrun.
  destruct (apiCall w) as [[a|e] w'].
  - injection Hrun as <-. simpl. eauto.
  - destruct (i =? maxRetries - 1).
    + injection Hrun as <-. simpl. eauto.
    + destruct (@retry_loop_trace_prefix maxRetries delay _ _ _ _ o Hrun) as [rest ->].
      rewrite <- app_assoc. simpl. eauto.
Qed.

(** A failed attempt that is not the last one is followed by a wait
    and a further attempt, whatever the error. *)
Lemma retryApiCall_second_attempt maxRetries delay w (e : E) :
  2 <= maxRetries ->
  fst (apiCall w) = Throw e ->
  exists o rest,
    Retry.retryApiCall apiCall maxRetries delay w = Some o
    /\ Retry.trace o
       = Retry.Called :: Retry.Waited (delay * 1) :: Retry.Called :: rest.
Proof.
  intros Hmax Hfail. unfold Retry.retryApiCall. cbn [Retry.retry_loop].
  replace (0 <? maxRetries) with true by (symmetry; apply Z.ltb_lt; lia).
  destruct (apiCall w) as [[a|e'] w']; simpl in Hfail; [discriminate|].
  replace (0 =? maxRetries - 1) with false by (symmetry; apply Z.eqb_neq; lia).
  destruct (@retry_loop_total maxRetries delay (Z.to_nat maxRetries) (0 + 1) w'
              ([] ++ [Retry.Called; Retry.Waited (delay * (0 + 1))])) as [o Hrun];
    [lia|].
  exists o.
  destruct (@retry_loop_first_call maxRetries delay _ _ _ _ o Hrun) as [rest Htrace];
    [lia|].
  exists rest. split; [exact Hrun|]. rewrite Htrace. reflexivity.
Qed.

Lemma retryApiCall_total maxRetries delay w :
  exists o, Retry.retryApiCall apiCall maxRetries delay w = Some o.
Proof.
  unfold Retry.retryApiCall. apply retry_loop_total.
  rewrite Z.sub_0_r. lia.
Qed.

(** A call that fails on every attempt: [n] attempts are left. *)
Lemma retry_loop_all_fail (err : W -> E) maxRetries delay :
  (forall w, fst (apiCall w) = Throw (err w)) ->
  forall n fuel i w tr,
    maxRetries - i = Z.of_nat (S n) ->
    (S n <= fuel)%nat ->
    Retry.retry_loop apiCall fuel maxRetries delay i w tr
    = Some (Retry.mkOutcome
              (Throw (err (Retry.world_after apiCall n w)))
              (snd (apiCall (Retry.world_after apiCall n w)))
              (tr ++ Retry.linear_backoff (S n) delay (i + 1))).
Proof.
  intros Hfail. induction n as [|n IH]; intros fuel i w tr Hi Hfuel;
    (destruct fuel as [|fuel]; [lia|]); simpl Retry.retry_loop.
  - replace (i <? maxRetries) with true by (symmetry; apply Z.ltb_lt; lia).
    pose proof (Hfail w) as Hw.
    destruct (apiCall w) as [[a|e] w'] eqn:Hcall; simpl in Hw; [discriminate|].
    replace (i =? maxRetries - 1) with true by (symmetry; apply Z.eqb_eq; lia).
    unfold Retry.world_after. simpl. rewrite Hcall. simpl.
    now inversion Hw.
  - replace (i <? maxRetries) with true by (symmetry; apply Z.ltb_lt; lia).
    pose proof (Hfail w) as Hw.
    destruct (apiCall w) as [[a|e] w'] eqn:Hcall; simpl in Hw; [discriminate|].
    replace (i =? maxRetries - 1) with false by (symmetry; apply Z.eqb_neq; lia).
    rewrite (IH fuel (i + 1) w') by lia.
    unfold Retry.world_after. rewrite (Nat.iter_succ_r n). rewrite Hcall. simpl snd.
    rewrite <- app_assoc. reflexivity.
Qed.

(** A call that fails on each of the [S n] attempts that are left, in
    the worlds these attempts run in. *)
Lemma retry_loop_fails_reached maxRetries delay :
  forall n fuel i w tr,
    maxRetries - i = Z.of_nat (S n) ->
    (S n <= fuel)%nat ->
    (forall k, (k <= n)%nat ->
       exists e, fst (apiCall (Retry.world_after apiCall k w)) = Throw e) ->
    exists e,
      fst (apiCall (Retry.world_after apiCall n w)) = Throw e
      /\ Retry.retry_loop apiCall fuel maxRetries delay i w tr
         = Some (Retry.mkOutcome (Throw e)
                   (snd (apiCall (Retry.world_after apiCall n w)))
                   (tr ++ Retry.linear_backoff (S n) delay (i + 1))).
Proof.
  induction n as [|n IH]; intros fuel i w tr Hi Hfuel Hfail;
    (destruct fuel as [|fuel]; [lia|]); simpl Retry.retry_loop.
  - replace (i <? maxRetries) with true by (symmetry; apply Z.ltb_lt; lia).
    destruct (Hfail 0%nat) as [e He]; [lia|].
    unfold Retry.world_after in *. simpl in *.
    destruct (apiCall w) as [[a|e'] w'] eqn:Hcall; simpl in He; [discriminate|].
    injection He as ->.
    replace (i =? maxRetries - 1) with true by (symmetry; apply Z.eqb_eq; lia).
    exists e. split; reflexivity.
  - replace (i <? maxRetries) with true by (symmetry; apply Z.ltb_lt; lia).
    destruct (Hfail 0%nat) as [e0 He0]; [lia|].
    unfold Retry.world_after in He0. simpl in He0.
    destruct (apiCall w) as [[a|e'] w'] eqn:Hcall; simpl in He0; [discriminate|].
    replace (i =? maxRetries - 1) with false by (symmetry; apply Z.eqb_neq; lia).
    assert (Hshift : forall k, Retry.world_after apiCall (S k) w
                               = Retry.world_after apiCall k w').
    { intros k. unfold Retry.world_after. rewrite Nat.iter_succ_r. now rewrite Hcall. }
    destruct (IH fuel (i + 1) w'
                (tr ++ [Retry.Called; Retry.Waited (delay * (i + 1))]))
      as (e & He & Hrun); [lia | lia | |].
    + intros k Hk. rewrite <- Hshift. apply Hfail. lia.
    + exists e. rewrite Hshift. split; [exact He|].
      rewrite Hrun, <- app_assoc. reflexivity.
Qed.

Lemma linear_backoff_attempts n delay k :
  Retry.attempts (Retry.linear_backoff n delay k) = n.
Proof.
  revert k. induction n as [|n IH]; intros k; [reflexivity|].
  destruct n as [|n]; [reflexivity|].
  specialize (IH (k + 1)). unfold Retry.attempts in *.
  change (Retry.linear_backoff (S (S n)) delay k)
    with (Retry.Called :: Retry.Waited (delay * k)
            :: Retry.linear_backoff (S n) delay (k + 1)).
  cbn [filter List.length]. now rewrite IH.
Qed.

Lemma linear_backoff_waits n delay k :
  Retry.waits (Retry.linear_backoff (S n) delay k)
  = map (fun j => delay * (k + Z.of_nat j)) (seq 0 n).
Proof.
  revert k. induction n as [|n IH]; intros k; [reflexivity|].
  change (Retry.linear_backoff (S (S n)) delay k)
    with (Retry.Called :: Retry.Waited (delay * k)
            :: Retry.linear_backoff (S n) delay (k + 1)).
  unfold Retry.waits in *. cbn [flat_map app]. rewrite IH.
  cbn [seq map]. rewrite Z.add_0_r. f_equal.
  rewrite <- seq_shift, map_map. apply map_ext. intros j. f_equal. lia.
Qed.
End RetryFacts.

(** C7. A call that fails on each of the [maxRetries] attempts made, in
    the worlds those attempts run in (it may well succeed later), is
    attempted [maxRetries] times; after the failed attempt number [k],
    for every [k] below [maxRetries], the function waits [delay * k]
    milliseconds before the next attempt; after the last attempt the
    error that attempt threw is thrown to the caller as it is, not
    wrapped. In particular a call whose attempts fail with one error [e]
    ends in [e]. The function does not look at the error, so this holds
    for rate-limit and network failures as for any other. *)
Theorem retryApiCall_linear_backoff :
  forall (W E A : Type) (apiCall : W -> Res E A * W) (err : nat -> E)
         (maxRetries delay : Z) (w : W),
    1 <= maxRetries ->
    (forall k, (k < Z.to_nat maxRetries)%nat ->
       fst (apiCall (Retry.world_after apiCall k w)) = Throw (err k)) ->
    let n := Z.to_nat maxRetries in
    let last := Retry.world_after apiCall (n - 1) w in
    Retry.retryApiCall apiCall maxRetries delay w
    = Some (Retry.mkOutcome (Throw (err (n - 1)%nat)) (snd (apiCall last))
              (Retry.linear_backoff n delay 1))
    /\ Retry.attempts (Retry.linear_backoff n delay 1) = n
    /\ Retry.waits (Retry.linear_backoff n delay 1)
       = map (fun k => delay * Z.of_nat k) (seq 1 (n - 1))
    /\ (forall e,
          (forall k, (k < n)%nat -> err k = e) ->
          Retry.retryApiCall apiCall maxRetries delay w
          = Some (Retry.mkOutcome (Throw e) (snd (apiCall last))
                    (Retry.linear_backoff n delay 1))).
Proof.
  intros W E A apiCall err maxRetries delay w Hpos Hfail n last.
  assert (Hn : n = S (n - 1)) by (unfold n; lia).
  assert (Hrun : Retry.retryApiCall apiCall maxRetries delay w
                 = Some (Retry.mkOutcome (Throw (err (n - 1)%nat))
                           (snd (apiCall last))
                           (Retry.linear_backoff n delay 1))).
  { destruct (@retry_loop_fails_reached W E A apiCall maxRetries delay (n - 1)
                (S (Z.to_nat maxRetries)) 0 w [])
      as (e & He & Hloop).
    - unfold n. lia.
    - unfold n. lia.
    - intros k Hk. exists (err k). apply Hfail. unfold n in Hk. lia.
    - rewrite (Hfail (n - 1)%nat) in He by (unfold n; lia).
      injection He as <-.
      unfold Retry.retryApiCall. rewrite Hloop. fold last.
      rewrite <- Hn. reflexivity. }
  split; [exact Hrun|]. split; [apply linear_backoff_attempts|]. split.
  - rewrite Hn at 1. rewrite linear_backoff_waits.
    rewrite <- seq_shift, map_map. apply map_ext. intros j. f_equal. lia.
  - intros e He. rewrite Hrun, (He (n - 1)%nat) by lia. reflexivity.
Qed.

Lemma retryApiCall_linear_backoff_witness :
  Retry.retryApiCall
    (fun served : nat =>
       (if Nat.ltb served 3 then Throw (HttpError 429) else Ok "page", S served))
    3 1000 0%nat
  = Some (Retry.mkOutcome (Throw (HttpError 429)) 3%nat
            [Retry.Called; Retry.Waited 1000; Retry.Called; Retry.Waited 2000;
             Retry.Called]).
Proof.
  destruct (@retryApiCall_linear_backoff nat ApiError string
              (fun served : nat =>
                 (if Nat.ltb served 3 then Throw (HttpError 429) else Ok "page",
                  S served))
              (fun _ => HttpError 429) 3 1000 0%nat) as [Hrun _].
  - lia.
  - intros k Hk. destruct k as [|[|[|k]]]; [reflexivity | reflexivity | reflexivity|].
    simpl in Hk. lia.
  - exact Hrun.
Defined.

(** C6, as the specification has it, fails: with the default ceiling of
    3 a call that answers 401 every time is attempted three times. *)
Lemma retryApiCall_auth_failure_counterexample :
  ~ Retry.auth_failure_never_retried.
Proof.
  intros Hclaim.
  destruct (Hclaim unit string (fun _ => (Throw (HttpError 401), tt))
              3 1000 tt (HttpError 401)) as (o & Hrun & _ & Hone).
  - lia.
  - reflexivity.
  - reflexivity.
  - vm_compute in Hrun. inversion Hrun; subst o. vm_compute in Hone. discriminate.
Qed.

(** C6, amended. [retryApiCall] treats an authentication failure as any
    other failure. When an attempt fails with it and the ceiling allows a
    further attempt, the function waits and calls again; a call that
    fails with it on each of the [maxRetries] attempts made is attempted
    [maxRetries] times in all, with a wait of [delay * k] after the
    failed attempt number [k] for every [k] below [maxRetries], and then
    the failure is surfaced to the caller. No further attempt is made
    exactly when the ceiling is 1. *)
Theorem retryApiCall_retries_auth_failure :
  forall (W A : Type) (apiCall : W -> Res ApiError A * W)
         (maxRetries delay : Z) (w : W) (e : ApiError),
    Retry.is_auth_failure e = true ->
    (2 <= maxRetries ->
     fst (apiCall w) = Throw e ->
     exists o rest,
       Retry.retryApiCall apiCall maxRetries delay w = Some o
       /\ Retry.trace o
          = Retry.Called :: Retry.Waited (delay * 1) :: Retry.Called :: rest)
    /\ (1 <= maxRetries ->
        (forall k, (k < Z.to_nat maxRetries)%nat ->
           fst (apiCall (Retry.world_after apiCall k w)) = Throw e) ->
        exists o,
          Retry.retryApiCall apiCall maxRetries delay w = Some o
          /\ Retry.result o = Throw e
          /\ Retry.trace o = Retry.linear_backoff (Z.to_nat maxRetries) delay 1
          /\ Retry.attempts (Retry.trace o) = Z.to_nat maxRetries
          /\ Retry.waits (Retry.trace o)
             = map (fun k => delay * Z.of_nat k) (seq 1 (Z.to_nat maxRetries - 1))
          /\ (Retry.attempts (Retry.trace o) = 1%nat <-> maxRetries = 1)).
Proof.
  intros W A apiCall maxRetries delay w e _. split.
  - intros Hmax Hfail. now apply retryApiCall_second_attempt with (e := e).
  - intros Hpos Hfail.
    assert (Hn : Z.to_nat maxRetries = S (Z.to_nat maxRetries - 1)) by lia.
    destruct (@retry_loop_fails_reached W ApiError A apiCall maxRetries delay
                (Z.to_nat maxRetries - 1) (S (Z.to_nat maxRetries)) 0 w [])
      as (e' & He' & Hloop); [lia | lia | |].
    + intros k Hk. exists e. apply Hfail. lia.
    + rewrite Hfail in He' by lia. injection He' as <-.
      eexists. split; [unfold Retry.retryApiCall; exact Hloop|].
      cbn [Retry.result Retry.trace app]. rewrite <- Hn.
      split; [reflexivity|]. split; [reflexivity|].
      rewrite linear_backoff_attempts.
      split; [reflexivity|]. split; [|lia].
      rewrite Hn at 1. rewrite linear_backoff_waits.
      rewrite <- seq_shift, map_map. apply map_ext. intros j. f_equal. lia.
Qed.

Lemma retryApiCall_retries_auth_failure_witness :
  exists o,
    Retry.retryApiCall
      (fun served : nat =>
         (if Nat.ltb served 3 then Throw (HttpError 401) else Ok "page", S served))
      3 1000 0%nat
    = Some o
    /\ Retry.result o = Throw (HttpError 401)
    /\ Retry.trace o
       = [Retry.Called; Retry.Waited 1000; Retry.Called; Retry.Waited 2000;
          Retry.Called].
Proof.
  destruct (proj2 (@retryApiCall_retries_auth_failure nat string
                     (fun served : nat =>
                        (if Nat.ltb served 3 then Throw (HttpError 401)
                         else Ok "page", S served))
                     3 1000 0%nat (HttpError 401) eq_refl))
    as (o & Hrun & Hres & Htrace & _).
  - lia.
  - intros k Hk. destruct k as [|[|[|k]]]; [reflexivity | reflexivity | reflexivity|].
    simpl in Hk. lia.
  - exists o. split; [exact Hrun|]. split; [exact Hres|exact Htrace].
Defined.

(** ** The pagination window *)

Lemma push_range_seq n i :
  Pagination.push_range n i = map (fun j => i + Z.of_nat j) (seq 0 n).
Proof.
  revert i. induction n as [|n IH]; intros i; [reflexivity|].
  cbn [Pagination.push_range seq map]. rewrite Z.add_0_r. f_equal.
  rewrite IH, <- seq_shift, map_map. apply map_ext. intros j. lia.
Qed.

(** What [generatePageNumbers] returns, by the first page of the window
    and the number of pages in it. *)
Lemma generatePageNumbers_window currentPage totalPages maxVisible :
  1 <= currentPage <= totalPages ->
  0 <= maxVisible ->
  exists start,
    Pagination.generatePageNumbers currentPage totalPages maxVisible
    = Pagination.push_range (Z.to_nat (Z.min maxVisible totalPages)) start
    /\ 1 <= start
    /\ start + Z.min maxVisible totalPages - 1 <= totalPages
    /\ (1 <= maxVisible ->
        start <= currentPage <= start + Z.min maxVisible totalPages - 1)
    /\ (1 <= currentPage - maxVisible / 2 ->
        currentPage - maxVisible / 2 + maxVisible - 1 <= totalPages ->
        start = currentPage - maxVisible / 2)
    /\ (currentPage - maxVisible / 2 < 1 -> start = 1)
    /\ (totalPages < currentPage - maxVisible / 2 + maxVisible - 1 ->
        start + Z.min maxVisible totalPages - 1 = totalPages).
Proof.
  intros Hc Hmv. unfold Pagination.generatePageNumbers.
  set (half := maxVisible / 2).
  assert (Hhalf : 0 <= half /\ 2 * half <= maxVisible < 2 * half + 2).
  { unfold half. Z.div_mod_to_equations. lia. }
  set (start0 := Z.max 1 (currentPage - half)).
  set (end_ := Z.min totalPages (start0 + maxVisible - 1)).
  destruct (Z.ltb_spec (end_ - start0 + 1) maxVisible) as [Hshort|Hfull].
  - exists (Z.max 1 (end_ - maxVisible + 1)).
    split; [f_equal; unfold end_, start0 in *; lia|].
    unfold end_, start0 in *. repeat split; lia.
  - exists start0.
    split; [f_equal; unfold end_, start0 in *; lia|].
    unfold end_, start0 in *. repeat split; lia.
Qed.

(** C8. For [1 <= c <= t], [generatePageNumbers c t maxVisible] is the
    ascending run of consecutive page numbers [start, start + 1, ...] of
    length [min maxVisible t]; it starts at 1 or above and ends at [t] or
    below; it contains [c]; away from both edges it starts
    [floor (maxVisible / 2)] pages before [c], which for an odd
    [maxVisible] puts [c] in the middle; clamped at the lower edge it
    starts at 1, clamped at the upper edge it ends at [t], in both cases
    still with all [min maxVisible t] pages. The three windows the
    specification lists come out as listed. *)
Theorem generatePageNumbers_spec :
  forall currentPage totalPages maxVisible : Z,
    1 <= currentPage <= totalPages ->
    0 <= maxVisible ->
    let pages := Pagination.generatePageNumbers currentPage totalPages maxVisible in
    let len := Z.min maxVisible totalPages in
    exists start,
      pages = map (fun j => start + Z.of_nat j) (seq 0 (Z.to_nat len))
      /\ Z.of_nat (List.length pages) = len
      /\ 1 <= start
      /\ start + len - 1 <= totalPages
      /\ (1 <= maxVisible -> In currentPage pages)
      /\ (1 <= currentPage - maxVisible / 2 ->
          currentPage - maxVisible / 2 + maxVisible - 1 <= totalPages ->
          start = currentPage - maxVisible / 2
          /\ (maxVisible mod 2 = 1 ->
              currentPage - start = start + len - 1 - currentPage))
      /\ (currentPage - maxVisible / 2 < 1 -> start = 1)
      /\ (totalPages < currentPage - maxVisible / 2 + maxVisible - 1 ->
          start + len - 1 = totalPages)
      /\ Pagination.generatePageNumbers 50 100 5 = [48; 49; 50; 51; 52]
      /\ Pagination.generatePageNumbers 1 100 5 = [1; 2; 3; 4; 5]
      /\ Pagination.generatePageNumbers 3 3 5 = [1; 2; 3].
Proof.
  intros c t mv Hc Hmv pages len.
  destruct (generatePageNumbers_window Hc Hmv)
    as (start & Hpages & Hlo & Hhi & Hin & Hmid & Hlow & Hhigh).
  fold pages in Hpages. fold len in Hpages, Hhi, Hin, Hhigh.
  exists start. rewrite Hpages, push_range_seq.
  split; [reflexivity|].
  split; [rewrite length_map, length_seq; unfold len; lia|].
  split; [exact Hlo|]. split; [exact Hhi|].
  split.
  { intros Hpos. apply in_map_iff. exists (Z.to_nat (c - start)).
    split; [lia|]. apply in_seq. specialize (Hin Hpos). lia. }
  split.
  { intros H1 H2. specialize (Hmid H1 H2). split; [exact Hmid|].
    intros Hodd. unfold len. Z.div_mod_to_equations. lia. }
  split; [exact Hlow|]. split; [exact Hhigh|].
  repeat split; reflexivity.
Qed.

Lemma generatePageNumbers_spec_witness :
  exists start,
    Pagination.generatePageNumbers 99 100 5
    = map (fun j => start + Z.of_nat j) (seq 0 (Z.to_nat (Z.min 5 100)))
    /\ start + Z.min 5 100 - 1 = 100.
Proof.
  destruct (@generatePageNumbers_spec 99 100 5) as (start & Hpages & _ & _ & _ & _ & _ & _ & Hhigh & _).
  - lia.
  - lia.
  - exists start. split; [exact Hpages|]. apply Hhigh. reflexivity.
Defined.

(** ** [Promise.all] *)

Section PromiseFacts.
Variables E A : Type.
Implicit Types (values : list (option A)) (vs : list A) (order : list nat).

Lemma store_length i (v : A) values :
  List.length (Promise.store i v values) = List.length values.
Proof.
  revert i. induction values as [|x values IH]; intros [|i]; simpl; auto.
Qed.

Lemma store_nth_error i (v : A) values j :
  nth_error (Promise.store i v values) j
  = if (Nat.eqb i j && Nat.ltb j (List.length values))%bool
    then Some (Some v) else nth_error values j.
Proof.
  revert i j. induction values as [|x values IH]; intros i j.
  - destruct i; simpl; now rewrite Bool.andb_false_r.
  - destruct i as [|i], j as [|j]; simpl; auto.
Qed.

Lemma settle_fulfilled vs order :
  forall values,
    Promise.agrees values vs ->
    exists final,
      Promise.settle (map (@Ok E A) vs) order values = Ok final
      /\ Promise.agrees final vs
      /\ forall j, (j < List.length vs)%nat ->
           In j order \/ (exists x, nth_error values j = Some (Some x)) ->
           exists x, nth_error final j = Some (Some x).
Proof.
  induction order as [|i order IH]; intros values Hag; simpl.
  - exists values. repeat split; try apply Hag. intros j _ [[]|H]; exact H.
  - rewrite nth_error_map. destruct (nth_error vs i) as [v|] eqn:Hi; simpl.
    + assert (Hag' : Promise.agrees (Promise.store i v values) vs).
      { destruct Hag as [Hlen Hval]. split; [now rewrite store_length|].
        intros j x. rewrite store_nth_error.
        destruct (Nat.eqb_spec i j) as [->|Hne]; simpl; [|apply Hval].
        destruct (Nat.ltb_spec j (List.length values)); [|apply Hval].
        intros [=<-]. exact Hi. }
      destruct (IH _ Hag') as (final & Hrun & Hfin & Hfill).
      exists final. repeat split; try assumption; try apply Hfin.
      intros j Hj [[->|Hin]|[x Hx]].
      * apply Hfill; [assumption|]. right. exists v. rewrite store_nth_error.
        rewrite Nat.eqb_refl. destruct Hag as [Hlen _]. rewrite Hlen.
        apply Nat.ltb_lt in Hj. now rewrite Hj.
      * apply Hfill; auto.
      * apply Hfill; [assumption|]. right. rewrite store_nth_error.
        destruct (Nat.eqb i j && Nat.ltb j (List.length values))%bool; eauto.
    + destruct (IH _ Hag) as (final & Hrun & Hfin & Hfill).
      exists final. repeat split; try assumption; try apply Hfin.
      intros j Hj [[->|Hin]|Hx]; [|apply Hfill; auto|apply Hfill; auto].
      apply nth_error_None in Hi. lia.
Qed.

Lemma all_filled_complete values :
  forall vs,
    Promise.agrees values vs ->
    (forall j, (j < List.length vs)%nat -> exists x, nth_error values j = Some (Some x)) ->
    Promise.all_filled values = Some vs.
Proof.
  induction values as [|x values IH]; intros [|v vs] [Hlen Hval] Hfill;
    simpl in Hlen; try discriminate; [reflexivity|].
  destruct (Hfill 0%nat) as [y Hy]; [simpl; lia|]. simpl in Hy.
  injection Hy as ->. simpl.
  pose proof (Hval 0%nat y eq_refl) as H0. simpl in H0. injection H0 as ->.
  rewrite (IH vs); [reflexivity| |].
  - split; [lia|]. intros j z Hj. apply (Hval (S j)). exact Hj.
  - intros j Hj. apply (Hfill (S j)). simpl. lia.
Qed.

Lemma repeat_None_agrees vs : Promise.agrees (repeat None (List.length vs)) vs.
Proof.
  split; [apply repeat_length|].
  intros j x Hj. apply nth_error_In, repeat_spec in Hj. discriminate.
Qed.

(** When every promise is fulfilled, the aggregate is fulfilled with the
    values in the order of the promises, whatever the order in which
    they settled. *)
Lemma promise_all_fulfilled vs order :
  Promise.complete (List.length vs) order ->
  Promise.all (map (@Ok E A) vs) order = Some (Ok vs).
Proof.
  intros Hperm. unfold Promise.all. rewrite length_map.
  destruct (settle_fulfilled order (repeat_None_agrees vs))
    as (final & Hrun & Hag & Hfill).
  rewrite Hrun. rewrite (all_filled_complete Hag); [reflexivity|].
  intros j Hj. apply Hfill; [assumption|]. left.
  apply (Permutation_in _ (Permutation_sym Hperm)). apply in_seq. lia.
Qed.
End PromiseFacts.

(** ** The genre registry *)

Section GenreFacts.
Implicit Types (g genre : Genre.t) (acc allGenres : list Genre.t) (i : Z).

Lemma find_app_first (p : Genre.t -> bool) acc allGenres :
  find p (acc ++ allGenres)
  = match find p acc with Some g => Some g | None => find p allGenres end.
Proof.
  induction acc as [|g acc IH]; simpl; [reflexivity|].
  now destruct (p g).
Qed.

Lemma find_id_None i acc :
  find (fun g => Genre.id g =? i) acc = None <-> ~ In i (map Genre.id acc).
Proof.
  induction acc as [|g acc IH]; simpl; [tauto|].
  destruct (Z.eqb_spec (Genre.id g) i) as [Heq|Hne].
  - split; [discriminate | tauto].
  - rewrite IH. tauto.
Qed.

Lemma find_id_Some i acc g :
  find (fun g' => Genre.id g' =? i) acc = Some g -> In g acc /\ Genre.id g = i.
Proof.
  intros H. apply find_some in H. destruct H as [Hin Hid].
  apply Z.eqb_eq in Hid. tauto.
Qed.

(** For every id the registry holds the entry that lists it first. *)
Lemma dedup_fold_find i allGenres :
  forall acc,
    find (fun g => Genre.id g =? i) (fold_left ApiService.dedup_step allGenres acc)
    = find (fun g => Genre.id g =? i) (acc ++ allGenres).
Proof.
  induction allGenres as [|genre allGenres IH]; intros acc; simpl.
  - now rewrite app_nil_r.
  - rewrite IH. unfold ApiService.dedup_step.
    destruct (find (fun g => Genre.id g =? Genre.id genre) acc) as [g0|] eqn:Hfind.
    + rewrite !find_app_first. simpl.
      destruct (Z.eqb_spec (Genre.id genre) i) as [Heq|Hne]; [|reflexivity].
      rewrite <- Heq, Hfind. reflexivity.
    + now rewrite <- app_assoc.
Qed.

Lemma dedup_fold_NoDup allGenres :
  forall acc,
    NoDup (map Genre.id acc) ->
    NoDup (map Genre.id (fold_left ApiService.dedup_step allGenres acc)).
Proof.
  induction allGenres as [|genre allGenres IH]; intros acc Hnd; simpl; [assumption|].
  apply IH. unfold ApiService.dedup_step.
  destruct (find (fun g => Genre.id g =? Genre.id genre) acc) eqn:Hfind; [assumption|].
  rewrite map_app. simpl. apply NoDup_app; [assumption | repeat constructor; simpl; tauto |].
  intros x Hx [<-|[]]. now apply find_id_None in Hfind.
Qed.

Lemma dedup_fold_ids i allGenres :
  forall acc,
    In i (map Genre.id (fold_left ApiService.dedup_step allGenres acc))
    <-> In i (map Genre.id (acc ++ allGenres)).
Proof.
  intros acc.
  pose proof (find_id_None i (fold_left ApiService.dedup_step allGenres acc)) as Hx.
  pose proof (find_id_None i (acc ++ allGenres)) as Hy.
  rewrite dedup_fold_find in Hx.
  destruct (in_dec Z.eq_dec i
              (map Genre.id (fold_left ApiService.dedup_step allGenres acc)));
    destruct (in_dec Z.eq_dec i (map Genre.id (acc ++ allGenres))); tauto.
Qed.

Lemma NoDup_ids_unique acc g g' :
  NoDup (map Genre.id acc) -> In g acc -> In g' acc ->
  Genre.id g = Genre.id g' -> g = g'.
Proof.
  induction acc as [|g0 acc IH]; simpl; intros Hnd Hg Hg' Hid; [tauto|].
  inversion Hnd as [|? ? Hnotin Hnd']; subst.
  destruct Hg as [->|Hg], Hg' as [->|Hg']; auto.
  - exfalso. apply Hnotin. rewrite Hid. now apply in_map.
  - exfalso. apply Hnotin. rewrite <- Hid. now apply in_map.
Qed.

Lemma uniqueGenres_length allGenres :
  List.length (ApiService.uniqueGenres allGenres)
  = List.length (ApiService.distinct_ids allGenres).
Proof.
  rewrite <- (length_map Genre.id). apply Permutation_length.
  apply NoDup_Permutation.
  - apply dedup_fold_NoDup. constructor.
  - apply NoDup_nodup.
  - intros i. unfold ApiService.uniqueGenres, ApiService.distinct_ids.
    rewrite dedup_fold_ids, nodup_In. simpl. tauto.
Qed.
End GenreFacts.

(** C9. The registry built from the movie genres followed by the series
    genres holds, for every id of either list, exactly one entry, and it
    is the entry under which the concatenation lists the id first; its
    length is the number of distinct ids. Once a call of [getGenres] has
    built it, every later call returns this list from the cache, whatever
    the network would answer, and requests nothing. *)
Theorem getGenres_dedup_cached :
  forall (movieGenres tvGenres : list Genre.t)
         (svc : ApiService.t) (http : string -> Res ApiError Tmdb.GenresPayload)
         (order : list nat),
    JsMap.get "all" (ApiService.genreCache svc) = None ->
    http Tmdb.GENRES_MOVIE = Ok (Tmdb.mkGenresPayload (Some movieGenres)) ->
    http Tmdb.GENRES_TV = Ok (Tmdb.mkGenresPayload (Some tvGenres)) ->
    Promise.complete 2 order ->
    let allGenres := movieGenres ++ tvGenres in
    let unique := ApiService.uniqueGenres allGenres in
    (forall i, In i (map Genre.id allGenres) ->
       exists g,
         In g unique /\ Genre.id g = i
         /\ (forall g', In g' unique -> Genre.id g' = i -> g' = g)
         /\ find (fun g' => Genre.id g' =? i) allGenres = Some g
         /\ ApiService.first_name i allGenres = Some (Genre.name g))
    /\ (forall g, In g unique -> In (Genre.id g) (map Genre.id allGenres))
    /\ NoDup (map Genre.id unique)
    /\ List.length unique = List.length (ApiService.distinct_ids allGenres)
    /\ exists svc',
         ApiService.getGenres svc http order
         = Some (ApiService.mkGenresOutcome (Ok unique) svc'
                   [Tmdb.GENRES_MOVIE; Tmdb.GENRES_TV])
         /\ forall http' order',
              ApiService.getGenres svc' http' order'
              = Some (ApiService.mkGenresOutcome (Ok unique) svc' []).
Proof.
  intros movieGenres tvGenres svc http order Hcold Hmovie Htv Horder allGenres unique.
  assert (Hnd : NoDup (map Genre.id unique)) by (apply dedup_fold_NoDup; constructor).
  assert (Hfind : forall i, find (fun g => Genre.id g =? i) unique
                            = find (fun g => Genre.id g =? i) allGenres).
  { intros i. unfold unique, ApiService.uniqueGenres. now rewrite dedup_fold_find. }
  split; [|split; [|split; [|split]]].
  - intros i Hi.
    destruct (find (fun g => Genre.id g =? i) allGenres) as [g|] eqn:Hg.
    2:{ apply find_id_None in Hg. contradiction. }
    exists g. rewrite <- Hfind in Hg. destruct (find_id_Some _ _ Hg) as [Hin Hid].
    split; [assumption|]. split; [assumption|]. split.
    + intros g' Hin' Hid'. apply (@NoDup_ids_unique unique g' g Hnd Hin' Hin).
      congruence.
    + split; [reflexivity|].
      unfold ApiService.first_name. now rewrite <- Hfind, Hg.
  - intros g Hg. apply (dedup_fold_ids (Genre.id g) allGenres []).
    now apply in_map.
  - exact Hnd.
  - apply uniqueGenres_length.
  - eexists. split.
    + unfold ApiService.getGenres. rewrite Hcold.
      unfold Tmdb.getMovieGenres, Tmdb.getTVGenres. rewrite Hmovie, Htv.
      cbn [bind try_catch Tmdb.genres].
      pose proof (@promise_all_fulfilled ApiError _
                    [Some movieGenres; Some tvGenres] order Horder) as Hall.
      cbn [map] in Hall. rewrite Hall. reflexivity.
    + intros http' order'. unfold ApiService.getGenres. simpl.
      rewrite JsMap_get_set_eq. reflexivity.
Qed.

Lemma getGenres_dedup_cached_witness :
  List.length (ApiService.uniqueGenres (Sample.movieGenres ++ Sample.tvGenres))
  = List.length (ApiService.distinct_ids (Sample.movieGenres ++ Sample.tvGenres))
  /\ exists svc',
       ApiService.getGenres ApiService.new Sample.genres_http [1; 0]%nat
       = Some (ApiService.mkGenresOutcome
                 (Ok (ApiService.uniqueGenres (Sample.movieGenres ++ Sample.tvGenres)))
                 svc' [Tmdb.GENRES_MOVIE; Tmdb.GENRES_TV])
       /\ forall http' order',
            ApiService.getGenres svc' http' order'
            = Some (ApiService.mkGenresOutcome
                      (Ok (ApiService.uniqueGenres (Sample.movieGenres ++ Sample.tvGenres)))
                      svc' []).
Proof.
  destruct (@getGenres_dedup_cached Sample.movieGenres Sample.tvGenres
              ApiService.new Sample.genres_http [1; 0]%nat)
    as (_ & _ & _ & Hlen & Hrun).
  - reflexivity.
  - reflexivity.
  - reflexivity.
  - unfold Promise.complete. simpl. apply perm_swap.
  - split; [exact Hlen | exact Hrun].
Defined.

(** ** Merging *)

Lemma merge_plot_cases (p : Tmdb.Item) (e : Omdb.Item) :
  ApiService.merge_plot p e
  = match Omdb.plot e with
    | Some s =>
        if (String.length (Tmdb.plot (Tmdb.core p)) <? String.length s)%nat
        then s else Tmdb.plot (Tmdb.core p)
    | None => Tmdb.plot (Tmdb.core p)
    end.
Proof.
  unfold ApiService.merge_plot. destruct (Omdb.plot e) as [s|]; [|reflexivity].
  destruct s as [|a s]; simpl; [|reflexivity].
  now destruct (String.length (Tmdb.plot (Tmdb.core p))).
Qed.

(** C3. With an enrichment record [e] whose plot is [s] and a primary
    record [p], the plot of the merged record, basic or detailed, is [s]
    when [s] is strictly longer than the plot of [p], and the plot of [p]
    otherwise, in particular when the two have the same length. So the
    merged plot is [s] exactly when [s] is strictly longer, the case of
    one and the same text on both sides apart. An enrichment record
    without a plot leaves the plot of [p]. *)
Theorem merge_plot_strictly_longer :
  forall (p : Tmdb.Item) (e : Omdb.Item),
    let primary := Tmdb.plot (Tmdb.core p) in
    let basic := MergedBasic.plot (ApiService.mergeBasicData p e) in
    let detailed := MergedDetailed.plot (ApiService.mergeDetailedData p e) in
    (forall s, Omdb.plot e = Some s ->
       ((String.length primary < String.length s)%nat -> basic = s /\ detailed = s)
       /\ ((String.length s <= String.length primary)%nat ->
           basic = primary /\ detailed = primary)
       /\ (String.length s = String.length primary -> basic = primary /\ detailed = primary)
       /\ (s <> primary ->
           (basic = s <-> (String.length primary < String.length s)%nat)
           /\ (detailed = s <-> (String.length primary < String.length s)%nat)))
    /\ (Omdb.plot e = None -> basic = primary /\ detailed = primary).
Proof.
  intros p e primary basic detailed.
  assert (Hb : basic = ApiService.merge_plot p e) by reflexivity.
  assert (Hd : detailed = ApiService.merge_plot p e) by reflexivity.
  rewrite Hb, Hd, merge_plot_cases. fold primary. split.
  - intros s ->.
    destruct (Nat.ltb_spec (String.length primary) (String.length s)) as [Hlt|Hge].
    + repeat split; auto; intros; lia.
    + repeat split; auto; intros; try lia; congruence.
  - intros ->. auto.
Qed.

Lemma merge_plot_strictly_longer_witness :
  MergedBasic.plot
    (ApiService.mergeBasicData
       (Sample.movie 1 "Title" "short")
       (Sample.enrichment "Title" "a considerably longer plot description"))
  = "a considerably longer plot description"
  /\ MergedBasic.plot
       (ApiService.mergeBasicData
          (Sample.movie 1 "Title" "a considerably longer plot description")
          (Sample.enrichment "Title" "short"))
     = "a considerably longer plot description".
Proof.
  split.
  - destruct (@merge_plot_strictly_longer
                (Sample.movie 1 "Title" "short")
                (Sample.enrichment "Title" "a considerably longer plot description"))
      as [Hsome _].
    destruct (Hsome "a considerably longer plot description" eq_refl) as [Hlonger _].
    apply Hlonger. vm_compute. lia.
  - destruct (@merge_plot_strictly_longer
                (Sample.movie 1 "Title" "a considerably longer plot description")
                (Sample.enrichment "Title" "short"))
      as [Hsome _].
    destruct (Hsome "short" eq_refl) as (_ & Hshorter & _).
    apply Hshorter. vm_compute. lia.
Defined.

(** ** The batched enrichment *)

Section EnhanceFacts.
Variable js : Js.Builtins.
Variable http : nat -> Omdb.Params -> Res ApiError Omdb.Raw.
Implicit Types (item : Tmdb.Item) (tmdbItems batch : list Tmdb.Item)
               (sched : nat -> nat -> list nat).

(** The callback of a batch never throws. *)
Lemma enhance_item_ok n item :
  ApiService.enhance_item js http n item = Ok (ApiService.enhanced_of js http n item).
Proof.
  unfold ApiService.enhance_item, ApiService.enhanced_of.
  destruct (Omdb.searchByTitle js (http n) (Tmdb.title (Tmdb.core item))
              (Some (Tmdb.year (Tmdb.core item)))
              (Omdb.getOMDBType (Tmdb.type (Tmdb.core item)))) as [[omdbItem|]|e];
    reflexivity.
Qed.

(** [searchByTitle] never throws either. *)
Lemma searchByTitle_ok (answer : Omdb.Params -> Res ApiError Omdb.Raw) title year type :
  exists r, Omdb.searchByTitle js answer title year type = Ok r.
Proof.
  unfold Omdb.searchByTitle.
  match goal with |- context [try_catch ?body _] => destruct body as [r|e] end;
    simpl; eauto.
Qed.

Lemma enhanced_of_id n item :
  ApiService.enhanced_id (ApiService.enhanced_of js http n item)
  = Tmdb.id (Tmdb.core item).
Proof.
  unfold ApiService.enhanced_of.
  destruct (Omdb.searchByTitle js (http n) (Tmdb.title (Tmdb.core item))
              (Some (Tmdb.year (Tmdb.core item)))
              (Omdb.getOMDBType (Tmdb.type (Tmdb.core item)))) as [[omdbItem|]|e];
    reflexivity.
Qed.

(** A lookup that fails or finds nothing leaves the record as it came. *)
Lemma enhanced_of_miss n item :
  ApiService.lookup_misses http n item = true ->
  ApiService.enhanced_of js http n item = ApiService.Plain item.
Proof.
  unfold ApiService.lookup_misses, ApiService.enhanced_of, Omdb.searchByTitle.
  fold (ApiService.params_of item).
  destruct (http n (ApiService.params_of item)) as [data|e]; simpl;
    [|reflexivity].
  intros ->. reflexivity.
Qed.

Lemma batch_promises_ok batch :
  forall sent,
    ApiService.batch_promises js http sent batch
    = map (@Ok ApiError ApiService.Enhanced) (ApiService.enhanced_from js http sent batch).
Proof.
  induction batch as [|item batch IH]; intros sent; simpl; [reflexivity|].
  now rewrite enhance_item_ok, IH.
Qed.

Lemma enhanced_from_length tmdbItems :
  forall sent,
    List.length (ApiService.enhanced_from js http sent tmdbItems) = List.length tmdbItems.
Proof.
  induction tmdbItems as [|item tmdbItems IH]; intros sent; simpl; auto.
Qed.

Lemma enhanced_from_app batch tmdbItems :
  forall sent,
    ApiService.enhanced_from js http sent (batch ++ tmdbItems)
    = ApiService.enhanced_from js http sent batch
      ++ ApiService.enhanced_from js http (sent + List.length batch) tmdbItems.
Proof.
  induction batch as [|item batch IH]; intros sent; simpl.
  - now rewrite Nat.add_0_r.
  - rewrite IH. do 3 f_equal. lia.
Qed.

Lemma enhanced_from_nth tmdbItems :
  forall sent i item,
    nth_error tmdbItems i = Some item ->
    nth_error (ApiService.enhanced_from js http sent tmdbItems) i
    = Some (ApiService.enhanced_of js http (sent + i) item).
Proof.
  induction tmdbItems as [|item0 tmdbItems IH]; intros sent [|i] item Hi;
    simpl in *; try discriminate.
  - injection Hi as ->. now rewrite Nat.add_0_r.
  - rewrite (IH (S sent) i item Hi). do 2 f_equal. lia.
Qed.

(** A batch taken at an index inside the array with a positive size. *)
Lemma slice_batch tmdbItems (i c : Z) :
  0 <= i < Z.of_nat (List.length tmdbItems) ->
  1 <= c ->
  Js.slice tmdbItems i (i + c)
  = firstn (Z.to_nat (Z.min (i + c) (Z.of_nat (List.length tmdbItems)) - i))
      (skipn (Z.to_nat i) tmdbItems).
Proof.
  intros Hi Hc. unfold Js.slice.
  replace (i <? 0) with false by (symmetry; apply Z.ltb_ge; lia).
  replace (i + c <? 0) with false by (symmetry; apply Z.ltb_ge; lia).
  replace (Z.min i (Z.of_nat (List.length tmdbItems))) with i by lia.
  reflexivity.
Qed.

(** The loop from index [i] on, with a positive batch size: it returns,
    and appends to what it has the results for the remaining records in
    their order. *)
Lemma enhance_loop_ok sched tmdbItems (c : Z) :
  1 <= c ->
  (forall b n, Promise.complete n (sched b n)) ->
  forall fuel (i : Z) b acc,
    0 <= i ->
    let sent := Z.to_nat (Z.min i (Z.of_nat (List.length tmdbItems))) in
    (List.length tmdbItems - sent < fuel)%nat ->
    ApiService.enhance_loop js http sched fuel tmdbItems c i b sent acc
    = Some (Ok (acc ++ ApiService.enhanced_from js http sent (skipn sent tmdbItems))).
Proof.
  intros Hc Hsched. induction fuel as [|fuel IH]; intros i b acc Hi sent Hfuel; [lia|].
  cbn [ApiService.enhance_loop].
  destruct (Z.ltb_spec i (Z.of_nat (List.length tmdbItems))) as [Hlt|Hge].
  - rewrite slice_batch by lia.
    set (m := Z.to_nat (Z.min (i + c) (Z.of_nat (List.length tmdbItems)) - i)).
    assert (Hsent : sent = Z.to_nat i) by (unfold sent; lia).
    rewrite <- Hsent.
    set (batch := firstn m (skipn sent tmdbItems)).
    assert (Hlen : List.length batch = m).
    { unfold batch. rewrite length_firstn, length_skipn. unfold m. lia. }
    rewrite batch_promises_ok, length_map.
    rewrite promise_all_fulfilled by apply Hsched.
    assert (Hnext : (sent + List.length batch)%nat
                    = Z.to_nat (Z.min (i + c) (Z.of_nat (List.length tmdbItems)))).
    { rewrite Hlen. unfold m. lia. }
    rewrite Hnext, IH by lia.
    rewrite <- Hnext. rewrite <- app_assoc. do 3 f_equal.
    rewrite <- (firstn_skipn m (skipn sent tmdbItems)) at 1.
    fold batch. rewrite enhanced_from_app. f_equal. f_equal.
    rewrite skipn_skipn. f_equal. lia.
  - replace (skipn sent tmdbItems) with (@nil Tmdb.Item).
    + simpl. now rewrite app_nil_r.
    + symmetry. apply skipn_all2. unfold sent. lia.
Qed.

(** With a batch size of 0 or less the loop index never passes the
    length of a non-empty array: the call does not return. *)
Lemma enhance_loop_stuck sched tmdbItems (c : Z) :
  c <= 0 ->
  tmdbItems <> [] ->
  forall fuel (i : Z) b sent acc,
    i <= 0 ->
    ApiService.enhance_loop js http sched fuel tmdbItems c i b sent acc = None.
Proof.
  intros Hc Hne. induction fuel as [|fuel IH]; intros i b sent acc Hi; [reflexivity|].
  cbn [ApiService.enhance_loop].
  assert (Hlen : (0 < List.length tmdbItems)%nat)
    by (destruct tmdbItems; [congruence | simpl; lia]).
  replace (i <? Z.of_nat (List.length tmdbItems)) with true
    by (symmetry; apply Z.ltb_lt; lia).
  rewrite batch_promises_ok. unfold Promise.all.
  match goal with |- context [Promise.settle (map _ ?vs) ?order ?values] =>
    destruct (@settle_fulfilled ApiError _ vs order values) as (final & Hrun & _)
  end.
  { rewrite length_map. apply repeat_None_agrees. }
  rewrite Hrun. destruct (Promise.all_filled final); simpl; [|reflexivity].
  apply IH. lia.
Qed.

Lemma enhanceWithOMDBData_ok sched tmdbItems (c : Z) fuel :
  1 <= c ->
  (forall b n, Promise.complete n (sched b n)) ->
  (List.length tmdbItems < fuel)%nat ->
  ApiService.enhanceWithOMDBData js http sched fuel tmdbItems c
  = Some (Ok (ApiService.enhanced_from js http 0 tmdbItems)).
Proof.
  intros Hc Hsched Hfuel. unfold ApiService.enhanceWithOMDBData.
  destruct tmdbItems as [|item tmdbItems]; [reflexivity|].
  cbn [List.length Nat.eqb].
  pose proof (@enhance_loop_ok sched (item :: tmdbItems) c Hc Hsched fuel 0 0%nat []) as Hloop.
  cbn zeta in Hloop.
  replace (Z.to_nat (Z.min 0 (Z.of_nat (List.length (item :: tmdbItems))))) with 0%nat
    in Hloop by lia.
  apply Hloop; lia.
Qed.
End EnhanceFacts.




(** C2. Whatever lookups fail (the request throws) or answer with the
    not-found sentinel, [enhanceWithOMDBData] returns, without throwing,
    one element for each input record, and at every position whose
    lookup failed or found nothing the element is the input record
    itself, with no enrichment applied. *)
Theorem enhanceWithOMDBData_isolates_failures :
  forall (js : Js.Builtins) (http : nat -> Omdb.Params -> Res ApiError Omdb.Raw)
         (sched : nat -> nat -> list nat) (tmdbItems : list Tmdb.Item)
         (maxConcurrent : Z) (fuel : nat),
    1 <= maxConcurrent ->
    (forall b n, Promise.complete n (sched b n)) ->
    (List.length tmdbItems < fuel)%nat ->
    exists enhancedItems,
      ApiService.enhanceWithOMDBData js http sched fuel tmdbItems maxConcurrent
      = Some (Ok enhancedItems)
      /\ List.length enhancedItems = List.length tmdbItems
      /\ (forall i item,
            nth_error tmdbItems i = Some item ->
            ApiService.lookup_misses http i item = true ->
            nth_error enhancedItems i = Some (ApiService.Plain item))
      /\ (forall i item,
            nth_error tmdbItems i = Some item ->
            exists r,
              nth_error enhancedItems i = Some r
              /\ ApiService.enhanced_id r = Tmdb.id (Tmdb.core item)).
Proof.
  intros js http sched tmdbItems c fuel Hc Hsched Hfuel.
  exists (ApiService.enhanced_from js http 0 tmdbItems).
  split; [now apply enhanceWithOMDBData_ok|].
  split; [apply enhanced_from_length|].
  split.
  - intros i item Hi Hmiss.
    rewrite (enhanced_from_nth js http tmdbItems 0 i Hi). simpl.
    now rewrite enhanced_of_miss.
  - intros i item Hi. eexists. split; [apply enhanced_from_nth; exact Hi|].
    apply enhanced_of_id.
Qed.

Lemma enhanceWithOMDBData_isolates_failures_witness :
  exists enhancedItems,
    ApiService.enhanceWithOMDBData Sample.js Sample.http Sample.last_first 8
      Sample.seven 5
    = Some (Ok enhancedItems)
    /\ List.length enhancedItems = 7%nat
    /\ nth_error enhancedItems 3 = Some (ApiService.Plain (Sample.movie 103 "Title" "short"))
    /\ nth_error enhancedItems 5 = Some (ApiService.Plain (Sample.movie 105 "Title" "short"))
    /\ option_map ApiService.enhanced_plot (nth_error enhancedItems 4)
       = Some "a considerably longer plot description".
Proof.
  destruct (@enhanceWithOMDBData_isolates_failures Sample.js Sample.http
              Sample.last_first Sample.seven 5 8)
    as (enhancedItems & Hrun & Hlen & Hmiss & _).
  - lia.
  - intros b n. unfold Promise.complete, Sample.last_first.
    apply Permutation_sym, Permutation_rev.
  - simpl. lia.
  - exists enhancedItems. split; [exact Hrun|]. split; [exact Hlen|].
    split; [apply Hmiss; reflexivity|]. split; [apply Hmiss; reflexivity|].
    vm_compute in Hrun. injection Hrun as <-. reflexivity.
Defined.

(** * Further properties *)

(** ** The response cache *)

Lemma ApiCache_get_live (Data : Type) (c : ApiCache.t Data) key d t now :
  now <= t + ApiCache.ttl c ->
  ApiCache.get (ApiCache.set c key d t) key now = (Some d, ApiCache.set c key d t).
Proof.
  intros Hnow. unfold ApiCache.get.
  replace (JsMap.get key (ApiCache.cache (ApiCache.set c key d t)))
    with (Some {| ApiCache.data := d; ApiCache.expiry := t + ApiCache.ttl c |})
    by (symmetry; unfold ApiCache.set; simpl; apply JsMap_get_set_eq).
  cbn [ApiCache.expiry ApiCache.data].
  replace (now >? t + ApiCache.ttl c) with false; [reflexivity|].
  symmetry. rewrite Z.gtb_ltb. apply Z.ltb_ge. lia.
Qed.

(** X1. An entry set at time [t] is served, and the cache left as it
    is, at every reading of the clock up to and including [t + ttl]; at
    every later reading the read misses and deletes the entry. *)
Theorem ApiCache_served_until_expiry :
  forall (Data : Type) (c : ApiCache.t Data) (key : string) (d : Data) (t now : Z),
    let c1 := ApiCache.set c key d t in
    (now <= t + ApiCache.ttl c -> ApiCache.get c1 key now = (Some d, c1))
    /\ (t + ApiCache.ttl c < now ->
        fst (ApiCache.get c1 key now) = None
        /\ JsMap.get key (ApiCache.cache (snd (ApiCache.get c1 key now))) = None
        /\ ApiCache.size (snd (ApiCache.get c1 key now)) < ApiCache.size c1).
Proof.
  intros Data c key d t now c1.
  assert (Hin : JsMap.get key (ApiCache.cache c1)
                = Some {| ApiCache.data := d; ApiCache.expiry := t + ApiCache.ttl c |}).
  { unfold c1, ApiCache.set. simpl. apply JsMap_get_set_eq. }
  split; intros Hnow; [now apply ApiCache_get_live|].
  unfold ApiCache.get; rewrite Hin; cbn [ApiCache.expiry ApiCache.data].
  - replace (now >? t + ApiCache.ttl c) with true by (symmetry; apply Z.gtb_lt; lia).
    cbn [fst snd ApiCache.with_cache ApiCache.cache].
    split; [reflexivity|]. split; [apply JsMap_get_delete_eq|].
    unfold ApiCache.size, JsMap.size. cbn [ApiCache.cache].
    apply inj_lt.
    assert (Hmem : In key (JsMap.keys (ApiCache.cache c1))).
    { destruct (in_dec string_dec key (JsMap.keys (ApiCache.cache c1))) as [H|H];
        [assumption|].
      apply JsMap_get_None_notin in H. congruence. }
    clear Hin. induction (ApiCache.cache c1) as [|[k e] m IH]; simpl in *; [tauto|].
    destruct (String.eqb k key) eqn:Hk; simpl.
    + pose proof (JsMap_length_delete key m). unfold JsMap.delete in *. lia.
    + apply String.eqb_neq in Hk. destruct Hmem as [Heq|Hmem]; [congruence|].
      specialize (IH Hmem). lia.
Qed.

(** X2. Setting a key that is in a store with room left replaces its
    value and restarts its time to live, and nothing else changes: the
    keys keep their order, the size stays, the other entries stay. *)
Theorem ApiCache_set_refreshes :
  forall (Data : Type) (c : ApiCache.t Data) (key : string) (d : Data) (t : Z),
    JsMap.has key (ApiCache.cache c) = true ->
    ApiCache.size c < ApiCache.maxSize c ->
    let c1 := ApiCache.set c key d t in
    JsMap.keys (ApiCache.cache c1) = JsMap.keys (ApiCache.cache c)
    /\ ApiCache.size c1 = ApiCache.size c
    /\ (forall now, now <= t + ApiCache.ttl c ->
          ApiCache.get c1 key now = (Some d, c1))
    /\ (forall k, k <> key ->
          JsMap.get k (ApiCache.cache c1) = JsMap.get k (ApiCache.cache c)).
Proof.
  intros Data c key d t Hhas Hroom c1.
  assert (Hstore : ApiCache.cache c1
                   = JsMap.set key {| ApiCache.data := d;
                                      ApiCache.expiry := t + ApiCache.ttl c |}
                       (ApiCache.cache c)).
  { unfold c1, ApiCache.set, ApiCache.with_cache. cbn [ApiCache.cache].
    unfold ApiCache.size in Hroom.
    replace (JsMap.size (ApiCache.cache c) >=? ApiCache.maxSize c) with false;
      [reflexivity|].
    symmetry. rewrite Z.geb_leb. apply Z.leb_gt. lia. }
  assert (Hkeys : JsMap.keys (ApiCache.cache c1) = JsMap.keys (ApiCache.cache c)).
  { now rewrite Hstore, JsMap_keys_set, Hhas. }
  split; [exact Hkeys|]. split.
  - unfold ApiCache.size, JsMap.size. f_equal.
    apply (f_equal (@List.length string)) in Hkeys. unfold JsMap.keys in Hkeys.
    now rewrite !length_map in Hkeys.
  - split.
    + intros now Hnow. now apply ApiCache_get_live.
    + intros k Hk. rewrite Hstore. apply JsMap_get_set_ne. congruence.
Qed.

Lemma ApiCache_set_refreshes_witness :
  let c := ApiCache.set (ApiCache.set (ApiCache.new nat 3 100) "A" 1%nat 0)
             "B" 2%nat 10 in
  ApiCache.get (ApiCache.set c "A" 7%nat 90) "A" 150
  = (Some 7%nat, ApiCache.set c "A" 7%nat 90).
Proof.
  intros c.
  destruct (@ApiCache_set_refreshes nat c "A" 7%nat 90) as (_ & _ & Hget & _).
  - reflexivity.
  - reflexivity.
  - apply Hget. simpl. lia.
Defined.

(** X3. Setting a key that is already in a full store, and is not the
    oldest one, still evicts the oldest entry: the store is left one
    entry short of its capacity. *)
Theorem ApiCache_update_full_evicts :
  forall (Data : Type) (c : ApiCache.t Data) (k0 : string)
         (e0 : ApiCache.Item Data) (rest : JsMap.t (ApiCache.Item Data))
         (key : string) (d : Data) (now : Z),
    JsMap.wf (ApiCache.cache c) ->
    ApiCache.cache c = (k0, e0) :: rest ->
    ApiCache.size c = ApiCache.maxSize c ->
    JsMap.has key rest = true ->
    let c1 := ApiCache.set c key d now in
    ApiCache.size c1 = ApiCache.maxSize c - 1
    /\ JsMap.get k0 (ApiCache.cache c1) = None
    /\ JsMap.keys (ApiCache.cache c1) = JsMap.keys rest.
Proof.
  intros Data c k0 e0 rest key d now Hwf Hc Hsize Hhas c1.
  pose proof (@ApiCache_set_full Data c k0 e0 rest key d now Hwf Hc Hsize) as Hstore.
  fold c1 in Hstore.
  assert (Hkeys : JsMap.keys (ApiCache.cache c1) = JsMap.keys rest)
    by now rewrite Hstore, JsMap_keys_set, Hhas.
  assert (Hk0 : ~ In k0 (JsMap.keys rest)).
  { unfold JsMap.wf in Hwf. rewrite Hc in Hwf. simpl in Hwf. now inversion Hwf. }
  split; [|split; [|exact Hkeys]].
  - rewrite <- Hsize. unfold ApiCache.size, JsMap.size. rewrite Hc.
    apply (f_equal (@List.length string)) in Hkeys. unfold JsMap.keys in Hkeys.
    rewrite !length_map in Hkeys. rewrite Hkeys. cbn [List.length]. lia.
  - apply JsMap_get_None_notin. now rewrite Hkeys.
Qed.

Lemma ApiCache_update_full_evicts_witness :
  let c := ApiCache.mk
             [("A", ApiCache.mkItem 1%nat 100); ("B", ApiCache.mkItem 2%nat 101)]
             2 100 in
  ApiCache.size (ApiCache.set c "B" 9%nat 50) = 2 - 1
  /\ JsMap.get "A" (ApiCache.cache (ApiCache.set c "B" 9%nat 50)) = None.
Proof.
  intros c.
  assert (Hwf : JsMap.wf (ApiCache.cache c)).
  { unfold JsMap.wf. simpl. repeat constructor; simpl; intuition discriminate. }
  destruct (@ApiCache_update_full_evicts nat c "A" (ApiCache.mkItem 1%nat 100)
              [("B", ApiCache.mkItem 2%nat 101)] "B" 9%nat 50
              Hwf eq_refl eq_refl eq_refl) as (Hsize & Hgone & _).
  split; assumption.
Defined.

Lemma ApiCache_no_capacity_step (Data : Type) (c : ApiCache.t Data) o :
  ApiCache.maxSize c <= 0 ->
  (List.length (ApiCache.cache c) <= 1)%nat ->
  (List.length (ApiCache.cache (ApiCache.step c o)) <= 1)%nat.
Proof.
  intros Hcap Hlen. destruct o as [key now|key d now| |]; simpl; try assumption.
  - unfold ApiCache.get. destruct (JsMap.get key (ApiCache.cache c)); [|assumption].
    destruct (now >? ApiCache.expiry i); simpl; [|assumption].
    pose proof (JsMap_length_delete key (ApiCache.cache c)). lia.
  - replace (JsMap.size (ApiCache.cache c) >=? ApiCache.maxSize c) with true
      by (symmetry; rewrite Z.geb_leb; apply Z.leb_le; unfold JsMap.size; lia).
    destruct (ApiCache.cache c) as [|[k0 e0] [|x rest]]; simpl in *; try lia.
    rewrite String.eqb_refl. simpl. lia.
  - lia.
Qed.

(** X4. A cache built with [maxSize <= 0] still stores: after any calls,
    a [set] leaves exactly the entry it was given in the store, so the
    cache holds the latest entry and nothing else. *)
Theorem ApiCache_no_capacity :
  forall (Data : Type) (maxSize ttl : Z) (ops : list (ApiCache.Op Data))
         (key : string) (d : Data) (t : Z),
    maxSize <= 0 ->
    let c := ApiCache.run (ApiCache.new Data maxSize ttl) ops in
    ApiCache.cache (ApiCache.set c key d t)
    = [(key, {| ApiCache.data := d; ApiCache.expiry := t + ttl |})]
    /\ ApiCache.size (ApiCache.set c key d t) = 1.
Proof.
  intros Data maxSize ttl ops key d t Hcap c.
  assert (Hinv : forall c0 : ApiCache.t Data,
            ApiCache.maxSize c0 = maxSize -> ApiCache.ttl c0 = ttl ->
            (List.length (ApiCache.cache c0) <= 1)%nat ->
            ApiCache.maxSize (ApiCache.run c0 ops) = maxSize
            /\ ApiCache.ttl (ApiCache.run c0 ops) = ttl
            /\ (List.length (ApiCache.cache (ApiCache.run c0 ops)) <= 1)%nat).
  { induction ops as [|o ops IH]; intros c0 Hm Ht Hl; simpl; [auto|].
    apply IH.
    - now rewrite ApiCache_maxSize_step.
    - destruct o as [k now|k d0 now| |]; simpl; try assumption.
      unfold ApiCache.get. destruct (JsMap.get k (ApiCache.cache c0)); [|assumption].
      now destruct (now >? ApiCache.expiry i).
    - apply ApiCache_no_capacity_step; [lia | assumption]. }
  destruct (Hinv (ApiCache.new Data maxSize ttl) eq_refl eq_refl) as (Hm & Ht & Hl);
    [simpl; lia|].
  fold c in Hm, Ht, Hl.
  assert (Hstore : ApiCache.cache (ApiCache.set c key d t)
                   = [(key, {| ApiCache.data := d; ApiCache.expiry := t + ttl |})]).
  { unfold ApiCache.set, ApiCache.with_cache. cbn [ApiCache.cache]. rewrite Ht.
    replace (JsMap.size (ApiCache.cache c) >=? ApiCache.maxSize c) with true
      by (symmetry; rewrite Z.geb_leb; apply Z.leb_le; unfold JsMap.size; lia).
    destruct (ApiCache.cache c) as [|[k0 e0] [|x rest]]; simpl in *; try lia;
      [reflexivity|].
    rewrite String.eqb_refl. reflexivity. }
  split; [exact Hstore|].
  unfold ApiCache.size, JsMap.size. now rewrite Hstore.
Qed.

Lemma ApiCache_no_capacity_witness :
  ApiCache.cache
    (ApiCache.set
       (ApiCache.run (ApiCache.new nat 0 100)
          [ApiCache.OpSet "A" 1%nat 0; ApiCache.OpSet "B" 2%nat 1])
       "C" 3%nat 2)
  = [("C", {| ApiCache.data := 3%nat; ApiCache.expiry := 2 + 100 |})].
Proof.
  destruct (@ApiCache_no_capacity nat 0 100
              [ApiCache.OpSet "A" 1%nat 0; ApiCache.OpSet "B" 2%nat 1]
              "C" 3%nat 2) as [Hstore _].
  - lia.
  - exact Hstore.
Defined.

(** ** Retrying a failed call *)

Section RetryMoreFacts.
Variables W E A : Type.
Variable apiCall : W -> Res E A * W.

Lemma attempts_app (tr tr' : list Retry.Event) :
  Retry.attempts (tr ++ tr') = (Retry.attempts tr + Retry.attempts tr')%nat.
Proof. unfold Retry.attempts. now rewrite filter_app, length_app. Qed.

Lemma waits_app (tr tr' : list Retry.Event) :
  Retry.waits (tr ++ tr') = Retry.waits tr ++ Retry.waits tr'.
Proof. unfold Retry.waits. apply flat_map_app. Qed.

(** What one run of the loop adds to the trace: no call at all, or
    calls with a wait between each two. *)
Lemma retry_loop_counts maxRetries delay fuel :
  forall i w tr o,
    Retry.retry_loop apiCall fuel maxRetries delay i w tr = Some o ->
    exists added,
      Retry.trace o = tr ++ added
      /\ (Retry.attempts added <= Z.to_nat (maxRetries - i))%nat
      /\ (i < maxRetries -> (1 <= Retry.attempts added)%nat)
      /\ List.length (Retry.waits added) = (Retry.attempts added - 1)%nat
      /\ (maxRetries <= i -> o = Retry.mkOutcome (Ok None) w tr).
Proof.
  induction fuel as [|fuel IH]; intros i w tr o; simpl; [discriminate|].
  destruct (Z.ltb_spec i maxRetries) as [Hi|Hi].
  - destruct (apiCall w) as [[a|e] w'].
    + intros [= <-]. exists [Retry.Called]. simpl.
      repeat split; try reflexivity; try lia. unfold Retry.attempts. simpl. lia.
    + destruct (Z.eqb_spec i (maxRetries - 1)) as [Hlast|Hmore].
      * intros [= <-]. exists [Retry.Called]. simpl.
        repeat split; try reflexivity; try lia. unfold Retry.attempts. simpl. lia.
      * intros Hrun. destruct (IH _ _ _ _ Hrun) as (added & Htr & Hle & Hge & Hw & _).
        exists (Retry.Called :: Retry.Waited (delay * (i + 1)) :: added).
        split; [rewrite Htr, <- app_assoc; reflexivity|].
        assert (Hone : (1 <= Retry.attempts added)%nat) by (apply Hge; lia).
        change (Retry.Called :: Retry.Waited (delay * (i + 1)) :: added)
          with ([Retry.Called; Retry.Waited (delay * (i + 1))] ++ added).
        rewrite attempts_app, waits_app, length_app.
        change (Retry.attempts [Retry.Called; Retry.Waited (delay * (i + 1))]) with 1%nat.
        change (List.length (Retry.waits [Retry.Called; Retry.Waited (delay * (i + 1))]))
          with 1%nat.
        repeat split; try lia.
  - intros [= <-]. exists []. rewrite app_nil_r. simpl.
    repeat split; try reflexivity; try lia.
    unfold Retry.attempts. simpl. lia.
Qed.

(** A call that fails [j] times and then returns. *)
Lemma retry_loop_success_after maxRetries delay (a : A) :
  forall j fuel i w tr,
    i + Z.of_nat j < maxRetries ->
    (S j <= fuel)%nat ->
    (forall k, (k < j)%nat ->
       exists e, fst (apiCall (Retry.world_after apiCall k w)) = Throw e) ->
    fst (apiCall (Retry.world_after apiCall j w)) = Ok a ->
    Retry.retry_loop apiCall fuel maxRetries delay i w tr
    = Some (Retry.mkOutcome (Ok (Some a))
              (snd (apiCall (Retry.world_after apiCall j w)))
              (tr ++ Retry.linear_backoff (S j) delay (i + 1))).
Proof.
  induction j as [|j IH]; intros fuel i w tr Hi Hfuel Hfail Hok;
    (destruct fuel as [|fuel]; [lia|]); simpl Retry.retry_loop.
  - replace (i <? maxRetries) with true by (symmetry; apply Z.ltb_lt; lia).
    unfold Retry.world_after in *. simpl in *.
    destruct (apiCall w) as [[a'|e] w']; simpl in Hok; [|discriminate].
    now injection Hok as ->.
  - replace (i <? maxRetries) with true by (symmetry; apply Z.ltb_lt; lia).
    destruct (Hfail 0%nat) as [e He]; [lia|].
    unfold Retry.world_after in He. simpl in He.
    destruct (apiCall w) as [[a'|e'] w'] eqn:Hcall; simpl in He; [discriminate|].
    replace (i =? maxRetries - 1) with false by (symmetry; apply Z.eqb_neq; lia).
    assert (Hshift : forall k, Retry.world_after apiCall (S k) w
                               = Retry.world_after apiCall k w').
    { intros k. unfold Retry.world_after. rewrite Nat.iter_succ_r. now rewrite Hcall. }
    rewrite (IH fuel (i + 1) w'); try lia.
    + rewrite <- Hshift, <- app_assoc. reflexivity.
    + intros k Hk. rewrite <- Hshift. apply Hfail. lia.
    + now rewrite <- Hshift.
Qed.

Lemma sum_linear_waits delay n :
  2 * fold_right Z.add 0 (map (fun j => delay * (1 + Z.of_nat j)) (seq 0 n))
  = delay * Z.of_nat n * (Z.of_nat n + 1).
Proof.
  assert (Hsplit : forall l z,
            fold_right Z.add z l = fold_right Z.add 0 l + z).
  { induction l as [|x l IHl]; intros z; simpl; [lia|]. rewrite IHl. lia. }
  induction n as [|n IH]; [simpl; lia|].
  rewrite seq_S, map_app, fold_right_app.
  cbn [map fold_right Nat.add].
  rewrite Hsplit, Z.mul_add_distr_l, IH. lia.
Qed.
End RetryMoreFacts.

(** X5. Whatever the call does, [retryApiCall] returns or throws after
    at most [maxRetries] invocations of it, it waits exactly once between
    two invocations and never after the last one, and with a ceiling of 0
    or less it does not invoke the call at all and returns [undefined]. *)
Theorem retryApiCall_attempts_bounded :
  forall (W E A : Type) (apiCall : W -> Res E A * W) (maxRetries delay : Z) (w : W),
    exists o,
      Retry.retryApiCall apiCall maxRetries delay w = Some o
      /\ (Retry.attempts (Retry.trace o) <= Z.to_nat maxRetries)%nat
      /\ List.length (Retry.waits (Retry.trace o))
         = (Retry.attempts (Retry.trace o) - 1)%nat
      /\ (1 <= maxRetries -> (1 <= Retry.attempts (Retry.trace o))%nat)
      /\ (maxRetries <= 0 -> o = Retry.mkOutcome (Ok None) w []).
Proof.
  intros W E A apiCall maxRetries delay w.
  destruct (@retryApiCall_total W E A apiCall maxRetries delay w) as [o Hrun].
  exists o. split; [exact Hrun|].
  unfold Retry.retryApiCall in Hrun.
  destruct (@retry_loop_counts W E A apiCall maxRetries delay _ _ _ _ _ Hrun)
    as (added & Htr & Hle & Hge & Hw & Hnone).
  simpl in Htr. rewrite Htr. rewrite Z.sub_0_r in Hle.
  split; [exact Hle|]. split; [exact Hw|].
  split; intros Hm; [apply Hge | apply Hnone]; lia.
Qed.

(** X6. When the call fails [j] times and then returns a value, with
    [j] below the ceiling, [retryApiCall] returns that value after
    [j + 1] invocations, having waited [delay * k] after the failed
    attempt number [k], and does not invoke the call again. *)
Theorem retryApiCall_success_after_failures :
  forall (W E A : Type) (apiCall : W -> Res E A * W) (maxRetries delay : Z)
         (w : W) (j : nat) (a : A),
    Z.of_nat j < maxRetries ->
    (forall k, (k < j)%nat ->
       exists e, fst (apiCall (Retry.world_after apiCall k w)) = Throw e) ->
    fst (apiCall (Retry.world_after apiCall j w)) = Ok a ->
    Retry.retryApiCall apiCall maxRetries delay w
    = Some (Retry.mkOutcome (Ok (Some a))
              (snd (apiCall (Retry.world_after apiCall j w)))
              (Retry.linear_backoff (S j) delay 1))
    /\ Retry.attempts (Retry.linear_backoff (S j) delay 1) = S j
    /\ Retry.waits (Retry.linear_backoff (S j) delay 1)
       = map (fun k => delay * Z.of_nat k) (seq 1 j).
Proof.
  intros W E A apiCall maxRetries delay w j a Hj Hfail Hok. split; [|split].
  - unfold Retry.retryApiCall.
    rewrite (@retry_loop_success_after W E A apiCall maxRetries delay a j);
      try assumption; try lia. reflexivity.
  - apply linear_backoff_attempts.
  - rewrite linear_backoff_waits, <- seq_shift, map_map.
    apply map_ext. intros k. f_equal. lia.
Qed.

Lemma retryApiCall_success_after_failures_witness :
  Retry.retryApiCall
    (fun served : nat =>
       (if Nat.ltb served 2 then Throw (HttpError 429) else Ok "page", S served))
    3 1000 0%nat
  = Some (Retry.mkOutcome (Ok (Some "page")) 3%nat
            [Retry.Called; Retry.Waited 1000; Retry.Called; Retry.Waited 2000;
             Retry.Called]).
Proof.
  destruct (@retryApiCall_success_after_failures nat ApiError string
              (fun served : nat =>
                 (if Nat.ltb served 2 then Throw (HttpError 429) else Ok "page",
                  S served))
              3 1000 0%nat 2%nat "page") as [Hrun _].
  - lia.
  - intros k Hk. exists (HttpError 429).
    destruct k as [|[|k]]; [reflexivity | reflexivity | lia].
  - reflexivity.
  - exact Hrun.
Defined.

(** X7. A call that fails on each of the [n] attempts made, [n] being
    the ceiling, is given up after waiting [delay * n * (n - 1) / 2]
    milliseconds in all, whether or not it would succeed later: 3000 ms
    with the defaults 3 and 1000. *)
Theorem retryApiCall_total_wait :
  forall (W E A : Type) (apiCall : W -> Res E A * W)
         (maxRetries delay : Z) (w : W),
    1 <= maxRetries ->
    (forall k, (k < Z.to_nat maxRetries)%nat ->
       exists e, fst (apiCall (Retry.world_after apiCall k w)) = Throw e) ->
    exists o e,
      Retry.retryApiCall apiCall maxRetries delay w = Some o
      /\ Retry.result o = Throw e
      /\ Retry.attempts (Retry.trace o) = Z.to_nat maxRetries
      /\ 2 * fold_right Z.add 0 (Retry.waits (Retry.trace o))
         = delay * maxRetries * (maxRetries - 1).
Proof.
  intros W E A apiCall maxRetries delay w Hpos Hfail.
  destruct (@retry_loop_fails_reached W E A apiCall maxRetries delay
              (Z.to_nat maxRetries - 1) (S (Z.to_nat maxRetries)) 0 w [])
    as (e & _ & Hrun); [lia | lia | |].
  - intros k Hk. apply Hfail. lia.
  - eexists. exists e. split; [unfold Retry.retryApiCall; exact Hrun|].
    cbn [Retry.result Retry.trace app]. split; [reflexivity|]. split.
    + rewrite linear_backoff_attempts. lia.
    + rewrite linear_backoff_waits.
      replace (0 + 1) with 1 by lia.
      rewrite sum_linear_waits.
      replace (Z.of_nat (Z.to_nat maxRetries - 1)) with (maxRetries - 1) by lia. ring.
Qed.

Lemma retryApiCall_total_wait_witness :
  exists o e,
    Retry.retryApiCall
      (fun served : nat =>
         (if Nat.ltb served 3 then Throw NetworkError else Ok "page", S served))
      3 1000 0%nat
    = Some o
    /\ Retry.result o = Throw e
    /\ Retry.attempts (Retry.trace o) = Z.to_nat 3
    /\ 2 * fold_right Z.add 0 (Retry.waits (Retry.trace o)) = 1000 * 3 * (3 - 1).
Proof.
  apply (@retryApiCall_total_wait nat ApiError string
           (fun served : nat =>
              (if Nat.ltb served 3 then Throw NetworkError else Ok "page", S served))
           3 1000 0%nat).
  - lia.
  - intros k Hk. exists NetworkError.
    destruct k as [|[|[|k]]]; [reflexivity | reflexivity | reflexivity|].
    simpl in Hk. lia.
Defined.

(** ** Pagination *)

(** X8. Whatever the current page, in range or not, [generatePageNumbers]
    returns [min maxVisible totalPages] consecutive pages, all of them
    between 1 and [totalPages]: the window starts at 1 for a current page
    below 1 and ends at [totalPages] for a current page above it, and it
    is empty when there are no pages. *)
Theorem generatePageNumbers_always_in_range :
  forall currentPage totalPages maxVisible : Z,
    0 <= totalPages ->
    0 <= maxVisible ->
    let pages := Pagination.generatePageNumbers currentPage totalPages maxVisible in
    let len := Z.min maxVisible totalPages in
    exists start,
      pages = map (fun j => start + Z.of_nat j) (seq 0 (Z.to_nat len))
      /\ (forall p, In p pages -> 1 <= p <= totalPages)
      /\ (currentPage < 1 -> start = 1)
      /\ (totalPages < currentPage -> start + len - 1 = totalPages)
      /\ (totalPages = 0 -> pages = []).
Proof.
  intros c t mv Ht Hmv pages len. unfold pages, Pagination.generatePageNumbers.
  set (half := mv / 2).
  assert (Hhalf : 0 <= half /\ 2 * half <= mv < 2 * half + 2).
  { unfold half. Z.div_mod_to_equations. lia. }
  set (start0 := Z.max 1 (c - half)).
  set (end_ := Z.min t (start0 + mv - 1)).
  assert (Hgen : forall start n,
            1 <= start -> start + Z.of_nat n - 1 <= t ->
            forall p, In p (map (fun j => start + Z.of_nat j) (seq 0 n)) ->
                      1 <= p <= t).
  { intros start n H1 H2 p Hp. apply in_map_iff in Hp.
    destruct Hp as (j & <- & Hj). apply in_seq in Hj. lia. }
  destruct (Z.ltb_spec (end_ - start0 + 1) mv) as [Hshort|Hfull].
  - exists (Z.max 1 (end_ - mv + 1)). rewrite push_range_seq.
    replace (Z.to_nat (end_ - Z.max 1 (end_ - mv + 1) + 1)) with (Z.to_nat len)
      by (unfold len, end_, start0 in *; lia).
    split; [reflexivity|]. split.
    + apply Hgen; unfold len, end_, start0 in *; lia.
    + unfold len, end_, start0 in *.
      split; [lia|]. split; [lia|]. intros ->.
      replace (Z.to_nat (Z.min mv 0)) with 0%nat by lia. reflexivity.
  - exists start0. rewrite push_range_seq.
    replace (Z.to_nat (end_ - start0 + 1)) with (Z.to_nat len)
      by (unfold len, end_, start0 in *; lia).
    split; [reflexivity|]. split.
    + apply Hgen; unfold len, end_, start0 in *; lia.
    + unfold len, end_, start0 in *.
      split; [lia|]. split; [lia|]. intros ->.
      replace (Z.to_nat (Z.min mv 0)) with 0%nat by lia. reflexivity.
Qed.

Lemma generatePageNumbers_always_in_range_witness :
  exists start,
    Pagination.generatePageNumbers 10 3 5
    = map (fun j => start + Z.of_nat j) (seq 0 (Z.to_nat (Z.min 5 3)))
    /\ start + Z.min 5 3 - 1 = 3.
Proof.
  destruct (@generatePageNumbers_always_in_range 10 3 5 ltac:(lia) ltac:(lia))
    as (start & Hpages & _ & _ & Hend & _).
  exists start. split; [exact Hpages|]. apply Hend. lia.
Defined.

(** X9. With at least one item per page, the item ranges of the pages
    tile the result set: page 1 starts at item 1; a page that is full has
    [itemsPerPage] items and the next page starts right after its end;
    the last page ends at the last item; and a page past the end, as
    every page of an empty result set is, gets a range whose end lies
    before its start. *)
Theorem getItemsRange_tiles :
  forall currentPage itemsPerPage totalItems : Z,
    1 <= currentPage ->
    1 <= itemsPerPage ->
    0 <= totalItems ->
    let range := Paging.getItemsRange currentPage itemsPerPage totalItems in
    let next := Paging.getItemsRange (currentPage + 1) itemsPerPage totalItems in
    fst (Paging.getItemsRange 1 itemsPerPage totalItems) = 1
    /\ (currentPage * itemsPerPage <= totalItems ->
        snd range - fst range + 1 = itemsPerPage /\ fst next = snd range + 1)
    /\ ((currentPage - 1) * itemsPerPage < totalItems <= currentPage * itemsPerPage ->
        snd range = totalItems /\ 1 <= snd range - fst range + 1 <= itemsPerPage)
    /\ (totalItems <= (currentPage - 1) * itemsPerPage ->
        snd range = totalItems /\ snd range < fst range).
Proof.
  intros c n total Hc Hn Ht range next. unfold range, next, Paging.getItemsRange.
  cbn [fst snd]. repeat split; intros; try lia; try nia.
Qed.

Lemma getItemsRange_tiles_witness :
  snd (Paging.getItemsRange 3 20 45) = 45
  /\ snd (Paging.getItemsRange 4 20 45) < fst (Paging.getItemsRange 4 20 45).
Proof.
  split.
  - destruct (@getItemsRange_tiles 3 20 45 ltac:(lia) ltac:(lia) ltac:(lia))
      as (_ & _ & Hlast & _).
    assert (Hlast' := Hlast ltac:(lia)). destruct Hlast' as [Hend _].
    exact Hend.
  - destruct (@getItemsRange_tiles 4 20 45 ltac:(lia) ltac:(lia) ltac:(lia))
      as (_ & _ & _ & Hpast).
    apply Hpast. lia.
Defined.





(** ** The page in the URL *)









(** ** The pagination component *)

Lemma push_range_snoc n s :
  Pagination.push_range (S n) s = Pagination.push_range n s ++ [s + Z.of_nat n].
Proof.
  rewrite !push_range_seq, seq_S, map_app. reflexivity.
Qed.

Lemma push_range_in n s p :
  In p (Pagination.push_range n s) <-> s <= p < s + Z.of_nat n.
Proof.
  rewrite push_range_seq, in_map_iff. split.
  - intros (j & <- & Hj). apply in_seq in Hj. lia.
  - intros Hp. exists (Z.to_nat (p - s)). split; [lia|]. apply in_seq. lia.
Qed.

Lemma numbered_app a b :
  PaginationView.numbered (a ++ b)
  = PaginationView.numbered a ++ PaginationView.numbered b.
Proof.
  induction a as [|[b0|] a IH]; cbn [app PaginationView.numbered].
  - reflexivity.
  - destruct (PaginationView.label b0); cbn [app]; now rewrite IH.
  - now rewrite IH.
Qed.

Lemma numbered_pages c W :
  PaginationView.numbered
    (map (fun p => PaginationView.Btn
                     (PaginationView.mkButton p (PaginationView.Number p) false
                        (p =? c))) W)
  = map Some W.
Proof.
  induction W as [|p W IH]; [reflexivity|].
  cbn [map PaginationView.numbered PaginationView.label]. now rewrite IH.
Qed.

Lemma well_spaced_next a b rest :
  PaginationView.well_spaced (Some a :: Some b :: rest)
  = (b =? a + 1) && PaginationView.well_spaced (Some b :: rest).
Proof. reflexivity. Qed.

Lemma well_spaced_run n s tail :
  PaginationView.well_spaced (map Some (Pagination.push_range (S n) s) ++ tail)
  = PaginationView.well_spaced (Some (s + Z.of_nat n) :: tail).
Proof.
  revert s. induction n as [|n IH]; intros s.
  - cbn [Pagination.push_range map app]. now rewrite Z.add_0_r.
  - change (Pagination.push_range (S (S n)) s)
      with (s :: Pagination.push_range (S n) (s + 1)).
    specialize (IH (s + 1)).
    change (Pagination.push_range (S n) (s + 1))
      with ((s + 1) :: Pagination.push_range n (s + 1 + 1)) in *.
    cbn [map app] in *. rewrite well_spaced_next, Z.eqb_refl. cbn [andb].
    rewrite IH. do 3 f_equal. lia.
Qed.

Lemma flat_map_some_pages (W : list Z) :
  flat_map (fun n : option Z => match n with Some p => [p] | None => [] end)
    (map Some W) = W.
Proof.
  induction W as [|p W IH]; [reflexivity|]. cbn [map flat_map app]. now rewrite IH.
Qed.

Lemma active_in_window c n s :
  PaginationView.active_pages
    (map (fun p => PaginationView.Btn
                     (PaginationView.mkButton p (PaginationView.Number p) false
                        (p =? c))) (Pagination.push_range n s))
  = if (s <=? c) && (c <? s + Z.of_nat n) then [c] else [].
Proof.
  revert s. induction n as [|n IH]; intros s.
  - cbn [Pagination.push_range map]. unfold PaginationView.active_pages.
    cbn [flat_map].
    destruct (Z.leb_spec s c), (Z.ltb_spec c (s + Z.of_nat 0)); try reflexivity; lia.
  - change (Pagination.push_range (S n) s)
      with (s :: Pagination.push_range n (s + 1)).
    cbn [map]. unfold PaginationView.active_pages in *. cbn [flat_map].
    rewrite IH. cbn [PaginationView.active PaginationView.page].
    destruct (Z.eqb_spec s c) as [->|Hne].
    + destruct (Z.leb_spec (c + 1) c); [lia|]. cbn [andb app].
      destruct (Z.leb_spec c c); [|lia].
      destruct (Z.ltb_spec c (c + Z.of_nat (S n))); [reflexivity|lia].
    + cbn [app].
      destruct (Z.leb_spec (s + 1) c), (Z.leb_spec s c),
        (Z.ltb_spec c (s + 1 + Z.of_nat n)), (Z.ltb_spec c (s + Z.of_nat (S n)));
        cbn [andb]; try reflexivity; lia.
Qed.

Lemma active_pages_app a b :
  PaginationView.active_pages (a ++ b)
  = PaginationView.active_pages a ++ PaginationView.active_pages b.
Proof.
  unfold PaginationView.active_pages. apply flat_map_app.
Qed.

(** The line of controls, given the window of page numbers. *)
Lemma Pagination_controls c t r perPage showInfo mv :
  2 <= t -> 1 <= c <= t -> 1 <= mv ->
  exists n s,
    1 <= s /\ s + Z.of_nat n <= t /\ s <= c <= s + Z.of_nat n
    /\ PaginationView.Pagination c t r perPage showInfo mv
       = Some
           {| PaginationView.info :=
                if showInfo
                then Some (fst (Paging.getItemsRange c perPage r),
                           snd (Paging.getItemsRange c perPage r), r)
                else None;
              PaginationView.controls :=
                [PaginationView.Btn
                   (PaginationView.mkButton (c - 1) PaginationView.Previous
                      (c =? 1) false)]
                ++ (if s >? 1
                    then PaginationView.Btn
                           (PaginationView.mkButton 1 (PaginationView.Number 1)
                              false false)
                         :: (if s >? 2 then [PaginationView.Dots] else [])
                    else [])
                ++ map (fun p => PaginationView.Btn
                                   (PaginationView.mkButton p
                                      (PaginationView.Number p) false (p =? c)))
                     (Pagination.push_range (S n) s)
                ++ (if s + Z.of_nat n <? t
                    then (if s + Z.of_nat n <? t - 1
                          then [PaginationView.Dots] else [])
                         ++ [PaginationView.Btn
                               (PaginationView.mkButton t (PaginationView.Number t)
                                  false false)]
                    else [])
                ++ [PaginationView.Btn
                      (PaginationView.mkButton (c + 1) PaginationView.Next
                         (c =? t) false)] |}.
Proof.
  intros Ht Hc Hmv.
  destruct (@generatePageNumbers_window c t mv Hc ltac:(lia))
    as (s & Hw & Hs1 & Hs2 & Hs3 & _).
  specialize (Hs3 Hmv).
  exists (Z.to_nat (Z.min mv t) - 1)%nat, s.
  replace (Z.to_nat (Z.min mv t)) with (S (Z.to_nat (Z.min mv t) - 1)) in Hw by lia.
  set (n := (Z.to_nat (Z.min mv t) - 1)%nat) in *.
  assert (Hn : Z.of_nat n = Z.min mv t - 1) by lia.
  split; [exact Hs1|]. split; [lia|]. split; [lia|].
  unfold PaginationView.Pagination.
  destruct (Z.leb_spec t 1); [lia|]. rewrite Hw.
  unfold Paging.getItemsRange. cbn [fst snd].
  assert (Hlast : hd_error (rev (Pagination.push_range (S n) s))
                  = Some (s + Z.of_nat n)).
  { rewrite push_range_snoc, rev_app_distr. reflexivity. }
  rewrite Hlast.
  change (hd_error (Pagination.push_range (S n) s)) with (Some s).
  reflexivity.
Qed.

(** X12. What the pagination component shows for [totalPages >= 2], a
    current page in range and [maxVisible >= 1]: the numbered buttons
    start at page 1 and end at the last page, neighbours are consecutive
    pages or are separated by an ellipsis that stands exactly where pages
    are left out, the current page is among them and is the one button
    marked active.  Clicking a numbered button asks for its page unless it
    is the current one; "previous" and "next" ask for the neighbouring
    page and do nothing on the first and on the last page; no click asks
    for a page outside [1 .. totalPages]. *)
Theorem Pagination_view :
  forall (currentPage totalPages totalResults itemsPerPage : Z) (showInfo : bool)
         (maxVisible : Z),
    2 <= totalPages ->
    1 <= currentPage <= totalPages ->
    1 <= maxVisible ->
    exists view,
      PaginationView.Pagination currentPage totalPages totalResults itemsPerPage
        showInfo maxVisible = Some view
      /\ hd_error (PaginationView.pages_shown (PaginationView.controls view)) = Some 1
      /\ hd_error (rev (PaginationView.pages_shown (PaginationView.controls view)))
         = Some totalPages
      /\ PaginationView.well_spaced
           (PaginationView.numbered (PaginationView.controls view)) = true
      /\ In currentPage (PaginationView.pages_shown (PaginationView.controls view))
      /\ PaginationView.active_pages (PaginationView.controls view) = [currentPage]
      /\ (forall b,
            In (PaginationView.Btn b) (PaginationView.controls view) ->
            PaginationView.click currentPage totalPages b
            = match PaginationView.label b with
              | PaginationView.Previous =>
                  if currentPage =? 1 then None else Some (currentPage - 1)
              | PaginationView.Number p =>
                  if p =? currentPage then None else Some p
              | PaginationView.Next =>
                  if currentPage =? totalPages then None else Some (currentPage + 1)
              end
            /\ (forall p, PaginationView.click currentPage totalPages b = Some p ->
                          1 <= p <= totalPages /\ p <> currentPage)).
Proof.
  intros c t r perPage showInfo mv Ht Hc Hmv.
  destruct (@Pagination_controls c t r perPage showInfo mv Ht Hc Hmv)
    as (n & s & Hs1 & Hs2 & Hs3 & Hview).
  eexists. split; [exact Hview|]. cbn [PaginationView.controls].
  set (W := Pagination.push_range (S n) s).
  set (e := s + Z.of_nat n) in *.
  assert (HW : W = s :: Pagination.push_range n (s + 1)) by reflexivity.
  assert (HinW : forall p, In p W <-> s <= p <= e).
  { intros p. unfold W. rewrite push_range_in. unfold e. lia. }
  assert (Hclick : forall p, 1 <= p <= t ->
            forall a, PaginationView.click c t
                        (PaginationView.mkButton p (PaginationView.Number p) false a)
                      = (if p =? c then None else Some p)).
  { intros p Hp a. unfold PaginationView.click.
    cbn [PaginationView.disabled PaginationView.page].
    destruct (Z.eqb_spec p c); [reflexivity|]. cbn [negb andb].
    rewrite Z.geb_leb.
    destruct (Z.leb_spec 1 p), (Z.leb_spec p t); try lia. reflexivity. }
  assert (Hguard : forall b p, PaginationView.click c t b = Some p ->
            1 <= p <= t /\ p <> c).
  { intros b p. unfold PaginationView.click.
    destruct (PaginationView.disabled b); [discriminate|].
    rewrite Z.geb_leb.
    destruct (Z.eqb_spec (PaginationView.page b) c); [discriminate|].
    destruct (Z.leb_spec 1 (PaginationView.page b)); [|discriminate].
    destruct (Z.leb_spec (PaginationView.page b) t); [|discriminate].
    cbn [negb andb]. intros [= <-]. lia. }
  split; [|split; [|split; [|split; [|split; [|]]]]].
  - unfold PaginationView.pages_shown. rewrite !numbered_app, numbered_pages.
    cbn [PaginationView.numbered PaginationView.label app].
    rewrite Z.gtb_ltb. destruct (Z.ltb_spec 1 s) as [Hgt|Hle].
    + reflexivity.
    + fold W. rewrite HW.
      cbn [PaginationView.numbered map app flat_map hd_error].
      f_equal. lia.
  - unfold PaginationView.pages_shown. rewrite !numbered_app, numbered_pages.
    rewrite !flat_map_app, flat_map_some_pages, !rev_app_distr.
    fold W. unfold W at 1. rewrite push_range_snoc, rev_app_distr. fold e.
    destruct (Z.ltb_spec e t) as [Hlt|Hge].
    + rewrite numbered_app. cbn [PaginationView.numbered PaginationView.label].
      rewrite flat_map_app, rev_app_distr. reflexivity.
    + cbn [PaginationView.numbered PaginationView.label flat_map rev app hd_error].
      f_equal. lia.
  - rewrite !numbered_app, numbered_pages. fold W.
    cbn [PaginationView.numbered PaginationView.label app].
    assert (Htail :
      PaginationView.well_spaced
        (map Some W ++
         PaginationView.numbered
           (if e <? t
            then (if e <? t - 1 then [PaginationView.Dots] else [])
                 ++ [PaginationView.Btn
                       (PaginationView.mkButton t (PaginationView.Number t)
                          false false)]
            else []) ++ []) = true).
    { unfold W. rewrite well_spaced_run. fold e.
      destruct (Z.ltb_spec e t) as [Hlt|Hge].
      - destruct (Z.ltb_spec e (t - 1)) as [Hlt'|Hge'];
          cbn [app PaginationView.numbered PaginationView.label
               PaginationView.well_spaced].
        + destruct (Z.ltb_spec (e + 1) t); [reflexivity|lia].
        + destruct (Z.eqb_spec t (e + 1)); [reflexivity|lia].
      - reflexivity. }
    rewrite Z.gtb_ltb. destruct (Z.ltb_spec 1 s) as [Hgt|Hle]; [|exact Htail].
    rewrite Z.gtb_ltb. revert Htail. rewrite HW. cbn [map app].
    destruct (Z.ltb_spec 2 s) as [Hgt2|Hle2];
      cbn [app PaginationView.numbered PaginationView.label
           PaginationView.well_spaced]; intros ->.
    + destruct (Z.ltb_spec (1 + 1) s); [reflexivity|lia].
    + destruct (Z.eqb_spec s (1 + 1)); [reflexivity|lia].
  - unfold PaginationView.pages_shown. rewrite !numbered_app, numbered_pages.
    rewrite !flat_map_app, flat_map_some_pages. fold W.
    apply in_or_app. right. apply in_or_app. right. apply in_or_app. left.
    apply HinW. unfold e. lia.
  - unfold W. rewrite !active_pages_app, active_in_window.
    destruct (Z.leb_spec s c); [|lia].
    destruct (Z.ltb_spec c (s + Z.of_nat (S n))); [|unfold e in *; lia].
    cbn [andb]. unfold PaginationView.active_pages.
    destruct (s >? 1), (s >? 2), (e <? t), (e <? t - 1); reflexivity.
  - intros b Hb. split; [|apply Hguard].
    apply in_app_or in Hb. destruct Hb as [Hb|Hb].
    { destruct Hb as [[= <-]|[]]. unfold PaginationView.click.
      cbn [PaginationView.disabled PaginationView.page PaginationView.label].
      destruct (Z.eqb_spec c 1); [reflexivity|]. rewrite Z.geb_leb.
      destruct (Z.eqb_spec (c - 1) c); [lia|].
      destruct (Z.leb_spec 1 (c - 1)), (Z.leb_spec (c - 1) t); try lia.
      reflexivity. }
    apply in_app_or in Hb. destruct Hb as [Hb|Hb].
    { destruct (s >? 1); [|destruct Hb].
      destruct Hb as [[= <-]|Hb].
      - cbn [PaginationView.label]. apply Hclick. lia.
      - destruct (s >? 2); [|destruct Hb]. destruct Hb as [Hb|[]]. discriminate. }
    apply in_app_or in Hb. destruct Hb as [Hb|Hb].
    { apply in_map_iff in Hb. destruct Hb as (p & [= <-] & Hp).
      cbn [PaginationView.label]. apply Hclick. apply HinW in Hp. lia. }
    apply in_app_or in Hb. destruct Hb as [Hb|Hb].
    { destruct (e <? t); [|destruct Hb].
      apply in_app_or in Hb. destruct Hb as [Hb|Hb].
      - destruct (e <? t - 1); [|destruct Hb]. destruct Hb as [Hb|[]]. discriminate.
      - destruct Hb as [[= <-]|[]]. cbn [PaginationView.label]. apply Hclick. lia. }
    destruct Hb as [[= <-]|[]]. unfold PaginationView.click.
    cbn [PaginationView.disabled PaginationView.page PaginationView.label].
    destruct (Z.eqb_spec c t); [reflexivity|]. rewrite Z.geb_leb.
    destruct (Z.eqb_spec (c + 1) c); [lia|].
    destruct (Z.leb_spec 1 (c + 1)), (Z.leb_spec (c + 1) t); try lia.
    reflexivity.
Qed.

Lemma Pagination_view_witness :
  exists view,
    PaginationView.Pagination 5 10 200 20 true 5 = Some view
    /\ PaginationView.active_pages (PaginationView.controls view) = [5].
Proof.
  destruct (@Pagination_view 5 10 200 20 true 5 ltac:(lia) ltac:(lia) ltac:(lia))
    as (view & Hview & _ & _ & _ & _ & Hactive & _).
  exists view. split; assumption.
Defined.

(** ** Messages, keys and formatting *)

(** X13. The message [handleApiError] returns is never empty, whatever
    the error object holds; and for an error made by [new Error(message)],
    which has neither a response nor a request, it is that message, or
    the fallback text when the message is empty. *)
Theorem handleApiError_never_empty :
  forall (num_to_string : Z -> string) (error : Helpers.ErrorObject),
    Helpers.handleApiError num_to_string error <> ""
    /\ forall m,
         Helpers.handleApiError num_to_string (Helpers.plain_error m)
         = if truthy_str m then m else "An unexpected error occurred.".
Proof.
  intros nts error. split.
  - unfold Helpers.handleApiError.
    destruct (Helpers.response error) as [r|].
    + destruct (Helpers.status r =? 401); [discriminate|].
      destruct (Helpers.status r =? 404); [discriminate|].
      destruct (Helpers.status r =? 429); [discriminate|].
      destruct (Helpers.status r =? 500); discriminate.
    + destruct (Helpers.request error); [discriminate|].
      destruct (Helpers.message error) as [[|a m]|]; discriminate.
  - intros [|a m]; reflexivity.
Qed.

(** X14. The two checks of the API keys agree: [ApiService.isConfigured],
    which reads the keys the clients took from the configuration, reports
    what [validateApiKeys] reports on the environment.  The message of
    [getApiKeyErrorMessage] is [null] exactly when both keys are set, and
    whenever the primary key is reported missing, the case in which the
    application shows the message, it is a text that names TMDB first. *)
Theorem api_key_checks_agree :
  forall env : Helpers.Env,
    let v := Helpers.validateApiKeys env in
    Helpers.isConfigured env = (Helpers.tmdb v, Helpers.omdb v, Helpers.both v)
    /\ (Helpers.getApiKeyErrorMessage env = None <-> Helpers.both v = true)
    /\ (Helpers.tmdb v = false ->
        exists rest,
          Helpers.getApiKeyErrorMessage env
          = Some ("Missing API keys: TMDB" ++ rest)%string).
Proof.
  intros [[[|a s]|] [[|b s']|]]; cbv zeta; repeat split;
    try discriminate; try reflexivity;
    intros _; eexists; reflexivity.
Qed.

(** X15. [getRatingColor] and [getRatingBgColor] always pick the same
    band, so the text and the background of a rating cannot disagree; a
    rating that is not a number gets the lowest band. *)
Theorem rating_colours_agree :
  forall rating : JsNum,
    (exists colour,
       In colour ["green"; "yellow"; "orange"; "red"]
       /\ Helpers.getRatingColor rating = ("text-" ++ colour ++ "-400")%string
       /\ Helpers.getRatingBgColor rating = ("bg-" ++ colour ++ "-600")%string)
    /\ (rating = NaN -> Helpers.getRatingColor rating = "text-red-400").
Proof.
  intros rating. split; [|intros ->; reflexivity].
  unfold Helpers.getRatingColor, Helpers.getRatingBgColor.
  destruct (Helpers.at_least 8 rating);
    [exists "green"; cbn [In]; repeat split; auto|].
  destruct (Helpers.at_least 6 rating);
    [exists "yellow"; cbn [In]; repeat split; auto|].
  destruct (Helpers.at_least 4 rating);
    [exists "orange"; cbn [In]; repeat split; auto|].
  exists "red"; cbn [In]; repeat split; auto.
Qed.

Lemma string_length_append (a b : string) :
  String.length (a ++ b) = (String.length a + String.length b)%nat.
Proof.
  induction a as [|c a IH]; [reflexivity|]. cbn [append String.length]. now rewrite IH.
Qed.

Lemma substring_length_le (m : nat) (s : string) :
  (String.length (substring 0 m s) <= m)%nat.
Proof.
  revert s. induction m as [|m IH]; intros [|c s]; cbn [substring String.length];
    try lia. specialize (IH s). lia.
Qed.

Lemma substring_length_exact (m : nat) (s : string) :
  (m <= String.length s)%nat -> String.length (substring 0 m s) = m.
Proof.
  revert s. induction m as [|m IH]; intros [|c s]; cbn [substring String.length];
    try lia. intros Hm. rewrite IH; lia.
Qed.

(** X16. For a limit [maxLength >= 0], and a [trim] that never makes a
    string longer, [truncateText] returns a text of at most
    [maxLength + 3] characters: the text itself when it has at most
    [maxLength] characters, and otherwise at most [maxLength] characters
    followed by three dots.  When [trim] leaves the first [maxLength]
    characters of a longer text as they are, the result has exactly
    [maxLength + 3] characters, so that such a text one or two
    characters over the limit is not made shorter. *)
Theorem truncateText_bounded :
  forall (trim : string -> string),
    (forall s, (String.length (trim s) <= String.length s)%nat) ->
    forall (text : string) (maxLength : Z),
      0 <= maxLength ->
      exists out,
        Helpers.truncateText trim (Some text) maxLength = Some out
        /\ Z.of_nat (String.length out) <= maxLength + 3
        /\ (Z.of_nat (String.length text) <= maxLength -> out = text)
        /\ (maxLength < Z.of_nat (String.length text) ->
            (exists body,
               out = (body ++ "...")%string
               /\ Z.of_nat (String.length body) <= maxLength)
            /\ (trim (substring 0 (Z.to_nat maxLength) text)
                = substring 0 (Z.to_nat maxLength) text ->
                Z.of_nat (String.length out) = maxLength + 3
                /\ (Z.of_nat (String.length text) <= maxLength + 2 ->
                    (String.length text < String.length out)%nat))).
Proof.
  intros trim Htrim text maxLength Hmax. unfold Helpers.truncateText.
  destruct (Z.leb_spec (Z.of_nat (String.length text)) maxLength) as [Hle|Hgt].
  - rewrite Bool.orb_true_r. exists text. repeat split; try lia.
  - destruct text as [|c text]; [cbn [String.length] in Hgt; lia|].
    cbn [truthy_str negb orb]. eexists. split; [reflexivity|].
    pose proof (Htrim (substring 0 (Z.to_nat maxLength) (String c text))) as H1.
    pose proof (substring_length_le (Z.to_nat maxLength) (String c text)) as H2.
    pose proof (@substring_length_exact (Z.to_nat maxLength) (String c text)) as H3.
    rewrite string_length_append. cbn [String.length] in Hgt, H3 |- *.
    split; [lia|]. split; [intros; lia|]. intros _. split.
    + eexists. split; [reflexivity|]. lia.
    + intros ->. rewrite H3 by lia. split; [lia|]. intros Hnear. lia.
Qed.

Lemma truncateText_bounded_witness :
  exists out,
    Helpers.truncateText (fun s => s) (Some "The quick brown fox") 9 = Some out
    /\ Z.of_nat (String.length out) <= 9 + 3.
Proof.
  destruct (@truncateText_bounded (fun s => s) (fun s => le_n _)
              "The quick brown fox" 9 ltac:(lia))
    as (out & Hout & Hlen & _).
  exists out. split; assumption.
Defined.

(** ** The loading flags *)

Lemma LoadingManager_run_snoc m ops o :
  LoadingManager.run m (ops ++ [o]) = LoadingManager.step (LoadingManager.run m ops) o.
Proof.
  unfold LoadingManager.run. now rewrite fold_left_app.
Qed.

(** X17. After any calls of [setLoading] and [clearAll] on a new
    [LoadingManager], [isLoading(key)] is the flag of the latest
    [setLoading] for that key since the latest [clearAll], and false when
    there is none: flags of other keys and earlier flags of the same key
    have no effect. *)
Theorem LoadingManager_isLoading_latest :
  forall (ops : list LoadingManager.Op) (key : string),
    LoadingManager.isLoading (LoadingManager.run LoadingManager.new ops) key
    = LoadingManager.latest key (rev ops).
Proof.
  intros ops key. induction ops as [|o ops IH] using rev_ind; [reflexivity|].
  rewrite LoadingManager_run_snoc, rev_app_distr. cbn [rev app].
  destruct o as [k b|]; cbn [LoadingManager.step LoadingManager.latest].
  - unfold LoadingManager.isLoading, LoadingManager.setLoading in *.
    cbn [LoadingManager.loadingStates].
    destruct (String.eqb_spec k key) as [->|Hne].
    + now rewrite JsMap_get_set_eq.
    + rewrite JsMap_get_set_ne by exact Hne. exact IH.
  - reflexivity.
Qed.

(** ** The genre registry when a request fails *)

Lemma complete_two (order : list nat) :
  Promise.complete 2 order -> order = [0; 1]%nat \/ order = [1; 0]%nat.
Proof.
  unfold Promise.complete. cbn [seq]. intros H.
  apply Permutation_sym, Permutation_length_2_inv in H. exact H.
Qed.

Lemma getMovieGenres_cases (http : string -> Res ApiError Tmdb.GenresPayload) :
  Tmdb.getMovieGenres http
  = match http Tmdb.GENRES_MOVIE with
    | Ok response => Ok (Tmdb.genres response)
    | Throw _ => Throw (OtherError "Failed to fetch movie genres")
    end.
Proof.
  unfold Tmdb.getMovieGenres, try_catch, bind.
  destruct (http Tmdb.GENRES_MOVIE); reflexivity.
Qed.

Lemma getTVGenres_cases (http : string -> Res ApiError Tmdb.GenresPayload) :
  Tmdb.getTVGenres http
  = match http Tmdb.GENRES_TV with
    | Ok response => Ok (Tmdb.genres response)
    | Throw _ => Throw (OtherError "Failed to fetch TV genres")
    end.
Proof.
  unfold Tmdb.getTVGenres, try_catch, bind.
  destruct (http Tmdb.GENRES_TV); reflexivity.
Qed.

(** [getGenres] returns once both requests have settled. *)
Lemma getGenres_returns svc http order :
  Promise.complete 2 order ->
  exists o, ApiService.getGenres svc http order = Some o.
Proof.
  intros Horder. unfold ApiService.getGenres.
  destruct (JsMap.get "all" (ApiService.genreCache svc)); [eexists; reflexivity|].
  rewrite getMovieGenres_cases, getTVGenres_cases.
  destruct (complete_two Horder) as [-> | ->];
    destruct (http Tmdb.GENRES_MOVIE) as [[[m|]]|], (http Tmdb.GENRES_TV) as [[[t|]]|];
    eexists; reflexivity.
Qed.

(** X18. When the registry is not cached and a genre request fails,
    [getGenres] throws the error of the client, whose message is
    'Failed to fetch movie genres' or 'Failed to fetch TV genres' whatever
    the failure of the request was; with one request failing it is the
    message of that request.  Nothing is cached, so the next call requests
    both lists again, and [handleApiError] turns the error into that same
    message: its texts for the status of a response are not reached. *)
Theorem getGenres_failure_not_cached :
  forall (svc : ApiService.t) (http : string -> Res ApiError Tmdb.GenresPayload)
         (order : list nat),
    JsMap.get "all" (ApiService.genreCache svc) = None ->
    Promise.complete 2 order ->
    (exists e, http Tmdb.GENRES_MOVIE = Throw e)
    \/ (exists e, http Tmdb.GENRES_TV = Throw e) ->
    exists m,
      ApiService.getGenres svc http order
      = Some (ApiService.mkGenresOutcome (Throw (OtherError m)) svc
                [Tmdb.GENRES_MOVIE; Tmdb.GENRES_TV])
      /\ (m = "Failed to fetch movie genres" \/ m = "Failed to fetch TV genres")
      /\ ((exists r, http Tmdb.GENRES_TV = Ok r) -> m = "Failed to fetch movie genres")
      /\ ((exists r, http Tmdb.GENRES_MOVIE = Ok r) -> m = "Failed to fetch TV genres")
      /\ forall num_to_string,
           Helpers.handleApiError num_to_string (Helpers.plain_error m) = m.
Proof.
  intros svc http order Hmiss Horder Hfail. unfold ApiService.getGenres.
  rewrite Hmiss, getMovieGenres_cases, getTVGenres_cases.
  destruct (complete_two Horder) as [-> | ->];
    destruct (http Tmdb.GENRES_MOVIE) as [[[mg|]]|em] eqn:Hm,
             (http Tmdb.GENRES_TV) as [[[tg|]]|et] eqn:Ht;
    try (exfalso; destruct Hfail as [[e He]|[e He]]; discriminate);
    eexists; (split; [reflexivity|]);
    (split; [solve [left; reflexivity | right; reflexivity]|]);
    (split; [intros [r Hr]; solve [reflexivity | discriminate]|]);
    (split; [intros [r Hr]; solve [reflexivity | discriminate]|]);
    intros nts; reflexivity.
Qed.

Lemma getGenres_failure_not_cached_witness :
  exists m,
    ApiService.getGenres ApiService.new Outage.unauthorized [1; 0]%nat
    = Some (ApiService.mkGenresOutcome (Throw (OtherError m)) ApiService.new
              [Tmdb.GENRES_MOVIE; Tmdb.GENRES_TV]).
Proof.
  destruct (@getGenres_failure_not_cached ApiService.new Outage.unauthorized
              [1; 0]%nat eq_refl (perm_swap 0%nat 1%nat [])
              (or_introl (ex_intro _ (HttpError 401) eq_refl)))
    as (m & Hm & _).
  exists m. exact Hm.
Defined.

(** X19. [convertGenreIds] returns once [getGenres] has: with the
    registry cached it requests nothing and gives one name per id, in the
    order of the ids, the name of the first genre with that id or
    'Unknown'; when [getGenres] fails it gives the empty array, which is
    also its answer to no ids at all, and leaves the service as it was.
    In every case the result is empty or as long as the list of ids. *)
Theorem convertGenreIds_names :
  forall (svc : ApiService.t) (http : string -> Res ApiError Tmdb.GenresPayload)
         (order : list nat) (genreIds : list Z),
    Promise.complete 2 order ->
    exists o,
      GenreNames.convertGenreIds svc http order genreIds = Some o
      /\ (GenreNames.names o = []
          \/ List.length (GenreNames.names o) = List.length genreIds)
      /\ (forall cached,
            JsMap.get "all" (ApiService.genreCache svc) = Some cached ->
            GenreNames.requests o = []
            /\ GenreNames.service o = svc
            /\ List.length (GenreNames.names o) = List.length genreIds
            /\ forall i id,
                 nth_error genreIds i = Some id ->
                 nth_error (GenreNames.names o) i
                 = Some match ApiService.first_name id cached with
                        | Some name => name
                        | None => "Unknown"
                        end)
      /\ (forall e o',
            ApiService.getGenres svc http order = Some o' ->
            ApiService.result o' = Throw e ->
            GenreNames.names o = [] /\ GenreNames.service o = svc).
Proof.
  intros svc http order genreIds Horder. unfold GenreNames.convertGenreIds.
  destruct (@getGenres_returns svc http order Horder) as [o' Ho']. rewrite Ho'.
  assert (Hsvc : forall e, ApiService.result o' = Throw e -> ApiService.service o' = svc).
  { intros e He. revert Ho'. unfold ApiService.getGenres.
    destruct (JsMap.get "all" (ApiService.genreCache svc)).
    - intros [= <-]. discriminate.
    - destruct (Promise.all _ order) as [[values|e']|]; [| |discriminate].
      + destruct (nth 0 values None), (nth 1 values None); intros [= <-];
          try reflexivity; discriminate.
      + intros [= <-]. reflexivity. }
  destruct (ApiService.result o') as [genres|e] eqn:Hres.
  - eexists. split; [reflexivity|]. cbn [GenreNames.names GenreNames.requests
                                         GenreNames.service].
    split; [right; apply length_map|]. split.
    + intros cached Hcached. revert Ho' Hres. unfold ApiService.getGenres.
      rewrite Hcached. intros [= <-]. cbn [ApiService.result ApiService.requests
                                            ApiService.service].
      intros [= <-]. split; [reflexivity|]. split; [reflexivity|].
      split; [apply length_map|]. intros i id Hi.
      rewrite nth_error_map, Hi. cbn [option_map]. f_equal.
      unfold GenreNames.name_of, ApiService.first_name.
      destruct (find _ _); reflexivity.
    + intros e o'' [= <-] He. congruence.
  - eexists. split; [reflexivity|]. cbn [GenreNames.names GenreNames.requests
                                         GenreNames.service].
    split; [left; reflexivity|]. split.
    + intros cached Hcached. revert Ho' Hres. unfold ApiService.getGenres.
      rewrite Hcached. intros [= <-]. discriminate.
    + intros e' o'' _ _. split; [reflexivity|]. now apply (Hsvc e).
Qed.

Lemma convertGenreIds_names_witness :
  exists o,
    GenreNames.convertGenreIds ApiService.new Outage.unauthorized [0; 1]%nat [28; 18]
    = Some o
    /\ (GenreNames.names o = [] \/ List.length (GenreNames.names o) = 2%nat).
Proof.
  destruct (@convertGenreIds_names ApiService.new Outage.unauthorized [0; 1]%nat
              [28; 18] (Permutation_refl _))
    as (o & Ho & Hlen & _).
  exists o. split; assumption.
Defined.

(** ** The lookups of the secondary source *)

Lemma add_rating_ok js ratingMap rating :
  (exists m, Omdb.add_rating js ratingMap rating = Ok m)
  <-> OmdbSearch.rating_ok rating = true.
Proof.
  unfold Omdb.add_rating, OmdbSearch.rating_ok.
  destruct (Omdb.is_source rating "Internet Movie Database"); cbn [orb].
  { destruct (Omdb.Value rating); split; intros H; try reflexivity;
      try (eexists; reflexivity); try discriminate; destruct H; discriminate. }
  destruct (Omdb.is_source rating "Rotten Tomatoes"); cbn [orb].
  { destruct (Omdb.Value rating); split; intros H; try reflexivity;
      try (eexists; reflexivity); try discriminate; destruct H; discriminate. }
  destruct (Omdb.is_source rating "Metacritic"); cbn [orb].
  { destruct (Omdb.Value rating); split; intros H; try reflexivity;
      try (eexists; reflexivity); try discriminate; destruct H; discriminate. }
  destruct (Omdb.Source rating); split; intros H; try reflexivity;
    try (eexists; reflexivity); try discriminate; destruct H; discriminate.
Qed.

Lemma transformRatings_from_ok js ratings :
  forall ratingMap,
    (exists m, Omdb.transformRatings_from js ratingMap ratings = Ok m)
    <-> forallb OmdbSearch.rating_ok ratings = true.
Proof.
  induction ratings as [|rating rest IH]; intros ratingMap;
    cbn [Omdb.transformRatings_from forallb].
  - split; [reflexivity|]. intros _. eexists. reflexivity.
  - unfold bind. rewrite Bool.andb_true_iff, <- (add_rating_ok js ratingMap rating).
    destruct (Omdb.add_rating js ratingMap rating) as [m'|e].
    + rewrite <- (IH m'). split.
      * intros H. split; [eexists; reflexivity|exact H].
      * intros [_ H]. exact H.
    + split.
      * intros [m H]. discriminate.
      * intros [[m H] _]. discriminate.
Qed.

Lemma transformOMDBData_ok js data :
  (exists item, Omdb.transformOMDBData js data = Ok item)
  <-> OmdbSearch.payload_ok data = true.
Proof.
  unfold Omdb.transformOMDBData, OmdbSearch.payload_ok, Omdb.transformRatings, bind.
  rewrite Bool.andb_true_iff, <- (transformRatings_from_ok js _ (JsMap.empty _)).
  destruct (Omdb.transformRatings_from js _ _) as [m|e].
  - unfold Omdb.votes_unless_na. destruct (Omdb.raw_imdbVotes data) as [v|].
    + split.
      * intros _. split; [eexists; reflexivity|reflexivity].
      * intros _. destruct (String.eqb v "N/A"); eexists; reflexivity.
    + split.
      * intros [item H]. discriminate.
      * intros [_ H]. discriminate.
  - split.
    + intros [item H]. discriminate.
    + intros [[m H] _]. discriminate.
Qed.

Lemma omdb_lookup_total js (http_id : string -> Res ApiError Omdb.Raw) imdbId :
  exists r, OmdbSearch.searchByIMDBId js http_id imdbId = Ok r.
Proof.
  unfold OmdbSearch.searchByIMDBId, try_catch, bind.
  destruct (http_id imdbId) as [data|e]; [|eexists; reflexivity].
  destruct (Omdb.is_false (Omdb.Response data)); [eexists; reflexivity|].
  destruct (Omdb.transformOMDBData js data); eexists; reflexivity.
Qed.

(** X20. The two lookups of one record never throw: [searchByIMDBId] and
    [searchByTitle] resolve to a record exactly when the request
    succeeds, the answer is not marked [Response: 'False'] and the
    payload can be read (every rating has the member its source needs and
    [imdbVotes] is present), and to [null] in every other case; on the
    same answer both give the same result. *)
Theorem omdb_lookup_found :
  forall (js : Js.Builtins) (http_id : string -> Res ApiError Omdb.Raw)
         (http_title : Omdb.Params -> Res ApiError Omdb.Raw)
         (imdbId title : string) (year : option JsVal) (type : option string),
    let params :=
      {| Omdb.t := title;
         Omdb.y := Omdb.when_truthy truthy_val year;
         Omdb.param_type := Omdb.when_truthy truthy_str type |} in
    (exists r,
       OmdbSearch.searchByIMDBId js http_id imdbId = Ok r
       /\ (r <> None <->
           exists data,
             http_id imdbId = Ok data
             /\ Omdb.is_false (Omdb.Response data) = false
             /\ OmdbSearch.payload_ok data = true))
    /\ (exists r,
          Omdb.searchByTitle js http_title title year type = Ok r
          /\ (r <> None <->
              exists data,
                http_title params = Ok data
                /\ Omdb.is_false (Omdb.Response data) = false
                /\ OmdbSearch.payload_ok data = true))
    /\ (forall data,
          http_id imdbId = Ok data ->
          http_title params = Ok data ->
          OmdbSearch.searchByIMDBId js http_id imdbId
          = Omdb.searchByTitle js http_title title year type).
Proof.
  intros js http_id http_title imdbId title year type params.
  assert (Hone : forall answer : Res ApiError Omdb.Raw,
            exists r,
              try_catch
                (data <- answer ;;
                 if Omdb.is_false (Omdb.Response data) then Ok None
                 else item <- Omdb.transformOMDBData js data ;; Ok (Some item))
                (fun _ => Ok None) = Ok r
              /\ (r <> None <->
                  exists data,
                    answer = Ok data
                    /\ Omdb.is_false (Omdb.Response data) = false
                    /\ OmdbSearch.payload_ok data = true)).
  { intros [data|e]; unfold try_catch, bind.
    - destruct (Omdb.is_false (Omdb.Response data)) eqn:Hfalse.
      + exists None. split; [reflexivity|]. split; [congruence|].
        intros (d & [= <-] & H & _). congruence.
      + pose proof (transformOMDBData_ok js data) as Hok.
        destruct (Omdb.transformOMDBData js data) as [item|e'].
        * exists (Some item). split; [reflexivity|]. split; [|discriminate].
          intros _. exists data. repeat split; auto. apply Hok. eexists. reflexivity.
        * exists None. split; [reflexivity|]. split; [congruence|].
          intros (d & [= <-] & _ & H). apply Hok in H. destruct H. discriminate.
    - exists None. split; [reflexivity|]. split; [congruence|].
      intros (d & H & _). discriminate. }
  split; [apply (Hone (http_id imdbId))|].
  split; [apply (Hone (http_title params))|].
  intros data Hid Htitle. unfold OmdbSearch.searchByIMDBId, Omdb.searchByTitle.
  fold params. now rewrite Hid, Htitle.
Qed.

(** X21. [search] never throws: it resolves to one result per entry of
    the answer's [Search] array, in its order, and to the empty array
    when the request fails, the answer is marked [Response: 'False'] or
    has no [Search] array.  No result carries the poster 'N/A'. *)
Theorem omdb_search_never_throws :
  forall (http_search : OmdbSearch.SearchParams -> Res ApiError OmdbSearch.SearchPayload)
         (query : string) (page : Z) (type : option string),
    let params :=
      {| OmdbSearch.s := query; OmdbSearch.page := page;
         OmdbSearch.param_type := Omdb.when_truthy truthy_str type |} in
    exists results,
      OmdbSearch.search http_search query page type = Ok results
      /\ (forall data items,
            http_search params = Ok data ->
            Omdb.is_false (OmdbSearch.Response data) = false ->
            OmdbSearch.Search data = Some items ->
            results = map OmdbSearch.transformSearchResult items
            /\ List.length results = List.length items)
      /\ ((forall data,
             http_search params = Ok data ->
             Omdb.is_false (OmdbSearch.Response data) = true
             \/ OmdbSearch.Search data = None) ->
          results = [])
      /\ (forall r, In r results -> OmdbSearch.poster r <> Some "N/A").
Proof.
  intros http_search query page type params.
  unfold OmdbSearch.search, try_catch, bind. fold params.
  assert (Hposter : forall items r,
            In r (map OmdbSearch.transformSearchResult items) ->
            OmdbSearch.poster r <> Some "N/A").
  { intros items r Hr. apply in_map_iff in Hr. destruct Hr as (item & <- & _).
    unfold OmdbSearch.transformSearchResult. cbn [OmdbSearch.poster].
    unfold Omdb.unless_na. destruct (OmdbSearch.Poster item) as [p|]; [|discriminate].
    destruct (String.eqb_spec p "N/A"); congruence. }
  destruct (http_search params) as [data|e].
  - destruct (Omdb.is_false (OmdbSearch.Response data)) eqn:Hfalse.
    + exists []. split; [reflexivity|]. split; [|split].
      * intros d items [= <-]. congruence.
      * reflexivity.
      * intros r [].
    + destruct (OmdbSearch.Search data) as [items|] eqn:Hsearch.
      * eexists. split; [reflexivity|]. split; [|split].
        -- intros d its [= <-] _. rewrite Hsearch. intros [= <-].
           split; [reflexivity|apply length_map].
        -- intros H. destruct (H data eq_refl); congruence.
        -- apply Hposter.
      * exists []. split; [reflexivity|]. split; [|split].
        -- intros d its [= <-] _. congruence.
        -- reflexivity.
        -- intros r [].
  - exists []. split; [reflexivity|]. split; [|split].
    + intros d items H. discriminate.
    + reflexivity.
    + intros r [].
Qed.

(** ** Details of one title *)

(** X22. [getContentDetails] for a type other than 'movie' and 'tv'
    throws 'Invalid content type' without a request; a failure of the
    primary source is thrown on as it is and the secondary source is not
    asked.  When the primary source answers, the call does not throw and
    returns a record with the id of that answer: the one merged with the
    lookup by IMDb id when the answer has such an id and the lookup
    finds a record, in which case the lookup by title is not made; else
    the one merged with the lookup by title; and the answer itself, not
    merged, when no lookup finds a record. *)
Theorem getContentDetails_cases :
  forall (js : Js.Builtins) (getMovieDetails getTVDetails : Z -> Res ApiError Tmdb.Item)
         (http_id : string -> Res ApiError Omdb.Raw)
         (http_title : Omdb.Params -> Res ApiError Omdb.Raw)
         (id : Z) (type : string),
    let o :=
      Details.getContentDetails js getMovieDetails getTVDetails http_id http_title
        id type in
    let primary :=
      if String.eqb type "movie" then getMovieDetails id else getTVDetails id in
    let request :=
      if String.eqb type "movie" then Details.TmdbMovieDetails id
      else Details.TmdbTVDetails id in
    (type <> "movie" -> type <> "tv" ->
     o = Details.mkOutcome (Throw (OtherError "Invalid content type")) [])
    /\ (type = "movie" \/ type = "tv" ->
        (forall e, primary = Throw e -> o = Details.mkOutcome (Throw e) [request])
        /\ forall tmdbData,
             primary = Ok tmdbData ->
             let by_id :=
               match Tmdb.imdbId tmdbData with
               | Some imdbId =>
                   if truthy_str imdbId
                   then match OmdbSearch.searchByIMDBId js http_id imdbId with
                        | Ok (Some omdbData) => Some (imdbId, Some omdbData)
                        | _ => Some (imdbId, None)
                        end
                   else None
               | None => None
               end in
             let by_title :=
               Omdb.searchByTitle js http_title (Tmdb.title (Tmdb.core tmdbData))
                 (Some (Tmdb.year (Tmdb.core tmdbData)))
                 (Omdb.getOMDBType (Tmdb.type (Tmdb.core tmdbData))) in
             exists d,
               Details.result o = Ok d
               /\ Details.details_id d = Tmdb.id (Tmdb.core tmdbData)
               /\ hd_error (Details.requests o) = Some request
               /\ match by_id, by_title with
                  | Some (imdbId, Some omdbData), _ =>
                      d = Details.Detailed
                            (ApiService.mergeDetailedData tmdbData omdbData)
                      /\ Details.requests o = [request; Details.OmdbById imdbId]
                  | _, Ok (Some omdbData) =>
                      d = Details.Detailed
                            (ApiService.mergeDetailedData tmdbData omdbData)
                  | _, _ => d = Details.Unmerged tmdbData
                  end).
Proof.
  intros js getMovieDetails getTVDetails http_id http_title id type o primary request.
  assert (Htitle : forall tmdbData sent,
            exists d,
              Details.result (Details.by_title js http_title tmdbData sent) = Ok d
              /\ Details.details_id d = Tmdb.id (Tmdb.core tmdbData)
              /\ Details.requests (Details.by_title js http_title tmdbData sent)
                 = sent ++ [Details.OmdbByTitle (ApiService.params_of tmdbData)]
              /\ match Omdb.searchByTitle js http_title
                         (Tmdb.title (Tmdb.core tmdbData))
                         (Some (Tmdb.year (Tmdb.core tmdbData)))
                         (Omdb.getOMDBType (Tmdb.type (Tmdb.core tmdbData))) with
                 | Ok (Some omdbData) =>
                     d = Details.Detailed
                           (ApiService.mergeDetailedData tmdbData omdbData)
                 | _ => d = Details.Unmerged tmdbData
                 end).
  { intros tmdbData sent. unfold Details.by_title.
    destruct (@searchByTitle_ok js http_title (Tmdb.title (Tmdb.core tmdbData))
                (Some (Tmdb.year (Tmdb.core tmdbData)))
                (Omdb.getOMDBType (Tmdb.type (Tmdb.core tmdbData)))) as [r Hr].
    rewrite Hr. destruct r as [omdbData|]; eexists; repeat split. }
  assert (Henrich : forall tmdbData r,
            exists d,
              Details.result (Details.enrich js http_id http_title tmdbData [r]) = Ok d
              /\ Details.details_id d = Tmdb.id (Tmdb.core tmdbData)
              /\ hd_error (Details.requests
                             (Details.enrich js http_id http_title tmdbData [r]))
                 = Some r
              /\ match
                   match Tmdb.imdbId tmdbData with
                   | Some imdbId =>
                       if truthy_str imdbId
                       then match OmdbSearch.searchByIMDBId js http_id imdbId with
                            | Ok (Some omdbData) => Some (imdbId, Some omdbData)
                            | _ => Some (imdbId, None)
                            end
                       else None
                   | None => None
                   end,
                   Omdb.searchByTitle js http_title (Tmdb.title (Tmdb.core tmdbData))
                     (Some (Tmdb.year (Tmdb.core tmdbData)))
                     (Omdb.getOMDBType (Tmdb.type (Tmdb.core tmdbData)))
                 with
                 | Some (imdbId, Some omdbData), _ =>
                     d = Details.Detailed
                           (ApiService.mergeDetailedData tmdbData omdbData)
                     /\ Details.requests
                          (Details.enrich js http_id http_title tmdbData [r])
                        = [r; Details.OmdbById imdbId]
                 | _, Ok (Some omdbData) =>
                     d = Details.Detailed
                           (ApiService.mergeDetailedData tmdbData omdbData)
                 | _, _ => d = Details.Unmerged tmdbData
                 end).
  { intros tmdbData r. unfold Details.enrich.
    destruct (Tmdb.imdbId tmdbData) as [imdbId|].
    - destruct (truthy_str imdbId).
      + destruct (@omdb_lookup_total js http_id imdbId) as [found Hfound].
        rewrite Hfound. destruct found as [omdbData|].
        * eexists. repeat split.
        * destruct (Htitle tmdbData ([r] ++ [Details.OmdbById imdbId]))
            as (d & Hd & Hid & Hreq & Hcase).
          exists d. rewrite Hreq. repeat split; assumption.
      + destruct (Htitle tmdbData [r]) as (d & Hd & Hid & Hreq & Hcase).
        exists d. rewrite Hreq. repeat split; assumption.
    - destruct (Htitle tmdbData [r]) as (d & Hd & Hid & Hreq & Hcase).
      exists d. rewrite Hreq. repeat split; assumption. }
  unfold o, primary, request, Details.getContentDetails. split.
  - intros Hm Ht. apply String.eqb_neq in Hm, Ht. now rewrite Hm, Ht.
  - intros [-> | ->]; cbn [String.eqb Ascii.eqb Bool.eqb]; split.
    + intros e ->. reflexivity.
    + intros tmdbData ->. apply Henrich.
    + intros e ->. reflexivity.
    + intros tmdbData ->. apply Henrich.
Qed.

Lemma getContentDetails_cases_witness :
  exists d,
    Details.result
      (Details.getContentDetails Sample.js
         (fun id => Ok (Sample.movie id "Title" "short"))
         (fun _ => Throw NetworkError) (fun _ => Throw NetworkError)
         (fun _ => Ok (Sample.found "Title" "a considerably longer plot"))
         603 "movie") = Ok d
    /\ Details.details_id d = 603.
Proof.
  destruct (proj2 (proj2 (@getContentDetails_cases Sample.js
                            (fun id => Ok (Sample.movie id "Title" "short"))
                            (fun _ => Throw NetworkError)
                            (fun _ => Throw NetworkError)
                            (fun _ => Ok (Sample.found "Title"
                                            "a considerably longer plot"))
                            603 "movie")
                     (or_introl eq_refl))
              (Sample.movie 603 "Title" "short") eq_refl)
    as (d & Hd & Hid & _).
  exists d. split; [exact Hd|exact Hid].
Defined.

(** ** Discovery *)

(** X23. [discoverContent] asks the primary source for films first and
    for TV shows second, and only for the kinds the type names.  For a
    type other than 'all', 'movie' and 'tv' it asks for nothing and
    returns the empty array.  For 'movie' it asks for films only and for
    'tv' for TV shows only, whatever the other request would answer, and
    returns the enrichment of the answer or throws the error of the
    request.  For 'all' a failure of the request for films is thrown on
    and TV shows are never requested; a failure of the request for TV
    shows is thrown on after both were requested; and with both answers
    it returns the enrichment of the films followed by that of the TV
    shows, one element per record. *)
Theorem discoverContent_cases :
  forall (Filters : Type) (js : Js.Builtins)
         (discoverMovies discoverTV : Filters -> Res ApiError (list Tmdb.Item))
         (http : nat -> Omdb.Params -> Res ApiError Omdb.Raw)
         (sched : nat -> nat -> list nat) (fuel : nat) (type : string)
         (filters : Filters),
    (forall b n, Promise.complete n (sched b n)) ->
    let o :=
      Discover.discoverContent js discoverMovies discoverTV http sched fuel type
        filters in
    (type <> "all" -> type <> "movie" -> type <> "tv" ->
     o = Discover.mkOutcome (Some (Ok [])) [])
    /\ (type = "all" \/ type = "movie" ->
        forall e, discoverMovies filters = Throw e ->
                  o = Discover.mkOutcome (Some (Throw e)) [Discover.DiscoverMovies])
    /\ (type = "movie" ->
        forall movies,
          discoverMovies filters = Ok movies ->
          (List.length movies < fuel)%nat ->
          o = Discover.mkOutcome
                (Some (Ok (ApiService.enhanced_from js http 0 movies)))
                [Discover.DiscoverMovies])
    /\ (type = "tv" ->
        (forall e, discoverTV filters = Throw e ->
                   o = Discover.mkOutcome (Some (Throw e)) [Discover.DiscoverTV])
        /\ forall tvShows,
             discoverTV filters = Ok tvShows ->
             (List.length tvShows < fuel)%nat ->
             o = Discover.mkOutcome
                   (Some (Ok (ApiService.enhanced_from js http 0 tvShows)))
                   [Discover.DiscoverTV])
    /\ (type = "all" ->
        forall movies e,
          discoverMovies filters = Ok movies ->
          discoverTV filters = Throw e ->
          o = Discover.mkOutcome (Some (Throw e))
                [Discover.DiscoverMovies; Discover.DiscoverTV])
    /\ (type = "all" ->
        forall movies tvShows,
          discoverMovies filters = Ok movies ->
          discoverTV filters = Ok tvShows ->
          (List.length movies + List.length tvShows < fuel)%nat ->
          exists enhanced,
            o = Discover.mkOutcome (Some (Ok enhanced))
                  [Discover.DiscoverMovies; Discover.DiscoverTV]
            /\ enhanced
               = ApiService.enhanced_from js http 0 movies
                 ++ ApiService.enhanced_from js http (List.length movies) tvShows
            /\ map ApiService.enhanced_id enhanced
               = map (fun item => Tmdb.id (Tmdb.core item)) (movies ++ tvShows)).
Proof.
  intros Filters js dm dtv http sched fuel type filters Hsched o.
  unfold o, Discover.discoverContent, Discover.wants.
  split; [|split; [|split; [|split; [|split]]]].
  - intros Ha Hm Ht. apply String.eqb_neq in Ha, Hm, Ht. rewrite Ha, Hm, Ht.
    cbn [orb app]. unfold ApiService.enhanceWithOMDBData. reflexivity.
  - intros [-> | ->] e He; cbn [String.eqb Ascii.eqb Bool.eqb orb]; now rewrite He.
  - intros -> movies Hm Hfuel.
    cbn [String.eqb Ascii.eqb Bool.eqb orb]. rewrite Hm. cbn [app].
    rewrite (@enhanceWithOMDBData_ok js http sched movies 5 fuel);
      [reflexivity | lia | exact Hsched | exact Hfuel].
  - intros ->. cbn [String.eqb Ascii.eqb Bool.eqb orb]. split.
    + intros e He. now rewrite He.
    + intros tvShows Ht Hfuel. rewrite Ht. cbn [app].
      rewrite (@enhanceWithOMDBData_ok js http sched tvShows 5 fuel);
        [reflexivity | lia | exact Hsched | exact Hfuel].
  - intros -> movies e Hm Ht.
    cbn [String.eqb Ascii.eqb Bool.eqb orb]. now rewrite Hm, Ht.
  - intros -> movies tvShows Hm Ht Hfuel.
    cbn [String.eqb Ascii.eqb Bool.eqb orb]. rewrite Hm, Ht. cbn [app].
    rewrite (@enhanceWithOMDBData_ok js http sched (movies ++ tvShows) 5 fuel);
      [|lia|exact Hsched|rewrite length_app; exact Hfuel].
    eexists. split; [reflexivity|]. split.
    + now rewrite enhanced_from_app.
    + clear. generalize 0%nat. induction (movies ++ tvShows) as [|item rest IH];
        intros sent; [reflexivity|].
      cbn [ApiService.enhanced_from map]. now rewrite enhanced_of_id, IH.
Qed.

Lemma discoverContent_cases_witness :
  Discover.discoverContent Sample.js
    (fun _ : unit => Ok Sample.seven) (fun _ : unit => Throw NetworkError)
    Sample.http Sample.last_first 8 "movie" tt
  = Discover.mkOutcome
      (Some (Ok (ApiService.enhanced_from Sample.js Sample.http 0 Sample.seven)))
      [Discover.DiscoverMovies].
Proof.
  apply (proj1 (proj2 (proj2 (@discoverContent_cases unit Sample.js
                                (fun _ => Ok Sample.seven)
                                (fun _ => Throw NetworkError)
                                Sample.http Sample.last_first 8 "movie" tt
                                (fun b n =>
                                   Permutation_sym (Permutation_rev (seq 0 n))))))).
  - reflexivity.
  - reflexivity.
  - simpl. lia.
Defined.

(** ** Merged records *)

(** X24. The IMDb rating of a merged record is always a number: a rating
    the secondary source reports as 'N/A' or does not report at all, or
    one that is read as [NaN] or as 0, is replaced by the rating of the
    primary source, in [mergeBasicData] and [mergeDetailedData] alike. *)
Theorem merged_rating_is_number :
  forall (js : Js.Builtins) (data : Omdb.Raw) (omdbItem : Omdb.Item)
         (tmdbItem : Tmdb.Item),
    Omdb.transformOMDBData js data = Ok omdbItem ->
    let basic := MergedBasic.imdb (ApiService.mergeBasicData tmdbItem omdbItem) in
    let detailed :=
      MergedDetailed.imdb (ApiService.mergeDetailedData tmdbItem omdbItem) in
    let primary := Tmdb.rating (Tmdb.core tmdbItem) in
    basic = detailed
    /\ (exists q, basic = Num q)
    /\ (Omdb.raw_imdbRating data = Some "N/A" \/ Omdb.raw_imdbRating data = None ->
        basic = Num primary)
    /\ (forall s,
          Omdb.raw_imdbRating data = Some s -> s <> "N/A" ->
          truthy_num (Js.parseFloat js s) = false ->
          basic = Num primary)
    /\ (forall s,
          Omdb.raw_imdbRating data = Some s -> s <> "N/A" ->
          truthy_num (Js.parseFloat js s) = true ->
          basic = Js.parseFloat js s).
Proof.
  intros js data omdbItem tmdbItem Hdata basic detailed primary.
  assert (Hrating : Omdb.imdbRating omdbItem
                    = Omdb.float_unless_na js (Omdb.raw_imdbRating data)).
  { revert Hdata. unfold Omdb.transformOMDBData, bind.
    destruct (Omdb.transformRatings js _); [|discriminate].
    destruct (Omdb.votes_unless_na js _); [|discriminate].
    intros [= <-]. reflexivity. }
  unfold basic, detailed, primary.
  cbn [ApiService.mergeBasicData ApiService.mergeDetailedData MergedBasic.imdb
       MergedDetailed.imdb].
  unfold ApiService.merge_rating. rewrite Hrating. unfold Omdb.float_unless_na.
  split; [reflexivity|]. split; [|split; [|split]].
  - destruct (Omdb.raw_imdbRating data) as [s|]; [|eexists; reflexivity].
    destruct (String.eqb s "N/A"); [eexists; reflexivity|].
    destruct (Js.parseFloat js s) as [|q]; cbn [truthy_num].
    + eexists; reflexivity.
    + destruct (negb (Qeq_bool q 0)); eexists; reflexivity.
  - intros [-> | ->]; reflexivity.
  - intros s -> Hs Hfalsy. apply String.eqb_neq in Hs. now rewrite Hs, Hfalsy.
  - intros s -> Hs Htruthy. apply String.eqb_neq in Hs. now rewrite Hs, Htruthy.
Qed.

Lemma merged_rating_is_number_witness :
  MergedBasic.imdb
    (ApiService.mergeBasicData (Sample.movie 1 "Title" "short")
       (Sample.enrichment "Title" "short"))
  = Num (Tmdb.rating (Tmdb.core (Sample.movie 1 "Title" "short"))).
Proof.
  apply (proj1 (proj2 (proj2 (@merged_rating_is_number Sample.js
                                (Sample.found "Title" "short")
                                (Sample.enrichment "Title" "short")
                                (Sample.movie 1 "Title" "short") eq_refl)))).
  left. reflexivity.
Defined.

(** X25. Enrichment never shortens a plot: for a batch size of at least
    1, every element [enhanceWithOMDBData] returns has a plot at least as
    long as the plot of the record it was made from, and that plot is
    the record's own or the one the lookup of that record found. *)
Theorem enhanceWithOMDBData_plot_not_shorter :
  forall (js : Js.Builtins) (http : nat -> Omdb.Params -> Res ApiError Omdb.Raw)
         (sched : nat -> nat -> list nat) (tmdbItems : list Tmdb.Item)
         (maxConcurrent : Z) (fuel : nat),
    1 <= maxConcurrent ->
    (forall b n, Promise.complete n (sched b n)) ->
    (List.length tmdbItems < fuel)%nat ->
    exists enhancedItems,
      ApiService.enhanceWithOMDBData js http sched fuel tmdbItems maxConcurrent
      = Some (Ok enhancedItems)
      /\ forall i item,
           nth_error tmdbItems i = Some item ->
           exists r,
             nth_error enhancedItems i = Some r
             /\ (String.length (Tmdb.plot (Tmdb.core item))
                 <= String.length (ApiService.enhanced_plot r))%nat
             /\ (ApiService.enhanced_plot r = Tmdb.plot (Tmdb.core item)
                 \/ exists omdbItem,
                      Omdb.searchByTitle js (http i) (Tmdb.title (Tmdb.core item))
                        (Some (Tmdb.year (Tmdb.core item)))
                        (Omdb.getOMDBType (Tmdb.type (Tmdb.core item)))
                      = Ok (Some omdbItem)
                      /\ Omdb.plot omdbItem = Some (ApiService.enhanced_plot r)).
Proof.
  intros js http sched tmdbItems c fuel Hc Hsched Hfuel.
  eexists. split; [now apply enhanceWithOMDBData_ok|].
  intros i item Hi. eexists. split; [apply enhanced_from_nth; exact Hi|].
  cbn [Nat.add]. unfold ApiService.enhanced_of.
  destruct (Omdb.searchByTitle js (http i) (Tmdb.title (Tmdb.core item))
              (Some (Tmdb.year (Tmdb.core item)))
              (Omdb.getOMDBType (Tmdb.type (Tmdb.core item))))
    as [[omdbItem|]|e]; cbn [ApiService.enhanced_plot].
  - unfold MergedBasic.plot, ApiService.mergeBasicData.
    rewrite merge_plot_cases.
    destruct (Omdb.plot omdbItem) as [s|] eqn:Hplot.
    + destruct (Nat.ltb_spec (String.length (Tmdb.plot (Tmdb.core item)))
                  (String.length s)).
      * split; [lia|]. right. exists omdbItem. split; [reflexivity|exact Hplot].
      * split; [lia|]. left. reflexivity.
    + split; [lia|]. left. reflexivity.
  - split; [lia|]. left. reflexivity.
  - split; [lia|]. left. reflexivity.
Qed.

Lemma enhanceWithOMDBData_plot_not_shorter_witness :
  exists enhancedItems,
    ApiService.enhanceWithOMDBData Sample.js Sample.http Sample.last_first 8
      Sample.seven 5
    = Some (Ok enhancedItems).
Proof.
  destruct (@enhanceWithOMDBData_plot_not_shorter Sample.js Sample.http
              Sample.last_first Sample.seven 5 8 ltac:(lia)
              (fun b n => Permutation_sym (Permutation_rev (seq 0 n)))
              ltac:(simpl; lia))
    as (enhancedItems & Hrun & _).
  exists enhancedItems. exact Hrun.
Defined.

(** X26. With a batch size [maxConcurrent <= 0] the loop of
    [enhanceWithOMDBData] makes no progress: for a non-empty list the
    call does not return, however long it runs; only the empty list is
    returned, at once. *)
Theorem enhanceWithOMDBData_no_progress :
  forall (js : Js.Builtins) (http : nat -> Omdb.Params -> Res ApiError Omdb.Raw)
         (sched : nat -> nat -> list nat) (tmdbItems : list Tmdb.Item)
         (maxConcurrent : Z),
    maxConcurrent <= 0 ->
    forall fuel,
      ApiService.enhanceWithOMDBData js http sched fuel tmdbItems maxConcurrent
      = match tmdbItems with
        | [] => Some (Ok [])
        | _ :: _ => None
        end.
Proof.
  intros js http sched tmdbItems c Hc fuel. unfold ApiService.enhanceWithOMDBData.
  destruct tmdbItems as [|item rest]; [reflexivity|].
  cbn [List.length Nat.eqb].
  apply enhance_loop_stuck; [exact Hc|discriminate|lia].
Qed.

Lemma enhanceWithOMDBData_no_progress_witness :
  ApiService.enhanceWithOMDBData Sample.js Sample.http Sample.last_first 1000
    Sample.seven 0 = None.
Proof.
  exact (@enhanceWithOMDBData_no_progress Sample.js Sample.http Sample.last_first
           Sample.seven 0 ltac:(lia) 1000%nat).
Defined.

(** ** The watchlist *)

Lemma listed_In id l :
  Watchlist.listed id l = true <-> In id (Watchlist.ids l).
Proof.
  unfold Watchlist.listed, Watchlist.ids.
  induction l as [|w l IH]; cbn [find map In].
  - split; [discriminate|intros []].
  - destruct (Z.eqb_spec (ApiService.enhanced_id w) id) as [->|Hne].
    + split; auto.
    + rewrite IH. split; [auto|]. intros [H|H]; [contradiction|exact H].
Qed.

Lemma ids_filter_In id x l :
  In x (Watchlist.ids
          (filter (fun item => negb (ApiService.enhanced_id item =? id)) l))
  <-> In x (Watchlist.ids l) /\ x <> id.
Proof.
  unfold Watchlist.ids. rewrite !in_map_iff. split.
  - intros (w & <- & Hw). apply filter_In in Hw. destruct Hw as [Hw Hne].
    split; [exists w; auto|]. destruct (Z.eqb_spec (ApiService.enhanced_id w) id);
      [discriminate|assumption].
  - intros [(w & <- & Hw) Hne]. exists w. split; [reflexivity|].
    apply filter_In. split; [exact Hw|].
    destruct (Z.eqb_spec (ApiService.enhanced_id w) id); [contradiction|reflexivity].
Qed.

Lemma ids_filter_NoDup id l :
  NoDup (Watchlist.ids l) ->
  NoDup (Watchlist.ids
           (filter (fun item => negb (ApiService.enhanced_id item =? id)) l)).
Proof.
  unfold Watchlist.ids. induction l as [|w l IH]; cbn [map filter]; [auto|].
  intros Hnd. inversion Hnd as [|? ? Hnotin Hrest]; subst.
  destruct (negb (ApiService.enhanced_id w =? id)); [|auto].
  cbn [map]. constructor; [|auto].
  intros Hin. apply Hnotin. apply in_map_iff in Hin. destruct Hin as (w' & Heq & Hw').
  apply filter_In in Hw'. apply in_map_iff. exists w'. tauto.
Qed.

Lemma ids_snoc_NoDup l item :
  NoDup (Watchlist.ids l) ->
  Watchlist.listed (ApiService.enhanced_id item) l = false ->
  NoDup (Watchlist.ids (l ++ [item])).
Proof.
  intros Hnd Hnew. unfold Watchlist.ids in *. rewrite map_app. cbn [map].
  apply NoDup_app; [exact Hnd|repeat constructor; intros []|].
  intros a Ha [<-|[]]. apply (proj2 (listed_In _ l)) in Ha. congruence.
Qed.

Lemma Watchlist_step_NoDup st a :
  NoDup (Watchlist.ids (Watchlist.watchlist st)) ->
  NoDup (Watchlist.ids (Watchlist.watchedList st)) ->
  NoDup (Watchlist.ids (Watchlist.watchlist (Watchlist.step st a)))
  /\ NoDup (Watchlist.ids (Watchlist.watchedList (Watchlist.step st a))).
Proof.
  intros Hwl Hwd. destruct a as [item|id|item]; cbn [Watchlist.step].
  - unfold Watchlist.addToWatchlist.
    destruct (Watchlist.listed _ (Watchlist.watchlist st)) eqn:Hl; cbn [negb];
      [auto|]. cbn [Watchlist.watchlist Watchlist.watchedList].
    split; [now apply ids_snoc_NoDup|exact Hwd].
  - cbn [Watchlist.removeFromWatchlist Watchlist.watchlist Watchlist.watchedList].
    unfold Watchlist.removeFromWatchlist.
    cbn [Watchlist.watchlist Watchlist.watchedList].
    split; [now apply ids_filter_NoDup|exact Hwd].
  - unfold Watchlist.markAsWatched.
    destruct (Watchlist.listed _ (Watchlist.watchedList st)) eqn:Hl; cbn [negb];
      [auto|]. unfold Watchlist.removeFromWatchlist.
    cbn [Watchlist.watchlist Watchlist.watchedList].
    split; [now apply ids_filter_NoDup|now apply ids_snoc_NoDup].
Qed.

Lemma Watchlist_step_disjoint st a :
  Watchlist.offered st a = true ->
  (forall id, In id (Watchlist.ids (Watchlist.watchlist st)) ->
              ~ In id (Watchlist.ids (Watchlist.watchedList st))) ->
  forall id,
    In id (Watchlist.ids (Watchlist.watchlist (Watchlist.step st a))) ->
    ~ In id (Watchlist.ids (Watchlist.watchedList (Watchlist.step st a))).
Proof.
  intros Hoff Hdis. destruct a as [item|rid|item]; cbn [Watchlist.step Watchlist.offered] in *.
  - unfold Watchlist.addToWatchlist. apply Bool.andb_true_iff in Hoff.
    destruct Hoff as [Hwl Hwd]. rewrite Hwl.
    cbn [Watchlist.watchlist Watchlist.watchedList]. intros id Hin.
    unfold Watchlist.ids in Hin. rewrite map_app in Hin. apply in_app_or in Hin.
    destruct Hin as [Hin|[<-|[]]]; [now apply Hdis|].
    intros Hin. apply listed_In in Hin. rewrite Hin in Hwd. discriminate.
  - unfold Watchlist.removeFromWatchlist.
    cbn [Watchlist.watchlist Watchlist.watchedList]. intros id Hin.
    apply ids_filter_In in Hin. now apply Hdis.
  - unfold Watchlist.markAsWatched.
    destruct (Watchlist.listed _ (Watchlist.watchedList st)) eqn:Hl; cbn [negb];
      [exact Hdis|]. unfold Watchlist.removeFromWatchlist.
    cbn [Watchlist.watchlist Watchlist.watchedList]. intros id Hin.
    apply ids_filter_In in Hin. destruct Hin as [Hin Hne].
    unfold Watchlist.ids. rewrite map_app. intros Hin'. apply in_app_or in Hin'.
    destruct Hin' as [Hin'|[Heq|[]]]; [now apply (Hdis id)|]. congruence.
Qed.

(** X27. The two lists of the application stay well formed: after any
    sequence of [addToWatchlist], [removeFromWatchlist] and
    [markAsWatched] from the empty lists, no id occurs twice in the
    watchlist or in the watched list; and when every action is one the
    page offers at the time (add for a title in neither list, mark and
    remove for a title of the watchlist), no id is in both lists. *)
Theorem Watchlist_lists_well_formed :
  forall actions : list Watchlist.Action,
    let st := Watchlist.run Watchlist.initial actions in
    NoDup (Watchlist.ids (Watchlist.watchlist st))
    /\ NoDup (Watchlist.ids (Watchlist.watchedList st))
    /\ (Watchlist.all_offered Watchlist.initial actions = true ->
        forall id,
          In id (Watchlist.ids (Watchlist.watchlist st)) ->
          ~ In id (Watchlist.ids (Watchlist.watchedList st))).
Proof.
  intros actions.
  assert (Hgen : forall st0,
            NoDup (Watchlist.ids (Watchlist.watchlist st0)) ->
            NoDup (Watchlist.ids (Watchlist.watchedList st0)) ->
            let st := Watchlist.run st0 actions in
            NoDup (Watchlist.ids (Watchlist.watchlist st))
            /\ NoDup (Watchlist.ids (Watchlist.watchedList st))
            /\ (Watchlist.all_offered st0 actions = true ->
                (forall id, In id (Watchlist.ids (Watchlist.watchlist st0)) ->
                            ~ In id (Watchlist.ids (Watchlist.watchedList st0))) ->
                forall id,
                  In id (Watchlist.ids (Watchlist.watchlist st)) ->
                  ~ In id (Watchlist.ids (Watchlist.watchedList st)))).
  { induction actions as [|a rest IH]; intros st0 Hwl Hwd.
    - cbn. auto.
    - destruct (@Watchlist_step_NoDup st0 a Hwl Hwd) as [Hwl' Hwd'].
      destruct (IH (Watchlist.step st0 a) Hwl' Hwd') as (H1 & H2 & H3).
      unfold Watchlist.run in *. cbn [fold_left Watchlist.all_offered].
      split; [exact H1|]. split; [exact H2|].
      intros Hoff Hdis. apply Bool.andb_true_iff in Hoff. destruct Hoff as [Ha Hrest].
      apply H3; [exact Hrest|]. now apply Watchlist_step_disjoint. }
  destruct (Hgen Watchlist.initial (NoDup_nil _) (NoDup_nil _)) as (H1 & H2 & H3).
  split; [exact H1|]. split; [exact H2|].
  intros Hoff. apply H3; [exact Hoff|]. intros id [].
Qed.

(** X28. [markAsWatched] moves a title: for a title not yet in the
    watched list, afterwards its id is in the watched list and no longer
    in the watchlist, and every other id is in a list exactly when it was
    before.  For a title already in the watched list it changes
    nothing, so such a title stays in the watchlist if it was there. *)
Theorem markAsWatched_moves :
  forall (st : Watchlist.State) (item : ApiService.Enhanced),
    let id := ApiService.enhanced_id item in
    let st' := Watchlist.markAsWatched st item in
    (Watchlist.listed id (Watchlist.watchedList st) = true -> st' = st)
    /\ (Watchlist.listed id (Watchlist.watchedList st) = false ->
        In id (Watchlist.ids (Watchlist.watchedList st'))
        /\ ~ In id (Watchlist.ids (Watchlist.watchlist st'))
        /\ forall other,
             other <> id ->
             (In other (Watchlist.ids (Watchlist.watchlist st'))
              <-> In other (Watchlist.ids (Watchlist.watchlist st)))
             /\ (In other (Watchlist.ids (Watchlist.watchedList st'))
                 <-> In other (Watchlist.ids (Watchlist.watchedList st)))).
Proof.
  intros st item id st'. unfold st', Watchlist.markAsWatched. fold id. split.
  - intros ->. reflexivity.
  - intros ->. cbn [negb]. unfold Watchlist.removeFromWatchlist.
    cbn [Watchlist.watchlist Watchlist.watchedList]. split; [|split].
    + unfold Watchlist.ids. rewrite map_app. apply in_or_app. right. left. reflexivity.
    + intros Hin. apply ids_filter_In in Hin. tauto.
    + intros other Hne. split.
      * rewrite ids_filter_In. tauto.
      * unfold Watchlist.ids. rewrite map_app, in_app_iff. cbn [map In].
        fold id. split; [|tauto]. intros [H|[H|[]]]; [exact H|congruence].
Qed.
